(** * RadioShack 26-950 USB scale reader: a shallow embedding of [read_scale.py]

    The development follows the layout of the Python program:

    - the weight decoder ([get_raw_weight], [get_calibrated_weight],
      [format_weight_display]), over IEEE-754 binary64 numbers as Python's
      [float] has them;
    - the keyboard listener, as a transition function over the events the
      listener thread observes;
    - the session ([main]), as a function from what the device and the
      listener deliver to the trace of console and device effects.

    Python exceptions are values of an error monad; a [float] is a
    [spec_float] of the Standard Library at precision 53 and maximal
    exponent 1024. *)

From Stdlib Require Import ZArith List String Ascii Bool Lia.
From Stdlib Require Import Floats.SpecFloat.
Import ListNotations.

Open Scope string_scope.
Open Scope Z_scope.

(** ** Exceptions and results *)

(** The exception classes the modelled code can raise. *)
Inductive exn : Type :=
| ValueError
| IndexError
| OverflowError
| ZeroDivisionError
| OSError.

Inductive result (A : Type) : Type :=
| Ok (a : A)
| Raise (e : exn).

Arguments Ok {A} a.
Arguments Raise {A} e.

Definition bind {A B : Type} (r : result A) (k : A -> result B) : result B :=
  match r with
  | Ok a => k a
  | Raise e => Raise e
  end.

Notation "x <- c ;; k" := (bind c (fun x => k))
  (at level 61, c at next level, right associativity).

(** ** Configuration constants *)

Definition DEVICE_VID : Z := 0x2233.
Definition DEVICE_PID : Z := 0x6323.

Definition BUFFER_WEIGHT_INDEX_HIGH : nat := 6.
Definition BUFFER_WEIGHT_INDEX_LOW : nat := 7.

(** ** Device frames *)

(** A [bytes] object; indexing one yields an [int] in [0, 255]. *)
Definition bytes := list Byte.byte.

Definition byte_value (b : Byte.byte) : Z := Z.of_N (Byte.to_N b).

(** [buffer[i]] for a non-negative index: [IndexError] beyond the end. *)
Definition getitem (buffer : bytes) (i : nat) : result Z :=
  match nth_error buffer i with
  | Some b => Ok (byte_value b)
  | None => Raise IndexError
  end.

(** [get_raw_weight]: the 16-bit big-endian value at bytes 6 and 7.  The
    [ValueError] of the source is what the specification calls
    [InvalidFrame]. *)
Definition get_raw_weight (buffer : bytes) : result Z :=
  if Z.of_nat (List.length buffer) <? 8 then Raise ValueError
  else
    high <- getitem buffer BUFFER_WEIGHT_INDEX_HIGH ;;
    low <- getitem buffer BUFFER_WEIGHT_INDEX_LOW ;;
    Ok (high * 256 + low).

(** A value an unsigned 16-bit integer can hold. *)
Definition is_uint16 (v : Z) : Prop := 0 <= v < 65536.

(** ** Binary64 floating point, as Python's [float] *)

Definition prec : Z := 53.
Definition emax : Z := 1024.

Definition float := spec_float.

Definition fmul : float -> float -> float := SFmul prec emax.
Definition fdiv : float -> float -> float := SFdiv prec emax.
Definition fsub : float -> float -> float := SFsub prec emax.
Definition flt : float -> float -> bool := SFltb.
Definition fle : float -> float -> bool := SFleb.

(** The float nearest to an integer (ties to even). *)
Definition float_of_Z (n : Z) : float := binary_normalize prec emax n 0 false.

(** A decimal literal [digits / 10 ^ places] of the program text: the
    correctly rounded quotient of two exactly represented integers. *)
Definition decimal (digits : Z) (places : Z) : float :=
  fdiv (float_of_Z digits) (float_of_Z (10 ^ places)).

(** A float the hardware can hold that is neither infinite nor NaN. *)
Definition finite64 (x : float) : bool :=
  match x with
  | S754_zero _ => true
  | S754_finite _ m e => bounded prec emax m e
  | _ => false
  end.

Definition sign_bit (x : float) : bool :=
  match x with
  | S754_zero s | S754_infinity s | S754_finite s _ _ => s
  | S754_nan => false
  end.

(** [float(n)] for an [int]: [OverflowError] when [n] is too large. *)
Definition py_float_of_int (n : Z) : result float :=
  match float_of_Z n with
  | S754_infinity _ => Raise OverflowError
  | f => Ok f
  end.

(** [int(x)]: truncation towards zero. *)
Definition py_int_of_float (x : float) : result Z :=
  match x with
  | S754_nan => Raise ValueError
  | S754_infinity _ => Raise OverflowError
  | S754_zero _ => Ok 0
  | S754_finite s m e =>
      Ok (cond_Zopp s (if 0 <=? e then Zpos m * 2 ^ e else Zpos m / 2 ^ (- e)))
  end.

(** The integer [n] with [x = n * 2 ^ ez], for a finite [x] and an [ez] not
    above its exponent. *)
Definition scaled (x : float) (ez : Z) : Z :=
  match x with
  | S754_finite s m e => cond_Zopp s (Zpos m * 2 ^ (e - ez))
  | _ => 0
  end.

Definition exponent (x : float) : Z :=
  match x with
  | S754_finite _ _ e => e
  | _ => 0
  end.

(** [x // y] and [x % y] for a finite non-zero [y]: the floor of the exact
    quotient and the exact remainder, which takes the sign of [y], each
    rounded to a float.  The interpreter reaches them through the C library's
    [fmod], which is exact, and agrees with these whenever [floor(x / y) * y]
    is a float, as it is for the power-of-two divisor of this program. *)
Definition float_floordiv (x y : float) : float :=
  match x, y with
  | S754_zero sx, S754_finite sy _ _ => S754_zero (xorb sx sy)
  | S754_finite sx _ _, S754_finite sy _ _ =>
      let ez := Z.min (exponent x) (exponent y) in
      binary_normalize prec emax (scaled x ez / scaled y ez) 0 (xorb sx sy)
  | _, _ => S754_nan
  end.

Definition float_mod (x y : float) : float :=
  match x, y with
  | S754_zero _, S754_finite sy _ _ => S754_zero sy
  | S754_finite _ _ _, S754_finite sy _ _ =>
      let ez := Z.min (exponent x) (exponent y) in
      binary_normalize prec emax (scaled x ez mod scaled y ez) ez sy
  | _, _ => S754_nan
  end.

(** Mixed arithmetic: the [int] operand is converted to a [float] first. *)
Definition py_float_floordiv_int (x : float) (n : Z) : result float :=
  y <- py_float_of_int n ;;
  match y with
  | S754_zero _ => Raise ZeroDivisionError
  | _ => Ok (float_floordiv x y)
  end.

Definition py_float_mod_int (x : float) (n : Z) : result float :=
  y <- py_float_of_int n ;;
  match y with
  | S754_zero _ => Raise ZeroDivisionError
  | _ => Ok (float_mod x y)
  end.

Definition py_float_div_int (x : float) (n : Z) : result float :=
  y <- py_float_of_int n ;;
  match y with
  | S754_zero _ => Raise ZeroDivisionError
  | _ => Ok (fdiv x y)
  end.

(** [x >= n] for an [int] that a float holds exactly. *)
Definition py_float_ge_int (x : float) (n : Z) : bool := fle (float_of_Z n) x.

(** ** Text: [str(int)] and the [.Nf] format *)

Definition digit_char (d : Z) : ascii := ascii_of_nat (48 + Z.to_nat d).

Fixpoint str_digits (fuel : nat) (n : Z) (acc : string) : string :=
  match fuel with
  | O => acc
  | S k =>
      let acc' := String (digit_char (n mod 10)) acc in
      if n / 10 =? 0 then acc' else str_digits k (n / 10) acc'
  end.

(** Decimal digits of a natural number; it has no more of them than bits. *)
Definition str_nat (n : Z) : string :=
  str_digits (S (Z.to_nat (Z.log2 n))) n EmptyString.

Definition py_str_int (n : Z) : string :=
  if n <? 0 then String "-" (str_nat (- n)) else str_nat n.

Fixpoint fixed_width (width : nat) (n : Z) (acc : string) : string :=
  match width with
  | O => acc
  | S k => fixed_width k (n / 10) (String (digit_char (n mod 10)) acc)
  end.

(** [num / den] rounded to the nearest integer, ties to even. *)
Definition round_half_even (num den : Z) : Z :=
  let q := num / den in
  match 2 * (num mod den) ?= den with
  | Lt => q
  | Gt => q + 1
  | Eq => if Z.even q then q else q + 1
  end.

(** [q / 10 ^ places] written with [places] decimals. *)
Definition fixed_point (places : nat) (q : Z) : string :=
  let unit := 10 ^ Z.of_nat places in
  str_nat (q / unit) ++
  match places with
  | O => EmptyString
  | S _ => String "." (fixed_width places (q mod unit) EmptyString)
  end.

Definition sign_string (s : bool) : string := if s then "-" else EmptyString.

(** [format(x, '.Nf')]: the exact value of [x] rounded to [places] decimals,
    ties to even; the sign bit is shown even when the digits are all zero. *)
Definition py_format_f (places : nat) (x : float) : string :=
  match x with
  | S754_nan => "nan"
  | S754_infinity s => sign_string s ++ "inf"
  | S754_zero s => sign_string s ++ fixed_point places 0
  | S754_finite s m e =>
      let unit := 10 ^ Z.of_nat places in
      sign_string s ++
      fixed_point places
        (if 0 <=? e then Zpos m * 2 ^ e * unit
         else round_half_even (Zpos m * unit) (2 ^ (- e)))
  end.

(** ** Calibration and display *)

(** 0.01286 ounces per raw unit. *)
Definition WEIGHT_CALIBRATION_MULTIPLIER : float :=
  Eval vm_compute in decimal 1286 5.

(** 28.3495 *)
Definition GRAMS_PER_OUNCE : float := Eval vm_compute in decimal 283495 4.
Definition OUNCES_PER_POUND : Z := 16.
Definition GRAMS_PER_KILOGRAM : Z := 1000.

(** The literal [-0.01] of [format_weight_display]. *)
Definition NEGATIVE_DISPLAY_THRESHOLD : float :=
  Eval vm_compute in SFopp (decimal 1 2).

Definition get_calibrated_weight (raw_value tare_offset : Z) : result float :=
  let delta := raw_value - tare_offset in
  d <- py_float_of_int delta ;;
  Ok (fmul d WEIGHT_CALIBRATION_MULTIPLIER).

Definition format_weight_display (weight_oz : float) (is_metric : bool)
  : result string :=
  let abs_weight := SFabs weight_oz in
  let prefix :=
    if flt weight_oz NEGATIVE_DISPLAY_THRESHOLD then "-" else EmptyString in
  if is_metric then
    let grams := fmul weight_oz GRAMS_PER_OUNCE in
    if py_float_ge_int (SFabs grams) GRAMS_PER_KILOGRAM then
      kg <- py_float_div_int (SFabs grams) GRAMS_PER_KILOGRAM ;;
      Ok (prefix ++ py_format_f 3 kg ++ " kg")
    else
      Ok (prefix ++ py_format_f 1 (SFabs grams) ++ " g")
  else
    if py_float_ge_int abs_weight OUNCES_PER_POUND then
      q <- py_float_floordiv_int abs_weight OUNCES_PER_POUND ;;
      lbs <- py_int_of_float q ;;
      rem_oz <- py_float_mod_int abs_weight OUNCES_PER_POUND ;;
      Ok (prefix ++ py_str_int lbs ++ " lb " ++ py_format_f 2 rem_oz ++ " oz")
    else
      Ok (prefix ++ py_format_f 2 abs_weight ++ " oz").

(** ** The keyboard listener *)

(** The values the shared [state["action"]] slot takes besides [None]. *)
Inductive action : Type :=
| tare
| reset
| toggle_units
| exit_esc
| exit_ctrl_c.

(** The literal [0.2] of the debounce test, in seconds. *)
Definition DEBOUNCE_SECONDS : float := Eval vm_compute in decimal 2 1.

(** What the listener thread holds: the slot it shares with the session,
    its private time stamp, and whether its loop is still running. *)
Record listener : Type := {
  pending : option action;
  last_action_time : float;
  listening : bool
}.

(** One turn of the listener's loop, as the thread observes it, and the one
    thing the session does to the shared slot. *)
Inductive listener_event : Type :=
| stop_requested
| select_timeout
| end_of_input
| key_read_error (e : exn)
| key_pressed (key : ascii) (current_time : float)
| action_fetched.

(** [str.upper] on one character; beyond ASCII no character has [T],
    [R] or [M] as its upper case. *)
Definition upper (key : ascii) : ascii :=
  let n := N_of_ascii key in
  if ((97 <=? n) && (n <=? 122))%N then ascii_of_N (n - 32) else key.

Definition ESC : ascii := "027"%char.
Definition CTRL_C : ascii := "003"%char.

Definition listener_start : listener :=
  {| pending := None; last_action_time := S754_zero false; listening := true |}.

(** The body of the loop once a character has been read. *)
Definition on_key (st : listener) (key : ascii) (current_time : float)
  : listener :=
  let key_upper := upper key in
  if flt (fsub current_time (last_action_time st)) DEBOUNCE_SECONDS then st
  else if Ascii.eqb key_upper "T" then
    {| pending := Some tare; last_action_time := current_time;
       listening := true |}
  else if Ascii.eqb key_upper "R" then
    {| pending := Some reset; last_action_time := current_time;
       listening := true |}
  else if Ascii.eqb key_upper "M" then
    {| pending := Some toggle_units; last_action_time := current_time;
       listening := true |}
  else if Ascii.eqb key ESC then
    {| pending := Some exit_esc; last_action_time := last_action_time st;
       listening := false |}
  else if Ascii.eqb key CTRL_C then
    {| pending := Some exit_ctrl_c; last_action_time := last_action_time st;
       listening := false |}
  else st.

Definition listener_step (st : listener) (ev : listener_event) : listener :=
  match ev with
  | action_fetched =>
      {| pending := None; last_action_time := last_action_time st;
         listening := listening st |}
  | stop_requested | end_of_input =>
      {| pending := pending st; last_action_time := last_action_time st;
         listening := false |}
  | select_timeout | key_read_error _ => st
  | key_pressed key current_time =>
      if listening st then on_key st key current_time else st
  end.

Definition keyboard_listener (st : listener) (events : list listener_event)
  : listener :=
  fold_left listener_step events st.

(** A key that produces [tare], [reset] or [toggle_units]. *)
Definition action_key (key : ascii) : bool :=
  Ascii.eqb (upper key) "T" || Ascii.eqb (upper key) "R"
  || Ascii.eqb (upper key) "M".

Definition exit_key (key : ascii) : bool :=
  Ascii.eqb key ESC || Ascii.eqb key CTRL_C.

(** The test of the debounce window, as the listener computes it. *)
Definition within_debounce (last current_time : float) : bool :=
  flt (fsub current_time last) DEBOUNCE_SECONDS.

(** Whether an event makes the listener publish the action of an
    action-producing key. *)
Definition accepted (st : listener) (ev : listener_event) : bool :=
  match ev with
  | key_pressed key current_time =>
      listening st && action_key key
      && negb (within_debounce (last_action_time st) current_time)
  | _ => false
  end.

(** The arrival times of the accepted action keys, oldest first. *)
Fixpoint accepted_times (st : listener) (events : list listener_event)
  : list float :=
  match events with
  | [] => []
  | ev :: rest =>
      let later := accepted_times (listener_step st ev) rest in
      if accepted st ev then
        match ev with
        | key_pressed _ current_time => current_time :: later
        | _ => later
        end
      else later
  end.

(** ** The session *)

Inductive log_record : Type :=
| no_devices_found
| open_failed (e : exn)
| opened (manufacturer : string)
| initial_read_failed
| read_error (e : exn)
| stream_closed.

(** What the program does to the outside, in order. *)
Inductive effect : Type :=
| print (text : string)
| stdout_write (text : string)
| log_debug (r : log_record)
| log_info (r : log_record)
| log_error (r : log_record)
| start_listener
| set_nonblocking
| sleep
| stop_listener
| close_stream.

(** What [stream.read(64)] delivers: the bytes of a report, none when no
    report is waiting, or an exception. *)
Inductive read_result : Type :=
| read_data (data : bytes)
| read_raises (e : exn).

(** The HID library at start-up, call by call of the [try] block of
    [connect_scale]: whether [hid.enumerate] raises and the paths it finds
    for the scale's identifiers; whether [device.open_path] raises on the
    first of them; whether [device.get_manufacturer_string] raises on the
    opened device, and the string it returns. *)
Record hid_world : Type := {
  enumerate_raises : option exn;
  enumerated : list string;
  open_path_raises : option exn;
  get_manufacturer_string_raises : option exn;
  manufacturer_string : string
}.

(** The exception, if any, that the calls of the [try] block raise when
    each of them is reached. *)
Definition open_raises (w : hid_world) : option exn :=
  match enumerate_raises w with
  | Some e => Some e
  | None =>
      match open_path_raises w with
      | Some e => Some e
      | None => get_manufacturer_string_raises w
      end
  end.

(** Both handlers log at debug level and return [None]; the one that
    catches an exception of [get_manufacturer_string] does so with the
    device already open, and nothing closes it. *)
Definition connect_scale (w : hid_world) : option unit * list effect :=
  match enumerate_raises w with
  | Some e => (None, [log_debug (open_failed e)])
  | None =>
      match enumerated w with
      | [] => (None, [log_debug no_devices_found])
      | _ :: _ =>
          match open_path_raises w with
          | Some e => (None, [log_debug (open_failed e)])
          | None =>
              match get_manufacturer_string_raises w with
              | Some e => (None, [log_debug (open_failed e)])
              | None =>
                  (Some tt, [log_info (opened (manufacturer_string w))])
              end
          end
      end
  end.

(** [device.open_path] was reached and has returned: the device is open
    when [connect_scale] ends, whatever it returns. *)
Definition device_opened (w : hid_world) : bool :=
  match enumerate_raises w, enumerated w, open_path_raises w with
  | None, _ :: _, None => true
  | _, _, _ => false
  end.

Definition help_message : string :=
  "RadioShack 26-950 | T: Tare | R: Reset | M: Units | ESC: Exit".

Definition error_message : string :=
"Device not found or could not be opened.

Troubleshooting steps:
  - Make sure the RadioShack 26-950 scale is connected and powered on.
  - Verify the USB VID/PID (expected VID=0x2233, PID=0x6323).
  - Check device permissions: you may need to run with sudo or configure udev rules.
  - Ensure no other application is currently using the device.
  - On Linux, verify the device appears in: lsusb | grep 2233
".

Definition show_help_message : list effect := [print help_message].
Definition show_error_message : list effect := [print error_message].

(** The local variables of [main] that the loop reads and writes. *)
Record session : Type := {
  absolute_zero : Z;
  current_offset : Z;
  current_raw : Z;
  is_metric : bool
}.

(** One pass of the loop: whether [should_exit] was set by the signal
    handler, what the slot held when it was fetched, and what the device
    read delivered. *)
Record tick : Type := {
  interrupted : bool;
  fetched : option action;
  device_read : read_result
}.

(** The [if]/[elif] chain over the fetched action; [None] is [break]. *)
Definition apply_action (s : session) (a : option action) : option session :=
  match a with
  | Some tare =>
      Some {| absolute_zero := absolute_zero s;
              current_offset := current_raw s;
              current_raw := current_raw s;
              is_metric := is_metric s |}
  | Some reset =>
      Some {| absolute_zero := absolute_zero s;
              current_offset := absolute_zero s;
              current_raw := current_raw s;
              is_metric := is_metric s |}
  | Some toggle_units =>
      Some {| absolute_zero := absolute_zero s;
              current_offset := current_offset s;
              current_raw := current_raw s;
              is_metric := negb (is_metric s) |}
  | Some exit_esc | Some exit_ctrl_c => None
  | None => Some s
  end.

Definition CR : ascii := "013"%char.

(** The status line written for the session's current values. *)
Definition status_line (s : session) : result string :=
  weight_oz <- get_calibrated_weight (current_raw s) (current_offset s) ;;
  let delta := current_raw s - current_offset s in
  display <- format_weight_display weight_oz (is_metric s) ;;
  Ok (String CR ("Weight: " ++ display ++ " (Raw: " ++ py_str_int delta
                 ++ ")      ")).

Definition set_current_raw (s : session) (raw : Z) : session :=
  {| absolute_zero := absolute_zero s;
     current_offset := current_offset s;
     current_raw := raw;
     is_metric := is_metric s |}.

(** The [try] block of the loop: read, decode, render. *)
Definition poll_device (s : session) (r : read_result)
  : session * list effect :=
  match r with
  | read_raises e => (s, [log_debug (read_error e)])
  | read_data [] => (s, [])
  | read_data data =>
      match get_raw_weight data with
      | Raise e => (s, [log_debug (read_error e)])
      | Ok raw =>
          let s' := set_current_raw s raw in
          match status_line s' with
          | Ok line => (s', [stdout_write line])
          | Raise e => (s', [log_debug (read_error e)])
          end
      end
  end.

(** [current_raw] after the [try] block of a pass: the decoded value when
    the read brought a frame that decodes, otherwise the value it had. *)
Definition latest_raw (raw : Z) (r : read_result) : Z :=
  match r with
  | read_raises _ => raw
  | read_data [] => raw
  | read_data data =>
      match get_raw_weight data with
      | Ok decoded => decoded
      | Raise _ => raw
      end
  end.

Inductive step_result : Type :=
| continue (s : session) (out : list effect)
| leave.

Definition session_step (s : session) (t : tick) : step_result :=
  if interrupted t then leave
  else
    match apply_action s (fetched t) with
    | None => leave
    | Some s1 =>
        let '(s2, out) := poll_device s1 (device_read t) in
        continue s2 (out ++ [sleep])%list
    end.

(** The loop over the passes observed so far: the effects, the session
    variables at the end and whether the loop was left. *)
Fixpoint run_loop (s : session) (ticks : list tick)
  : list effect * session * bool :=
  match ticks with
  | [] => ([], s, false)
  | t :: rest =>
      match session_step s t with
      | leave => ([], s, true)
      | continue s' out =>
          let '(out', final, has_left) := run_loop s' rest in
          ((out ++ out')%list, final, has_left)
      end
  end.

Inductive outcome : Type :=
| returned
| raised (e : exn)
| running.

Definition close_device : list effect :=
  [close_stream; log_info stream_closed; print EmptyString].

Record world : Type := {
  hid : hid_world;
  initial_read : read_result;
  ticks : list tick
}.

Definition main (w : world) : list effect * outcome :=
  let '(stream, log) := connect_scale (hid w) in
  match stream with
  | None => ((log ++ show_error_message)%list, returned)
  | Some _ =>
      match initial_read w with
      | read_raises e => ((log ++ close_device)%list, raised e)
      | read_data [] =>
          ((log ++ [log_error initial_read_failed] ++ close_device)%list,
           returned)
      | read_data data =>
          match get_raw_weight data with
          | Raise e => ((log ++ close_device)%list, raised e)
          | Ok zero =>
              let s := {| absolute_zero := zero; current_offset := zero;
                          current_raw := zero; is_metric := false |} in
              let '(out, _, has_left) := run_loop s (ticks w) in
              let startup :=
                (log ++ show_help_message
                 ++ [start_listener; set_nonblocking])%list in
              if has_left then
                ((startup ++ out ++ [stop_listener] ++ close_device)%list,
                 returned)
              else ((startup ++ out)%list, running)
          end
      end
  end.

(** The effects that only the polling loop produces. *)
Definition loop_effect (e : effect) : bool :=
  match e with
  | stdout_write _ | set_nonblocking | sleep | start_listener => true
  | log_debug (read_error _) => true
  | _ => false
  end.

(** A read that brings no usable frame: an exception, no data, or fewer
    than 8 bytes. *)
Definition failed_read (r : read_result) : bool :=
  match r with
  | read_raises _ => true
  | read_data data => (List.length data <? 8)%nat
  end.

(** The debug records a failed read leaves. *)
Definition failed_read_log (r : read_result) : list effect :=
  match r with
  | read_raises e => [log_debug (read_error e)]
  | read_data [] => []
  | read_data (_ :: _) => [log_debug (read_error ValueError)]
  end.

(** ** The display, following the specification's words *)

(** The sign: a leading minus when the unrounded ounce value is below the
    threshold of -0.01. *)
Definition display_sign (weight_oz : float) : string :=
  if flt weight_oz NEGATIVE_DISPLAY_THRESHOLD then "-" else EmptyString.

(** The magnitude, rendered from the absolute value of the weight: pounds
    and remaining ounces from 16 oz on, ounces below; kilograms from 1000 g
    on, grams below. *)
Definition display_magnitude (abs_oz : float) (is_metric : bool)
  : result string :=
  if is_metric then
    let grams := fmul abs_oz GRAMS_PER_OUNCE in
    if py_float_ge_int grams GRAMS_PER_KILOGRAM then
      kg <- py_float_div_int grams GRAMS_PER_KILOGRAM ;;
      Ok (py_format_f 3 kg ++ " kg")
    else Ok (py_format_f 1 grams ++ " g")
  else
    if py_float_ge_int abs_oz OUNCES_PER_POUND then
      q <- py_float_floordiv_int abs_oz OUNCES_PER_POUND ;;
      lbs <- py_int_of_float q ;;
      rem_oz <- py_float_mod_int abs_oz OUNCES_PER_POUND ;;
      Ok (py_str_int lbs ++ " lb " ++ py_format_f 2 rem_oz ++ " oz")
    else Ok (py_format_f 2 abs_oz ++ " oz").

Definition format_display (weight_oz : float) (is_metric : bool)
  : result string :=
  body <- display_magnitude (SFabs weight_oz) is_metric ;;
  Ok (display_sign weight_oz ++ body).

(** Whether a character occurs in a text, and whether a text starts with a
    minus sign. *)
Fixpoint occurs (c : ascii) (s : string) : bool :=
  match s with
  | EmptyString => false
  | String x rest => Ascii.eqb x c || occurs c rest
  end.

Definition leading_minus (s : string) : bool :=
  match s with
  | String c _ => Ascii.eqb c "-"
  | EmptyString => false
  end.

(** ** Spacing of accepted key presses *)

(** Each time in the list lies outside the debounce window of the one
    before it, by the listener's own test. *)
Fixpoint spaced (times : list float) : bool :=
  match times with
  | [] => true
  | t1 :: rest =>
      match rest with
      | [] => true
      | t2 :: _ => negb (within_debounce t1 t2) && spaced rest
      end
  end.

(** The status line [main] writes for a display text and a raw delta. *)
Definition status_text (display : string) (delta : Z) : string :=
  String CR ("Weight: " ++ display ++ " (Raw: " ++ py_str_int delta
             ++ ")      ").

Definition writes_status (e : effect) : bool :=
  match e with
  | stdout_write _ => true
  | _ => false
  end.

(** ** Names for the binary64 format *)

Definition emin64 : Z := emin prec emax.
Definition fexp64 : Z -> Z := fexp prec emax.

(** ** Exact values and rounding *)

(** The record reached after shifting [M] right by [n] bits. *)
Definition shifted (mrs : shr_record) (M n : Z) : Prop :=
  shr_m mrs = M / 2 ^ n /\
  shr_r mrs = Z.odd (2 * M / 2 ^ n) /\
  shr_s mrs = negb (2 * M mod 2 ^ n =? 0).

(** A finite float from a rounded mantissa at exponent [f]. *)
Definition canon (s : bool) (N f : Z) : float :=
  let e2 := fexp64 (Zdigits2 N + f) in
  match N / 2 ^ (e2 - f) with
  | Z0 => S754_zero s
  | Zpos m => if e2 <=? emax - prec then S754_finite s m e2
              else S754_infinity s
  | Zneg _ => S754_nan
  end.

(** The exact value of a finite float in units of [2 ^ -1074], and in
    these units the midpoint between the float 0.2 and the float under
    it. *)
Definition exact_units (x : float) : Z := scaled x (-1074).
Definition DEBOUNCE_UNITS : Z := (2 * 7205759403792794 - 1) * 2 ^ 1018.

(** Every key press of the list carries a finite time stamp. *)
Definition finite_times (events : list listener_event) : bool :=
  forallb (fun ev => match ev with
                     | key_pressed _ now => finite64 now
                     | _ => true
                     end) events.

(** A later time lies outside the debounce window of an earlier one: by
    the listener's own test and, in exact arithmetic, by at least the
    midpoint under 0.2 s. *)
Definition outside_window (earlier later : float) : Prop :=
  within_debounce earlier later = false /\
  DEBOUNCE_UNITS <= exact_units later - exact_units earlier.

(** Two time stamps at least 200 ms apart, the later after the earlier, in
    exact arithmetic: a fifth of [2 ^ 1074] units of [2 ^ -1074] s make
    0.2 s. *)
Definition at_least_200ms_apart (earlier later : float) : Prop :=
  2 ^ 1074 <= 5 * (exact_units later - exact_units earlier).

(** ** Predicates on sessions, frames and traces *)

(** The effects one pass of the loop can produce. *)
Definition pass_effect (e : effect) : bool :=
  match e with
  | stdout_write _ | sleep | log_debug (read_error _) => true
  | _ => false
  end.

(** The three raw values a session holds are unsigned 16-bit integers. *)
Definition session_ok (s : session) : Prop :=
  is_uint16 (absolute_zero s) /\ is_uint16 (current_offset s) /\
  is_uint16 (current_raw s).

(** The byte with a given value below 256. *)
Definition byte_of (v : Z) : Byte.byte :=
  match Byte.of_N (Z.to_N v) with
  | Some b => b
  | None => Byte.x00
  end.

(** A frame that carries a raw value big-endian at offsets 6 and 7. *)
Definition frame_of (header : bytes) (raw : Z) (trailer : bytes) : bytes :=
  (header ++ [byte_of (raw / 256); byte_of (raw mod 256)] ++ trailer)%list.

Definition closes_device (e : effect) : bool :=
  match e with close_stream => true | _ => false end.

Definition stops_listener (e : effect) : bool :=
  match e with stop_listener => true | _ => false end.

Definition starts_listener (e : effect) : bool :=
  match e with start_listener => true | _ => false end.

(** ** Passes that end the loop, and what a run counts *)

(** A pass at whose start the loop is left: the signal handler has set
    [should_exit], or the action fetched is one of the two exits. *)
Definition ends_loop (t : tick) : bool :=
  interrupted t ||
  match fetched t with
  | Some exit_esc | Some exit_ctrl_c => true
  | _ => false
  end.

(** The passes that run to their end: those before the first that leaves. *)
Fixpoint completed (ticks : list tick) : list tick :=
  match ticks with
  | [] => []
  | t :: rest => if ends_loop t then [] else t :: completed rest
  end.

Definition is_sleep (e : effect) : bool :=
  match e with
  | sleep => true
  | _ => false
  end.

Definition is_toggle (t : tick) : bool :=
  match fetched t with
  | Some toggle_units => true
  | _ => false
  end.

(** What a pass that runs to its end emits when nothing fails but the
    read: after a failed read its debug record, if any, and the sleep;
    otherwise the status line of the value decoded from the frame against a
    16-bit offset, and the sleep. *)
Definition pass_writes (t : tick) (out : list effect) : Prop :=
  if failed_read (device_read t) then
    out = (failed_read_log (device_read t) ++ [sleep])%list
  else
    exists raw offset metric w display,
      (forall previous, latest_raw previous (device_read t) = raw) /\
      is_uint16 raw /\ is_uint16 offset /\
      get_calibrated_weight raw offset = Ok w /\
      format_weight_display w metric = Ok display /\
      out = [stdout_write (status_text display (raw - offset)); sleep].

(** * Rounding to binary64 *)

Lemma digits2_pos_size (p : positive) : digits2_pos p = Pos.size p.
Proof. induction p; simpl; congruence. Qed.

Lemma Zdigits2_log2 (m : Z) : 0 < m -> Zdigits2 m = Z.log2 m + 1.
Proof.
  destruct m as [|p|p]; try lia. intros _. simpl.
  rewrite digits2_pos_size.
  destruct p; simpl; lia.
Qed.

Lemma Zdigits2_bounds (m : Z) :
  0 < m -> 2 ^ (Zdigits2 m - 1) <= m < 2 ^ Zdigits2 m.
Proof.
  intros Hm. rewrite (Zdigits2_log2 m Hm).
  replace (Z.log2 m + 1 - 1) with (Z.log2 m) by lia.
  replace (Z.log2 m + 1) with (Z.succ (Z.log2 m)) by lia.
  apply Z.log2_spec. exact Hm.
Qed.

Lemma Zdigits2_unique (m d : Z) :
  2 ^ (d - 1) <= m < 2 ^ d -> 0 < d -> Zdigits2 m = d.
Proof.
  intros H Hd.
  assert (Hm : 0 < m).
  { assert (0 < 2 ^ (d - 1)) by (apply Z.pow_pos_nonneg; lia). lia. }
  rewrite (Zdigits2_log2 m Hm).
  assert (Z.log2 m = d - 1); [|lia].
  apply Z.log2_unique; [lia|].
  replace (Z.succ (d - 1)) with d by lia. exact H.
Qed.

Lemma Zdigits2_pos (m : Z) : 0 < m -> 0 < Zdigits2 m.
Proof. intros H. rewrite Zdigits2_log2 by exact H. pose proof (Z.log2_nonneg m). lia. Qed.

Lemma shr_1_m (mrs : shr_record) :
  0 <= shr_m mrs ->
  shr_m (shr_1 mrs) = shr_m mrs / 2 /\ 0 <= shr_m (shr_1 mrs).
Proof.
  destruct mrs as [m r s]. cbn [shr_m]. intros Hm.
  destruct m as [|[q|q|]|q]; cbn [shr_1 shr_m]; try lia.
  - split; [reflexivity|lia].
  - split; [|lia]. apply (Z.div_unique _ _ _ 1); lia.
  - split; [|lia]. apply (Z.div_unique _ _ _ 0); lia.
  - split; [reflexivity|lia].
Qed.

Lemma iter_pos_shr_m (p : positive) : forall mrs,
  0 <= shr_m mrs ->
  shr_m (iter_pos shr_1 p mrs) = shr_m mrs / 2 ^ Zpos p /\
  0 <= shr_m (iter_pos shr_1 p mrs).
Proof.
  assert (Hpow : forall q, 0 < 2 ^ Zpos q) by (intros; apply Z.pow_pos_nonneg; lia).
  induction p as [p IH|p IH|]; intros mrs Hm; simpl iter_pos.
  - destruct (shr_1_m mrs Hm) as [E1 P1].
    destruct (IH _ P1) as [E2 P2].
    destruct (IH _ P2) as [E3 P3].
    split; [|exact P3].
    rewrite E3, E2, E1.
    replace (Z.pos p~1) with (1 + Z.pos p + Z.pos p) by lia.
    rewrite !Z.pow_add_r by lia.
    pose proof (Hpow p).
    rewrite !Z.div_div by lia. f_equal. change (2 ^ 1) with 2. ring.
  - destruct (IH _ Hm) as [E2 P2].
    destruct (IH _ P2) as [E3 P3].
    split; [|exact P3].
    rewrite E3, E2.
    replace (Z.pos p~0) with (Z.pos p + Z.pos p) by lia.
    rewrite !Z.pow_add_r by lia.
    pose proof (Hpow p).
    rewrite !Z.div_div by lia. reflexivity.
  - destruct (shr_1_m mrs Hm) as [E1 P1]. split; [|exact P1].
    rewrite E1. reflexivity.
Qed.


Lemma Zdigits2_div_pow (m n : Z) :
  0 < m -> 0 <= n -> n < Zdigits2 m ->
  Zdigits2 (m / 2 ^ n) = Zdigits2 m - n.
Proof.
  intros Hm Hn Hlt.
  pose proof (Zdigits2_bounds m Hm) as [Hlo Hhi].
  apply Zdigits2_unique; [|lia].
  assert (Hp : 0 < 2 ^ n) by (apply Z.pow_pos_nonneg; lia).
  split.
  - apply Z.div_le_lower_bound; [lia|].
    rewrite <- Z.pow_add_r by lia.
    replace (n + (Zdigits2 m - n - 1)) with (Zdigits2 m - 1) by lia. exact Hlo.
  - apply Z.div_lt_upper_bound; [lia|].
    rewrite <- Z.pow_add_r by lia.
    replace (n + (Zdigits2 m - n)) with (Zdigits2 m) by lia. exact Hhi.
Qed.

Lemma div_pow_small (m n : Z) :
  0 <= m -> Zdigits2 m <= n -> m / 2 ^ n = 0.
Proof.
  intros Hm Hn.
  destruct (Z.eq_dec m 0) as [->|Hnz].
  - apply Z.div_0_l. assert (0 < 2 ^ n); [apply Z.pow_pos_nonneg; simpl in Hn; lia|lia].
  - assert (Hm' : 0 < m) by lia.
    pose proof (Zdigits2_bounds m Hm') as [_ Hhi].
    pose proof (Zdigits2_pos m Hm').
    apply Z.div_small. split; [lia|].
    eapply Z.lt_le_trans; [exact Hhi|].
    apply Z.pow_le_mono_r; lia.
Qed.

Lemma fexp_unfold (x : Z) : fexp64 x = Z.max (x - prec) emin64.
Proof. reflexivity. Qed.

Lemma emin_value : emin64 = -1074.
Proof. reflexivity. Qed.

Lemma shr_record_of_loc_m (m : Z) (l : location) :
  shr_m (shr_record_of_loc m l) = m.
Proof. destruct l as [|[]]; reflexivity. Qed.

Lemma shr_fexp_spec (m e : Z) (l : location) :
  0 <= m -> e <= fexp64 (Zdigits2 m + e) ->
  exists mrs,
    shr_fexp prec emax m e l = (mrs, fexp64 (Zdigits2 m + e)) /\
    shr_m mrs = m / 2 ^ (fexp64 (Zdigits2 m + e) - e).
Proof.
  intros Hm He. unfold shr_fexp, shr. fold (fexp64 (Zdigits2 m + e)).
  destruct (fexp64 (Zdigits2 m + e) - e) as [|p|p] eqn:En.
  - exists (shr_record_of_loc m l). split.
    + f_equal. lia.
    + rewrite shr_record_of_loc_m. rewrite Z.div_1_r. reflexivity.
  - exists (iter_pos shr_1 p (shr_record_of_loc m l)). split.
    + f_equal. lia.
    + destruct (iter_pos_shr_m p (shr_record_of_loc m l)) as [E _].
      * rewrite shr_record_of_loc_m. exact Hm.
      * rewrite E, shr_record_of_loc_m. reflexivity.
  - lia.
Qed.

Lemma round_nearest_even_bounds (m : Z) (l : location) :
  m <= round_nearest_even m l <= m + 1.
Proof.
  destruct l as [|[]]; simpl; try lia.
  destruct (Z.even m); lia.
Qed.

Lemma Zdigits2_nonneg (m : Z) : 0 <= Zdigits2 m.
Proof. destruct m; simpl; lia. Qed.

Lemma Zdigits2_mono (a b : Z) : 0 <= a <= b -> Zdigits2 a <= Zdigits2 b.
Proof.
  intros [Ha Hab].
  destruct (Z.eq_dec a 0) as [->|Hnz]; [apply Zdigits2_nonneg|].
  rewrite !Zdigits2_log2 by lia.
  pose proof (Z.log2_le_mono a b Hab). lia.
Qed.

Lemma Zdigits2_succ (a : Z) : 0 <= a -> Zdigits2 (a + 1) <= Zdigits2 a + 1.
Proof.
  intros Ha.
  destruct (Z.eq_dec a 0) as [->|Hnz]; [simpl; lia|].
  rewrite !Zdigits2_log2 by lia.
  pose proof (Z.log2_succ_le a). unfold Z.succ in *. lia.
Qed.

Lemma binary_round_aux_finite (s : bool) (m e : Z) (l : location) :
  0 < m -> e <= fexp64 (Zdigits2 m + e) -> Zdigits2 m + e < emax ->
  (binary_round_aux prec emax s m e l = S754_zero s /\
   Zdigits2 m + e < emin64 + prec) \/
  exists m' e',
    binary_round_aux prec emax s m e l = S754_finite s m' e' /\
    bounded prec emax m' e' = true /\
    fexp64 (Zdigits2 m + e) <= e'.
Proof.
  intros Hm He Hmax.
  unfold binary_round_aux.
  destruct (shr_fexp_spec m e l) as (mrs1 & E1 & M1); [lia|exact He|].
  rewrite E1.
  remember (fexp64 (Zdigits2 m + e)) as e1 eqn:De1.
  remember (Zdigits2 m) as d eqn:Dd.
  rewrite fexp_unfold, emin_value in De1.
  assert (Hd : 0 < d) by (subst d; apply Zdigits2_pos; exact Hm).
  assert (Hp : 0 < 2 ^ (e1 - e)) by (apply Z.pow_pos_nonneg; lia).
  assert (Hm1 : 0 <= shr_m mrs1) by (rewrite M1; apply Z.div_pos; lia).
  remember (round_nearest_even (shr_m mrs1) (loc_of_shr_record mrs1)) as m2
    eqn:Dm2.
  pose proof (round_nearest_even_bounds (shr_m mrs1) (loc_of_shr_record mrs1))
    as Hm2. rewrite <- Dm2 in Hm2.
  unfold prec, emax in Hmax, De1.
  (* digits of the shifted mantissa *)
  assert (Hd1 : (Zdigits2 (shr_m mrs1) + e1 = d + e /\ 0 < shr_m mrs1) \/
                (shr_m mrs1 = 0 /\ e1 = -1074 /\ d + e <= -1074)).
  { destruct (Z_lt_dec (e1 - e) d) as [Hlt|Hge].
    - left. rewrite M1.
      assert (Hdd : Zdigits2 (m / 2 ^ (e1 - e)) = d - (e1 - e)).
      { subst d. apply Zdigits2_div_pow; lia. }
      split; [lia|].
      destruct (m / 2 ^ (e1 - e)) eqn:Eq; simpl in Hdd; lia.
    - right. split; [rewrite M1; apply div_pow_small; lia|]. lia. }
  pose proof (Zdigits2_mono (shr_m mrs1) m2 ltac:(lia)) as Hmono.
  assert (Hd2 : Zdigits2 m2 <= Zdigits2 (shr_m mrs1) + 1).
  { etransitivity; [apply (Zdigits2_mono m2 (shr_m mrs1 + 1)); lia|].
    apply Zdigits2_succ. exact Hm1. }
  pose proof (Zdigits2_nonneg m2) as Hd2nn.
  assert (He2 : e1 <= fexp64 (Zdigits2 m2 + e1)).
  { rewrite fexp_unfold, emin_value. unfold prec.
    destruct Hd1 as [[Hd1 Hpos]|(Hz & Hemin & _)]; lia. }
  destruct (shr_fexp_spec m2 e1 loc_Exact) as (mrs2 & E2 & M2); [lia|exact He2|].
  rewrite E2.
  remember (fexp64 (Zdigits2 m2 + e1)) as e2 eqn:De2.
  rewrite fexp_unfold, emin_value in De2. unfold prec in De2.
  assert (Hp2 : 0 < 2 ^ (e2 - e1)) by (apply Z.pow_pos_nonneg; lia).
  assert (Hm3 : 0 <= shr_m mrs2) by (rewrite M2; apply Z.div_pos; lia).
  assert (Hz0 : Zdigits2 0 = 0) by reflexivity.
  destruct (shr_m mrs2) as [|m3|m3] eqn:Em3; [| |lia].
  - (* the result is a zero: the mantissa was shifted out entirely *)
    left. split; [reflexivity|].
    destruct Hd1 as [[Hd1 Hpos]|(Hz & Hemin & Hsmall)]; [exfalso|rewrite emin_value; unfold prec; lia].
    assert (Hm2pos : 0 < m2) by lia.
    pose proof (Zdigits2_pos m2 Hm2pos).
    assert (Hdd : Zdigits2 (m2 / 2 ^ (e2 - e1)) = Zdigits2 m2 - (e2 - e1)).
    { apply Zdigits2_div_pow; lia. }
    rewrite <- M2, Hz0 in Hdd. lia.
  - right. exists m3, e2.
    assert (Hm2pos : 0 < m2).
    { destruct (Z.eq_dec m2 0) as [Hz|]; [|lia].
      rewrite Hz in M2. rewrite Z.div_0_l in M2 by lia. discriminate. }
    assert (Hsh : e2 - e1 < Zdigits2 m2).
    { destruct (Z_lt_dec (e2 - e1) (Zdigits2 m2)); [assumption|].
      rewrite div_pow_small in M2 by lia. discriminate. }
    assert (Hd3 : Z.pos (digits2_pos m3) = Zdigits2 m2 - (e2 - e1)).
    { change (Z.pos (digits2_pos m3)) with (Zdigits2 (Z.pos m3)).
      rewrite M2. apply Zdigits2_div_pow; lia. }
    assert (Hbound : e2 <= emax - prec).
    { unfold prec, emax.
      destruct Hd1 as [[Hd1 Hpos]|(Hz & Hemin & Hsmall)]; [lia|].
      rewrite Hz, Hz0 in Hd2. lia. }
    assert (Hle : (e2 <=? emax - prec) = true) by (apply Z.leb_le; exact Hbound).
    rewrite Hle. split; [reflexivity|]. split.
    + unfold bounded, canonical_mantissa. rewrite Hle, andb_true_r.
      apply Z.eqb_eq. rewrite Hd3.
      replace (Zdigits2 m2 - (e2 - e1) + e2) with (Zdigits2 m2 + e1) by lia.
      fold (fexp64 (Zdigits2 m2 + e1)).
      rewrite fexp_unfold, emin_value. unfold prec. lia.
    + lia.
Qed.

Lemma pos_iter_xO (d m : positive) :
  Z.pos (Pos.iter xO m d) = Z.pos m * 2 ^ Z.pos d.
Proof.
  induction d as [|d IH] using Pos.peano_ind.
  - simpl. lia.
  - rewrite Pos.iter_succ, Pos2Z.pos_xO, IH, Pos2Z.inj_succ.
    rewrite Z.pow_succ_r by lia. ring.
Qed.

Lemma Zdigits2_mul_pow (m n : Z) :
  0 < m -> 0 <= n -> Zdigits2 (m * 2 ^ n) = Zdigits2 m + n.
Proof.
  intros Hm Hn.
  pose proof (Zdigits2_bounds m Hm) as [Hlo Hhi].
  pose proof (Zdigits2_pos m Hm).
  assert (Hp : 0 < 2 ^ n) by (apply Z.pow_pos_nonneg; lia).
  apply Zdigits2_unique; [|lia].
  replace (Zdigits2 m + n - 1) with (Zdigits2 m - 1 + n) by lia.
  rewrite !Z.pow_add_r by lia.
  split; [apply Z.mul_le_mono_nonneg_r|apply Z.mul_lt_mono_pos_r]; lia.
Qed.

(** What [binary_round] returns for a value below [2 ^ emax]. *)
Lemma binary_round_finite (s : bool) (m : positive) (e : Z) :
  Z.pos (digits2_pos m) + e < emax ->
  (binary_round prec emax s m e = S754_zero s /\
   Z.pos (digits2_pos m) + e < emin64 + prec) \/
  exists m' e',
    binary_round prec emax s m e = S754_finite s m' e' /\
    bounded prec emax m' e' = true /\
    fexp64 (Z.pos (digits2_pos m) + e) <= e'.
Proof.
  intros Hmax. unfold binary_round, shl_align.
  fold (fexp64 (Z.pos (digits2_pos m) + e)).
  change (Z.pos (digits2_pos m)) with (Zdigits2 (Z.pos m)) in *.
  destruct (fexp64 (Zdigits2 (Z.pos m) + e) - e) as [|p|p] eqn:En.
  - apply binary_round_aux_finite; [lia|lia|exact Hmax].
  - apply binary_round_aux_finite; [lia|lia|exact Hmax].
  - assert (Hd : Zdigits2 (Z.pos (Pos.iter xO m p))
                 + fexp64 (Zdigits2 (Z.pos m) + e) = Zdigits2 (Z.pos m) + e).
    { rewrite pos_iter_xO, Zdigits2_mul_pow by lia. lia. }
    destruct (binary_round_aux_finite s (Z.pos (Pos.iter xO m p))
                (fexp64 (Zdigits2 (Z.pos m) + e)) loc_Exact)
      as [[E U]|(m' & e' & E & B & L)].
    + lia.
    + rewrite Hd. lia.
    + rewrite Hd. exact Hmax.
    + left. split; [exact E|]. rewrite Hd in U. exact U.
    + right. exists m', e'. rewrite Hd in L. auto.
Qed.

Lemma Zdigits2_le (m k : Z) : 0 <= k -> Z.abs m < 2 ^ k -> Zdigits2 m <= k.
Proof.
  intros Hk Hm.
  destruct (Z.eq_dec m 0) as [->|Hnz]; [simpl; lia|].
  assert (Ha : Zdigits2 m = Zdigits2 (Z.abs m)) by (destruct m; reflexivity).
  rewrite Ha.
  pose proof (Zdigits2_bounds (Z.abs m) ltac:(lia)) as [Hlo _].
  destruct (Z_le_gt_dec (Zdigits2 (Z.abs m)) k) as [|Hgt]; [assumption|].
  exfalso.
  assert (2 ^ k <= 2 ^ (Zdigits2 (Z.abs m) - 1))
    by (apply Z.pow_le_mono_r; lia).
  lia.
Qed.

Lemma Zdigits2_ge (m k : Z) : 0 <= k -> 2 ^ k <= m -> k + 1 <= Zdigits2 m.
Proof.
  intros Hk Hm.
  assert (Hpos : 0 < 2 ^ k) by (apply Z.pow_pos_nonneg; lia).
  pose proof (Zdigits2_bounds m ltac:(lia)) as [_ Hhi].
  pose proof (Zdigits2_pos m ltac:(lia)).
  destruct (Z_le_gt_dec (k + 1) (Zdigits2 m)) as [|Hgt]; [assumption|].
  exfalso.
  assert (2 ^ Zdigits2 m <= 2 ^ k) by (apply Z.pow_le_mono_r; lia).
  lia.
Qed.

Lemma Zdigits2_mul (a b : Z) :
  0 < a -> 0 < b ->
  Zdigits2 a + Zdigits2 b - 1 <= Zdigits2 (a * b) <= Zdigits2 a + Zdigits2 b.
Proof.
  intros Ha Hb.
  pose proof (Zdigits2_bounds a Ha) as [Hal Hah].
  pose proof (Zdigits2_bounds b Hb) as [Hbl Hbh].
  pose proof (Zdigits2_pos a Ha). pose proof (Zdigits2_pos b Hb).
  assert (Hpa : 0 < 2 ^ (Zdigits2 a - 1)) by (apply Z.pow_pos_nonneg; lia).
  assert (Hpb : 0 < 2 ^ (Zdigits2 b - 1)) by (apply Z.pow_pos_nonneg; lia).
  split.
  - assert (Zdigits2 a - 1 + (Zdigits2 b - 1) + 1 <= Zdigits2 (a * b)); [|lia].
    apply Zdigits2_ge; [lia|].
    rewrite Z.pow_add_r by lia.
    apply Z.mul_le_mono_nonneg; lia.
  - apply Zdigits2_le; [lia|].
    rewrite Z.abs_eq by lia.
    rewrite Z.pow_add_r by lia.
    apply Z.mul_lt_mono_nonneg; lia.
Qed.

(** What the validity test of a finite float says about its fields. *)
Lemma bounded_facts (m : positive) (e : Z) :
  bounded prec emax m e = true ->
  Z.pos (digits2_pos m) <= 53 /\ -1074 <= e <= 971 /\
  (Z.pos (digits2_pos m) = 53 \/ e = -1074).
Proof.
  unfold bounded, canonical_mantissa. intros H.
  apply andb_prop in H as [Hc Hb].
  apply Z.eqb_eq in Hc. apply Z.leb_le in Hb.
  fold (fexp64 (Z.pos (digits2_pos m) + e)) in Hc.
  rewrite fexp_unfold, emin_value in Hc. unfold prec, emax in *.
  lia.
Qed.

Lemma binary_normalize_finite (n e : Z) (szero : bool) :
  Zdigits2 n + e < emax ->
  finite64 (binary_normalize prec emax n e szero) = true /\
  sign_bit (binary_normalize prec emax n e szero)
    = (if n =? 0 then szero else n <? 0) /\
  (n <> 0 -> emin64 + prec <= Zdigits2 n + e ->
   exists m' e',
     binary_normalize prec emax n e szero = S754_finite (n <? 0) m' e' /\
     fexp64 (Zdigits2 n + e) <= e').
Proof.
  intros Hmax.
  destruct n as [|p|p]; cbn [binary_normalize Zdigits2] in *.
  - repeat split. intros H. contradiction.
  - destruct (binary_round_finite false p e Hmax)
      as [[E U]|(m' & e' & E & B & L)]; rewrite E.
    + repeat split. intros _ H. lia.
    + repeat split; [exact B|]. intros _ _. exists m', e'. auto.
  - destruct (binary_round_finite true p e Hmax)
      as [[E U]|(m' & e' & E & B & L)]; rewrite E.
    + repeat split. intros _ H. lia.
    + repeat split; [exact B|]. intros _ _. exists m', e'. auto.
Qed.

Lemma float_of_Z_finite (n : Z) :
  Z.abs n < 2 ^ 1023 ->
  finite64 (float_of_Z n) = true /\
  sign_bit (float_of_Z n) = (n <? 0) /\
  py_float_of_int n = Ok (float_of_Z n) /\
  (n <> 0 ->
   exists m e, float_of_Z n = S754_finite (n <? 0) m e /\ -52 <= e).
Proof.
  intros Hn.
  assert (Hd : Zdigits2 n + 0 < emax).
  { pose proof (Zdigits2_le n 1023 ltac:(lia) Hn). unfold emax. lia. }
  destruct (binary_normalize_finite n 0 false Hd) as (F & S & N).
  fold (float_of_Z n) in F, S, N.
  split; [exact F|]. split.
  - rewrite S. destruct n; reflexivity.
  - split.
    + unfold py_float_of_int.
      destruct (float_of_Z n); try reflexivity. discriminate F.
    + intros Hnz.
      assert (Hpos : 0 < Zdigits2 n).
      { destruct n as [|p|p]; [contradiction| |];
          apply (Zdigits2_pos (Z.pos p)); lia. }
      destruct (N Hnz) as (m & e & E & L).
      * rewrite emin_value. unfold prec. lia.
      * exists m, e. split; [exact E|].
        rewrite fexp_unfold, emin_value in L. unfold prec in L. lia.
Qed.

(** The product of two finite floats whose magnitudes leave room below
    [2 ^ emax]. *)
Lemma SFmul_finite (sx sy : bool) (mx my : positive) (ex ey : Z) :
  bounded prec emax mx ex = true ->
  bounded prec emax my ey = true ->
  Z.pos (digits2_pos mx) + ex + (Z.pos (digits2_pos my) + ey) < emax ->
  finite64 (fmul (S754_finite sx mx ex) (S754_finite sy my ey)) = true /\
  sign_bit (fmul (S754_finite sx mx ex) (S754_finite sy my ey))
    = xorb sx sy /\
  (emin64 + prec
     <= Z.pos (digits2_pos mx) + ex + (Z.pos (digits2_pos my) + ey) - 1 ->
   exists m e,
     fmul (S754_finite sx mx ex) (S754_finite sy my ey)
       = S754_finite (xorb sx sy) m e).
Proof.
  intros Bx By Hmax.
  pose proof (bounded_facts mx ex Bx) as (Dx & Ex & Cx).
  pose proof (bounded_facts my ey By) as (Dy & Ey & Cy).
  pose proof (Zdigits2_mul (Z.pos mx) (Z.pos my) ltac:(lia) ltac:(lia))
    as [Hlo Hhi].
  change (Zdigits2 (Z.pos mx)) with (Z.pos (digits2_pos mx)) in *.
  change (Zdigits2 (Z.pos my)) with (Z.pos (digits2_pos my)) in *.
  assert (Hdx : 0 < Z.pos (digits2_pos mx)) by lia.
  assert (Hdy : 0 < Z.pos (digits2_pos my)) by lia.
  unfold fmul, SFmul.
  change (Z.pos (mx * my)) with (Z.pos mx * Z.pos my).
  destruct (binary_round_aux_finite (xorb sx sy) (Z.pos mx * Z.pos my)
              (ex + ey) loc_Exact) as [[E U]|(m & e & E & B & L)].
  - lia.
  - rewrite fexp_unfold, emin_value. unfold prec. lia.
  - unfold emax in *. lia.
  - rewrite E. repeat split. intros H. rewrite emin_value in *.
    unfold prec in *. lia.
  - rewrite E. repeat split; [exact B|]. intros _. exists m, e. reflexivity.
Qed.

(** A mantissa already at its canonical exponent is kept as it is. *)
Lemma binary_round_aux_exact (s : bool) (m : positive) (e : Z) :
  fexp64 (Z.pos (digits2_pos m) + e) = e -> e <= emax - prec ->
  binary_round_aux prec emax s (Z.pos m) e loc_Exact = S754_finite s m e.
Proof.
  intros Hc Hb.
  unfold binary_round_aux, shr_fexp.
  cbn [Zdigits2 shr_record_of_loc].
  fold (fexp64 (Z.pos (digits2_pos m) + e)). rewrite Hc, Z.sub_diag.
  cbn [shr shr_m loc_of_shr_record round_nearest_even Zdigits2
       shr_record_of_loc].
  fold (fexp64 (Z.pos (digits2_pos m) + e)). rewrite Hc, Z.sub_diag.
  cbn [shr shr_m].
  apply Z.leb_le in Hb. rewrite Hb. reflexivity.
Qed.

(** An integer of at most 53 bits converts without rounding. *)
Lemma float_of_Z_small (n : Z) :
  n <> 0 -> Z.abs n < 2 ^ 53 ->
  exists m e,
    float_of_Z n = S754_finite (n <? 0) m e /\
    bounded prec emax m e = true /\
    Z.pos (digits2_pos m) = 53 /\
    -52 <= e <= 0 /\
    Z.pos m = Z.abs n * 2 ^ (- e).
Proof.
  intros Hnz Hn.
  assert (Hgen : forall (s : bool) (p : positive),
    Z.pos p < 2 ^ 53 ->
    exists m e,
      binary_round prec emax s p 0 = S754_finite s m e /\
      bounded prec emax m e = true /\
      Z.pos (digits2_pos m) = 53 /\
      -52 <= e <= 0 /\
      Z.pos m = Z.pos p * 2 ^ (- e)).
  { intros s p Hp.
    pose proof (Zdigits2_le (Z.pos p) 53 ltac:(lia) ltac:(simpl; lia)) as Hd.
    pose proof (Zdigits2_pos (Z.pos p) ltac:(lia)) as Hd0.
    cbn [Zdigits2] in Hd, Hd0.
    unfold binary_round, shl_align.
    fold (fexp64 (Z.pos (digits2_pos p) + 0)).
    rewrite fexp_unfold, emin_value.
    rewrite Z.add_0_r, Z.sub_0_r.
    replace (Z.max (Z.pos (digits2_pos p) - prec) (-1074))
      with (Z.pos (digits2_pos p) - 53) by (unfold prec; lia).
    destruct (Z.pos (digits2_pos p) - 53) as [|k|k] eqn:Ek; [|lia|].
    - exists p, 0.
      assert (Hc : fexp64 (Z.pos (digits2_pos p) + 0) = 0)
        by (rewrite fexp_unfold, emin_value; unfold prec; lia).
      rewrite binary_round_aux_exact by (try exact Hc; unfold emax, prec; lia).
      repeat split; try lia.
      unfold bounded, canonical_mantissa.
      fold (fexp64 (Z.pos (digits2_pos p) + 0)). rewrite Hc. reflexivity.
    - exists (Pos.iter xO p k), (Z.neg k).
      assert (Hdk : Z.pos (digits2_pos (Pos.iter xO p k)) = 53).
      { change (Z.pos (digits2_pos (Pos.iter xO p k)))
          with (Zdigits2 (Z.pos (Pos.iter xO p k))).
        rewrite pos_iter_xO, Zdigits2_mul_pow by lia.
        cbn [Zdigits2]. lia. }
      assert (Hc : fexp64 (Z.pos (digits2_pos (Pos.iter xO p k)) + Z.neg k)
                   = Z.neg k).
      { rewrite Hdk, fexp_unfold, emin_value. unfold prec. lia. }
      rewrite binary_round_aux_exact by (try exact Hc; unfold emax, prec; lia).
      repeat split; try lia.
      + unfold bounded, canonical_mantissa.
        fold (fexp64 (Z.pos (digits2_pos (Pos.iter xO p k)) + Z.neg k)).
        rewrite Hc, Z.eqb_refl. reflexivity.
      + rewrite pos_iter_xO. reflexivity. }
  destruct n as [|p|p]; [contradiction| |].
  - apply (Hgen false p). exact Hn.
  - apply (Hgen true p). exact Hn.
Qed.

Lemma py_int_of_float_of_Z (n : Z) :
  Z.abs n < 2 ^ 53 -> py_int_of_float (float_of_Z n) = Ok n.
Proof.
  intros Hn.
  destruct (Z.eq_dec n 0) as [->|Hnz]; [reflexivity|].
  destruct (float_of_Z_small n Hnz Hn) as (m & e & E & _ & _ & He & Hm).
  rewrite E. unfold py_int_of_float. f_equal.
  assert (Hv : (if 0 <=? e then Z.pos m * 2 ^ e else Z.pos m / 2 ^ (- e))
               = Z.abs n).
  { destruct (Z.leb_spec 0 e) as [H0|H0].
    - assert (e = 0) by lia. subst e. rewrite Hm. simpl. lia.
    - rewrite Hm. apply Z.div_mul.
      assert (0 < 2 ^ (- e)) by (apply Z.pow_pos_nonneg; lia). lia. }
  rewrite Hv. unfold cond_Zopp.
  destruct (Z.ltb_spec n 0); lia.
Qed.

Lemma flt_zero (x : float) :
  finite64 x = true ->
  flt x (S754_zero false)
  = match x with S754_finite s _ _ => s | _ => false end.
Proof.
  destruct x as [s|s| |s m e]; try discriminate; intros _.
  - reflexivity.
  - destruct s; reflexivity.
Qed.

Lemma calibration_multiplier_fields :
  WEIGHT_CALIBRATION_MULTIPLIER = S754_finite false 7413285274622026 (-59) /\
  bounded prec emax 7413285274622026 (-59) = true /\
  Z.pos (digits2_pos 7413285274622026) = 53.
Proof. repeat split. Qed.

(** The calibrated weight of a raw difference of moderate size. *)
Lemma fmul_calibration (d : float) :
  finite64 d = true ->
  finite64 (fmul d WEIGHT_CALIBRATION_MULTIPLIER) = true /\
  sign_bit (fmul d WEIGHT_CALIBRATION_MULTIPLIER) = sign_bit d /\
  (forall s m e, d = S754_finite s m e ->
     -1000 <= Z.pos (digits2_pos m) + e ->
     exists m' e',
       fmul d WEIGHT_CALIBRATION_MULTIPLIER = S754_finite s m' e').
Proof.
  intros Hd.
  destruct calibration_multiplier_fields as (-> & Bc & Dc).
  destruct d as [s|s| |s m e]; try discriminate Hd.
  - repeat split. simpl. destruct s; reflexivity. intros; discriminate.
  - cbn [finite64] in Hd.
    pose proof (bounded_facts m e Hd) as (Dm & Em & _).
    destruct (SFmul_finite s false m 7413285274622026 e (-59) Hd Bc)
      as (F & S & N).
    + rewrite Dc. unfold emax. lia.
    + split; [exact F|]. split.
      * rewrite S. cbn [sign_bit]. destruct s; reflexivity.
      * intros s0 m0 e0 E Hmag. inversion E; subst s0 m0 e0.
        destruct N as (m' & e' & E').
        -- rewrite Dc, emin_value. unfold prec. lia.
        -- exists m', e'. rewrite E'. destruct s; reflexivity.
Qed.

(** * Properties of the weight decoder *)

Lemma byte_value_range (b : Byte.byte) : 0 <= byte_value b < 256.
Proof.
  unfold byte_value.
  pose proof (Byte.to_N_bounded b) as H.
  lia.
Qed.

Lemma getitem_in_range (buffer : bytes) (i : nat) :
  (i < List.length buffer)%nat ->
  exists b, nth_error buffer i = Some b /\ getitem buffer i = Ok (byte_value b).
Proof.
  intros Hi. unfold getitem.
  destruct (nth_error buffer i) as [b|] eqn:E.
  - exists b. split; reflexivity.
  - apply nth_error_None in E. lia.
Qed.

(** What decoding gives by the length of the frame. *)
Lemma get_raw_weight_frames (frame : bytes) :
  ((List.length frame < 8)%nat -> get_raw_weight frame = Raise ValueError) /\
  ((8 <= List.length frame)%nat ->
     exists high low,
       nth_error frame 6 = Some high /\
       nth_error frame 7 = Some low /\
       get_raw_weight frame = Ok (byte_value high * 256 + byte_value low) /\
       is_uint16 (byte_value high * 256 + byte_value low)).
Proof.
  split; intros Hlen; unfold get_raw_weight.
  - destruct (Z.ltb_spec (Z.of_nat (List.length frame)) 8) as [_|Hge];
      [reflexivity|lia].
  - destruct (Z.ltb_spec (Z.of_nat (List.length frame)) 8) as [Hlt|_]; [lia|].
    destruct (getitem_in_range frame 6) as (high & Hh & Gh); [lia|].
    destruct (getitem_in_range frame 7) as (low & Hl & Gl); [lia|].
    exists high, low.
    unfold BUFFER_WEIGHT_INDEX_HIGH, BUFFER_WEIGHT_INDEX_LOW.
    rewrite Gh, Gl. simpl.
    repeat split; try assumption;
      pose proof (byte_value_range high); pose proof (byte_value_range low);
      lia.
Qed.

(** C1: [get_raw_weight] raises [ValueError] (the specification's
    [InvalidFrame]) on every frame shorter than 8 bytes, so a short frame
    never yields a value (in particular no zero-padded one); on every frame of
    at least 8 bytes it returns [frame[6] * 256 + frame[7]], which fits an
    unsigned 16-bit integer; a frame with bytes 0x01 and 0x2C at offsets 6 and
    7 decodes to 300. *)
Theorem get_raw_weight_spec (frame : bytes) :
  ((List.length frame < 8)%nat ->
     get_raw_weight frame = Raise ValueError /\
     forall v, get_raw_weight frame <> Ok v) /\
  ((8 <= List.length frame)%nat ->
     exists high low,
       nth_error frame 6 = Some high /\
       nth_error frame 7 = Some low /\
       get_raw_weight frame = Ok (byte_value high * 256 + byte_value low) /\
       is_uint16 (byte_value high * 256 + byte_value low)) /\
  ((8 <= List.length frame)%nat ->
     nth_error frame 6 = Some Byte.x01 ->
     nth_error frame 7 = Some Byte.x2c ->
     get_raw_weight frame = Ok 300).
Proof.
  assert (Hlong : (8 <= List.length frame)%nat ->
     exists high low,
       nth_error frame 6 = Some high /\
       nth_error frame 7 = Some low /\
       get_raw_weight frame = Ok (byte_value high * 256 + byte_value low) /\
       is_uint16 (byte_value high * 256 + byte_value low)).
  { intros Hlen. unfold get_raw_weight.
    destruct (Z.ltb_spec (Z.of_nat (List.length frame)) 8) as [Hlt|_]; [lia|].
    destruct (getitem_in_range frame 6) as (high & Hh & Gh); [lia|].
    destruct (getitem_in_range frame 7) as (low & Hl & Gl); [lia|].
    exists high, low.
    unfold BUFFER_WEIGHT_INDEX_HIGH, BUFFER_WEIGHT_INDEX_LOW.
    rewrite Gh, Gl. simpl.
    repeat split; try assumption;
      pose proof (byte_value_range high); pose proof (byte_value_range low);
      lia. }
  split; [|split].
  - intros Hlen. unfold get_raw_weight.
    destruct (Z.ltb_spec (Z.of_nat (List.length frame)) 8) as [_|Hge]; [|lia].
    split; [reflexivity|discriminate].
  - exact Hlong.
  - intros Hlen H6 H7.
    destruct (Hlong Hlen) as (high & low & Hh & Hl & Hv & _).
    rewrite H6 in Hh. rewrite H7 in Hl.
    injection Hh as <-. injection Hl as <-.
    exact Hv.
Qed.

(** * Properties of the session's actions *)

Lemma float_of_Z_0 : float_of_Z 0 = S754_zero false.
Proof. reflexivity. Qed.

Lemma get_calibrated_weight_diag (r : Z) :
  get_calibrated_weight r r = Ok (S754_zero false).
Proof.
  unfold get_calibrated_weight. rewrite Z.sub_diag. reflexivity.
Qed.

Lemma poll_device_absolute_zero (s : session) (r : read_result) :
  absolute_zero (fst (poll_device s r)) = absolute_zero s.
Proof.
  unfold poll_device.
  destruct r as [[|b data]|e]; try reflexivity.
  destruct (get_raw_weight (b :: data)) as [raw|e]; [|reflexivity].
  destruct (status_line (set_current_raw s raw)); reflexivity.
Qed.

Lemma apply_action_absolute_zero (s s' : session) (a : option action) :
  apply_action s a = Some s' -> absolute_zero s' = absolute_zero s.
Proof.
  destruct a as [[]|]; simpl; intros H; inversion H; reflexivity.
Qed.

Lemma session_step_absolute_zero (s s' : session) (t : tick) out :
  session_step s t = continue s' out -> absolute_zero s' = absolute_zero s.
Proof.
  unfold session_step.
  destruct (interrupted t); [discriminate|].
  destruct (apply_action s (fetched t)) as [s1|] eqn:Ha; [|discriminate].
  pose proof (poll_device_absolute_zero s1 (device_read t)) as Hp.
  destruct (poll_device s1 (device_read t)) as [s2 o].
  intros H. inversion H; subst. simpl in Hp.
  rewrite Hp. eapply apply_action_absolute_zero; eassumption.
Qed.

Lemma run_loop_absolute_zero (ticks : list tick) : forall s,
  absolute_zero (snd (fst (run_loop s ticks))) = absolute_zero s.
Proof.
  induction ticks as [|t rest IH]; intros s; simpl; [reflexivity|].
  destruct (session_step s t) as [s' out|] eqn:Hs; [|reflexivity].
  specialize (IH s').
  destruct (run_loop s' rest) as [[out' final] has_left]. simpl in *.
  rewrite IH. eapply session_step_absolute_zero; eassumption.
Qed.

(** What the [try] block of a pass does to the session: it sets
    [current_raw], and nothing else. *)
Lemma poll_device_session (s : session) (r : read_result) :
  fst (poll_device s r) = set_current_raw s (latest_raw (current_raw s) r).
Proof.
  unfold poll_device, latest_raw, set_current_raw.
  destruct r as [[|b data]|e]; cbn [fst]; try (destruct s; reflexivity).
  destruct (get_raw_weight (b :: data)) as [raw|e];
    [|destruct s; reflexivity].
  destruct (status_line _); reflexivity.
Qed.

(** A pass of the loop that is not interrupted: the action is applied, then
    the device is polled from the session the action left. *)
Lemma session_step_pass
  (s : session) (a : option action) (r : read_result) (s1 : session) :
  apply_action s a = Some s1 ->
  session_step s {| interrupted := false; fetched := a; device_read := r |}
  = continue (set_current_raw s1 (latest_raw (current_raw s1) r))
      (snd (poll_device s1 r) ++ [sleep])%list.
Proof.
  intros Ha. unfold session_step. cbn [interrupted fetched device_read].
  rewrite Ha, <- poll_device_session.
  destruct (poll_device s1 r); reflexivity.
Qed.

(** C4: the effect of each action on the session, in [apply_action] and in
    the pass of the main loop that fetches it.  [tare] sets [current_offset]
    to the latest raw value, after which the calibrated weight of that raw
    value is zero; [reset] sets [current_offset] to [absolute_zero], whatever
    passes of the loop (tares included) came before; [toggle_units] negates
    [is_metric], so two of them restore it; the two exit actions leave the
    loop; no action touches another field: in a pass, besides the field of
    the action only [current_raw] changes, and only by the read. *)
Theorem apply_action_spec (s : session) :
  (exists s',
     apply_action s (Some tare) = Some s' /\
     s' = {| absolute_zero := absolute_zero s;
             current_offset := current_raw s;
             current_raw := current_raw s;
             is_metric := is_metric s |} /\
     get_calibrated_weight (current_raw s') (current_offset s')
       = Ok (S754_zero false) /\
     SFeqb (S754_zero false) (float_of_Z 0) = true) /\
  (apply_action s (Some reset)
     = Some {| absolute_zero := absolute_zero s;
               current_offset := absolute_zero s;
               current_raw := current_raw s;
               is_metric := is_metric s |} /\
   forall (passes : list tick) (later : session),
     later = snd (fst (run_loop s passes)) ->
     exists s', apply_action later (Some reset) = Some s' /\
                current_offset s' = absolute_zero s /\
                absolute_zero s' = absolute_zero s) /\
  (apply_action s (Some toggle_units)
     = Some {| absolute_zero := absolute_zero s;
               current_offset := current_offset s;
               current_raw := current_raw s;
               is_metric := negb (is_metric s) |} /\
   (s1 <- match apply_action s (Some toggle_units) with
          | Some s1 => Ok s1
          | None => Raise ValueError
          end ;;
    match apply_action s1 (Some toggle_units) with
    | Some s2 => Ok s2
    | None => Raise ValueError
    end) = Ok s) /\
  (apply_action s (Some exit_esc) = None /\
   apply_action s (Some exit_ctrl_c) = None /\
   forall (a : action) (r : read_result) (rest : list tick),
     a = exit_esc \/ a = exit_ctrl_c ->
     run_loop s ({| interrupted := false; fetched := Some a;
                    device_read := r |} :: rest) = ([], s, true)) /\
  apply_action s None = Some s /\
  (forall r : read_result,
     let pass a := {| interrupted := false; fetched := a;
                      device_read := r |} in
     (exists out after,
        session_step s (pass (Some tare)) = continue after out /\
        after = {| absolute_zero := absolute_zero s;
                   current_offset := current_raw s;
                   current_raw := latest_raw (current_raw s) r;
                   is_metric := is_metric s |} /\
        get_calibrated_weight (current_raw s) (current_offset after)
          = Ok (S754_zero false)) /\
     (exists out,
        session_step s (pass (Some reset))
        = continue {| absolute_zero := absolute_zero s;
                      current_offset := absolute_zero s;
                      current_raw := latest_raw (current_raw s) r;
                      is_metric := is_metric s |} out) /\
     (exists out,
        session_step s (pass (Some toggle_units))
        = continue {| absolute_zero := absolute_zero s;
                      current_offset := current_offset s;
                      current_raw := latest_raw (current_raw s) r;
                      is_metric := negb (is_metric s) |} out) /\
     (exists out,
        session_step s (pass None)
        = continue {| absolute_zero := absolute_zero s;
                      current_offset := current_offset s;
                      current_raw := latest_raw (current_raw s) r;
                      is_metric := is_metric s |} out) /\
     session_step s (pass (Some exit_esc)) = leave /\
     session_step s (pass (Some exit_ctrl_c)) = leave) /\
  (forall (passes : list tick) (r : read_result),
     exists out,
       session_step (snd (fst (run_loop s passes)))
         {| interrupted := false; fetched := Some reset; device_read := r |}
       = continue
           {| absolute_zero := absolute_zero s;
              current_offset := absolute_zero s;
              current_raw :=
                latest_raw (current_raw (snd (fst (run_loop s passes)))) r;
              is_metric := is_metric (snd (fst (run_loop s passes))) |}
           out) /\
  (forall r1 r2 : read_result,
     exists out,
       run_loop s [ {| interrupted := false; fetched := Some toggle_units;
                       device_read := r1 |};
                    {| interrupted := false; fetched := Some toggle_units;
                       device_read := r2 |} ]
       = (out,
          {| absolute_zero := absolute_zero s;
             current_offset := current_offset s;
             current_raw := latest_raw (latest_raw (current_raw s) r1) r2;
             is_metric := is_metric s |},
          false)).
Proof.
  split; [|split; [|split; [|split; [|split; [|split; [|split]]]]]].
  - eexists. split; [reflexivity|]. split; [reflexivity|].
    split; [|reflexivity].
    simpl. apply get_calibrated_weight_diag.
  - split; [reflexivity|].
    intros passes later ->.
    eexists. split; [reflexivity|]. simpl.
    split; apply run_loop_absolute_zero.
  - split; [reflexivity|].
    destruct s as [z o r m]. simpl. rewrite negb_involutive. reflexivity.
  - split; [reflexivity|]. split; [reflexivity|].
    intros a r rest [-> | ->]; reflexivity.
  - reflexivity.
  - intros r pass. unfold pass.
    split; [|split; [|split; [|split; [|split]]]];
      try reflexivity; eexists.
    + eexists.
      rewrite (session_step_pass s (Some tare) r _ eq_refl).
      split; [reflexivity|]. split; [reflexivity|].
      apply get_calibrated_weight_diag.
    + rewrite (session_step_pass s (Some reset) r _ eq_refl). reflexivity.
    + rewrite (session_step_pass s (Some toggle_units) r _ eq_refl).
      reflexivity.
    + rewrite (session_step_pass s None r _ eq_refl).
      destruct s; reflexivity.
  - intros passes r. eexists.
    rewrite (session_step_pass _ (Some reset) r _ eq_refl).
    unfold set_current_raw.
    cbn [absolute_zero current_offset current_raw is_metric].
    rewrite run_loop_absolute_zero. reflexivity.
  - intros r1 r2. eexists. cbn [run_loop].
    rewrite (session_step_pass s (Some toggle_units) r1 _ eq_refl).
    rewrite (session_step_pass _ (Some toggle_units) r2 _ eq_refl).
    unfold set_current_raw.
    cbn [absolute_zero current_offset current_raw is_metric].
    rewrite negb_involutive, app_nil_r. reflexivity.
Qed.

(** * Properties of the keyboard listener *)

Lemma exit_key_not_action_key (key : ascii) :
  exit_key key = true -> action_key key = false.
Proof.
  unfold exit_key. intros H. apply orb_prop in H.
  destruct H as [H | H]; apply Ascii.eqb_eq in H; subst; reflexivity.
Qed.

Lemma unmapped_key (key : ascii) :
  key <> "T"%char -> key <> "t"%char -> key <> "R"%char -> key <> "r"%char ->
  key <> "M"%char -> key <> "m"%char ->
  action_key key = false.
Proof.
  intros HT Ht HR Hr HM Hm.
  destruct (action_key key) eqn:E; [exfalso|reflexivity].
  destruct key as [[] [] [] [] [] [] [] []];
    vm_compute in E; try discriminate E;
    first [ now apply HT | now apply Ht | now apply HR
          | now apply Hr | now apply HM | now apply Hm ].
Qed.

Lemma on_key_unmapped (st : listener) (key : ascii) (now : float) :
  action_key key = false -> exit_key key = false ->
  on_key st key now = st.
Proof.
  unfold action_key, exit_key, on_key. intros Ha He.
  apply orb_false_elim in Ha as [Ha HM].
  apply orb_false_elim in Ha as [HT HR].
  apply orb_false_elim in He as [HE HC].
  rewrite HT, HR, HM, HE, HC.
  destruct (flt _ _); reflexivity.
Qed.

Lemma listener_stopped (events : list listener_event) : forall st,
  listening st = false ->
  listening (keyboard_listener st events) = false /\
  last_action_time (keyboard_listener st events) = last_action_time st /\
  (pending (keyboard_listener st events) = pending st \/
   pending (keyboard_listener st events) = None).
Proof.
  induction events as [|ev rest IH]; intros st Hst; simpl.
  - auto.
  - assert (H : listening (listener_step st ev) = false /\
                last_action_time (listener_step st ev) = last_action_time st /\
                (pending (listener_step st ev) = pending st \/
                 pending (listener_step st ev) = None)).
    { destruct ev; simpl; try rewrite Hst; auto. }
    destruct H as (Hl & Ht & Hp).
    destruct (IH _ Hl) as (Hl' & Ht' & Hp').
    split; [exact Hl'|]. split; [congruence|].
    destruct Hp' as [Hp' | Hp']; [|auto].
    destruct Hp as [Hp | Hp]; [left|right]; congruence.
Qed.

(** C10: a key other than T, t, R, r, M, m, ESC and Ctrl-C changes nothing
    in the listener: the shared slot and the debounce time stamp keep their
    values, so the events that follow are treated as if the key had not been
    pressed. *)
Theorem unmapped_key_ignored (st : listener) (key : ascii) (now : float) :
  key <> "T"%char -> key <> "t"%char -> key <> "R"%char -> key <> "r"%char ->
  key <> "M"%char -> key <> "m"%char -> key <> ESC -> key <> CTRL_C ->
  let st' := listener_step st (key_pressed key now) in
  pending st' = pending st /\
  last_action_time st' = last_action_time st /\
  st' = st /\
  accepted st (key_pressed key now) = false /\
  forall later : list listener_event,
    keyboard_listener st (key_pressed key now :: later)
      = keyboard_listener st later /\
    accepted_times st (key_pressed key now :: later)
      = accepted_times st later.
Proof.
  intros HT Ht HR Hr HM Hm HE HC st'.
  assert (Ha : action_key key = false) by (apply unmapped_key; assumption).
  assert (Hx : exit_key key = false).
  { unfold exit_key. apply orb_false_intro; apply Ascii.eqb_neq; assumption. }
  assert (Hst : listener_step st (key_pressed key now) = st).
  { unfold listener_step.
    destruct (listening st); [|reflexivity].
    apply on_key_unmapped; assumption. }
  assert (Hacc : accepted st (key_pressed key now) = false).
  { simpl. rewrite Ha. rewrite andb_false_r. reflexivity. }
  subst st'. rewrite Hst.
  repeat split; try reflexivity; try assumption.
  - cbn [keyboard_listener fold_left]. rewrite Hst. reflexivity.
  - cbn [accepted_times]. rewrite Hacc, Hst. reflexivity.
Qed.

Lemma unmapped_key_ignored_witness :
  let st := {| pending := Some tare;
               last_action_time := float_of_Z 1000;
               listening := true |} in
  listener_step st (key_pressed "x" (float_of_Z 1001)) = st.
Proof.
  intros st.
  apply (unmapped_key_ignored st "x" (float_of_Z 1001));
    unfold ESC, CTRL_C; discriminate.
Defined.

(** An ESC pressed a tenth of a second after an accepted T is dropped by the
    debounce test: the slot still holds [tare] and the listener runs on. *)
Lemma esc_inside_debounce_window_is_dropped :
  within_debounce (float_of_Z 1000) (decimal 10001 1) = true /\
  keyboard_listener listener_start
    [key_pressed "t" (float_of_Z 1000); key_pressed ESC (decimal 10001 1)]
  = {| pending := Some tare;
       last_action_time := float_of_Z 1000;
       listening := true |}.
Proof. split; vm_compute; reflexivity. Qed.

(** C5 (amended): the debounce test comes before the key is looked at, so it
    holds for ESC and Ctrl-C as for any key.  Read by a running listener
    outside the debounce window, either key publishes its exit action, leaves
    the time stamp alone and ends the listener, which reads no further key;
    read inside the window, it is dropped. *)
Theorem exit_key_spec (st : listener) (key : ascii) (now : float) :
  listening st = true ->
  key = ESC \/ key = CTRL_C ->
  (within_debounce (last_action_time st) now = false ->
     listener_step st (key_pressed key now)
       = {| pending := Some (if Ascii.eqb key ESC then exit_esc
                             else exit_ctrl_c);
            last_action_time := last_action_time st;
            listening := false |} /\
     forall later : list listener_event,
       listening
         (keyboard_listener (listener_step st (key_pressed key now)) later)
         = false /\
       accepted_times (listener_step st (key_pressed key now)) later = []) /\
  (within_debounce (last_action_time st) now = true ->
     listener_step st (key_pressed key now) = st).
Proof.
  intros Hl Hkey.
  assert (Hstep : within_debounce (last_action_time st) now = false ->
     listener_step st (key_pressed key now)
       = {| pending := Some (if Ascii.eqb key ESC then exit_esc
                             else exit_ctrl_c);
            last_action_time := last_action_time st;
            listening := false |}).
  { intros Hd. unfold listener_step. rewrite Hl. unfold on_key.
    unfold within_debounce in Hd. rewrite Hd.
    destruct Hkey as [-> | ->]; reflexivity. }
  split.
  - intros Hd. split; [exact (Hstep Hd)|].
    intros later. rewrite (Hstep Hd).
    split.
    + apply listener_stopped. reflexivity.
    + generalize (Some (if Ascii.eqb key ESC then exit_esc else exit_ctrl_c)).
      generalize (last_action_time st).
      induction later as [|ev rest IH]; intros t p; [reflexivity|].
      cbn [accepted_times].
      assert (Hacc : accepted {| pending := p; last_action_time := t;
                                 listening := false |} ev = false)
        by (destruct ev; reflexivity).
      rewrite Hacc.
      destruct ev; simpl; apply IH.
  - intros Hd. unfold listener_step. rewrite Hl. unfold on_key.
    unfold within_debounce in Hd. rewrite Hd. reflexivity.
Qed.

Lemma exit_key_spec_witness :
  listener_step
    {| pending := Some tare; last_action_time := float_of_Z 1000;
       listening := true |}
    (key_pressed ESC (float_of_Z 1001))
  = {| pending := Some exit_esc; last_action_time := float_of_Z 1000;
       listening := false |}.
Proof.
  apply (exit_key_spec
           {| pending := Some tare; last_action_time := float_of_Z 1000;
              listening := true |} ESC (float_of_Z 1001)).
  - reflexivity.
  - left. reflexivity.
  - vm_compute. reflexivity.
Defined.

(** * Properties of the session *)

Lemma poll_device_failed (s : session) (r : read_result) :
  failed_read r = true ->
  poll_device s r = (s, failed_read_log r).
Proof.
  destruct r as [[|b data]|e]; simpl; intros H; try reflexivity.
  pose proof (get_raw_weight_frames (b :: data)) as (Hshort & _).
  apply Nat.ltb_lt in H.
  unfold poll_device. rewrite (Hshort H). reflexivity.
Qed.

(** C9: a device read that raises, returns nothing or returns fewer than 8
    bytes changes no variable of the session, [current_raw] in particular,
    and does not end the loop: the pass leaves at most a debug record (none
    for an empty read, which is no error), sleeps, and the loop goes on with
    the next pass. *)
Theorem failed_read_is_skipped (s : session) (t : tick) (rest : list tick) :
  failed_read (device_read t) = true ->
  poll_device s (device_read t) = (s, failed_read_log (device_read t)) /\
  (forall e, In e (failed_read_log (device_read t)) ->
             exists x, e = log_debug (read_error x)) /\
  forall s1,
    interrupted t = false ->
    apply_action s (fetched t) = Some s1 ->
    session_step s t
      = continue s1 (failed_read_log (device_read t) ++ [sleep])%list /\
    current_raw s1 = current_raw s /\
    run_loop s (t :: rest)
      = let '(out, final, has_left) := run_loop s1 rest in
        (((failed_read_log (device_read t) ++ [sleep]) ++ out)%list,
         final, has_left).
Proof.
  intros Hf.
  split; [apply poll_device_failed; exact Hf|].
  split.
  - intros e He. destruct (device_read t) as [[|b data]|x]; simpl in He.
    + contradiction.
    + destruct He as [<-|[]]. eexists. reflexivity.
    + destruct He as [<-|[]]. eexists. reflexivity.
  - intros s1 Hi Ha.
    assert (Hstep : session_step s t
      = continue s1 (failed_read_log (device_read t) ++ [sleep])%list).
    { unfold session_step. rewrite Hi, Ha.
      rewrite (poll_device_failed s1 _ Hf). reflexivity. }
    split; [exact Hstep|]. split.
    + destruct (fetched t) as [[]|]; simpl in Ha; inversion Ha; reflexivity.
    + cbn [run_loop]. rewrite Hstep. reflexivity.
Qed.

Lemma failed_read_is_skipped_witness :
  let s := {| absolute_zero := 100; current_offset := 100;
              current_raw := 400; is_metric := false |} in
  poll_device s (read_data [Byte.x01; Byte.x02; Byte.x03])
  = (s, [log_debug (read_error ValueError)]).
Proof.
  intros s.
  apply (failed_read_is_skipped s
           {| interrupted := false; fetched := None;
              device_read := read_data [Byte.x01; Byte.x02; Byte.x03] |} []).
  reflexivity.
Defined.

(** The three ways [connect_scale] ends. *)
Lemma connect_scale_cases (h : hid_world) :
  (enumerated h = [] \/ open_raises h <> None ->
     exists record,
       connect_scale h = (None, [log_debug record]) /\
       (record = no_devices_found \/ exists e, record = open_failed e)) /\
  (enumerated h <> [] -> open_raises h = None ->
     connect_scale h = (Some tt, [log_info (opened (manufacturer_string h))])) /\
  ((exists record,
      connect_scale h = (None, [log_debug record]) /\
      (record = no_devices_found \/ exists e, record = open_failed e)) \/
   connect_scale h = (Some tt, [log_info (opened (manufacturer_string h))])).
Proof.
  unfold connect_scale, open_raises.
  destruct (enumerate_raises h) as [e0|].
  { split; [|split].
    - intros _. eexists. split; [reflexivity|]. right. eexists. reflexivity.
    - intros _ H. discriminate H.
    - left. eexists. split; [reflexivity|]. right. eexists. reflexivity. }
  destruct (enumerated h) as [|path paths].
  { split; [|split].
    - intros _. eexists. split; [reflexivity|]. left. reflexivity.
    - intros H. contradiction.
    - left. eexists. split; [reflexivity|]. left. reflexivity. }
  destruct (open_path_raises h) as [e1|].
  { split; [|split].
    - intros _. eexists. split; [reflexivity|]. right. eexists. reflexivity.
    - intros _ H. discriminate H.
    - left. eexists. split; [reflexivity|]. right. eexists. reflexivity. }
  destruct (get_manufacturer_string_raises h) as [e2|].
  { split; [|split].
    - intros _. eexists. split; [reflexivity|]. right. eexists. reflexivity.
    - intros _ H. discriminate H.
    - left. eexists. split; [reflexivity|]. right. eexists. reflexivity. }
  split; [|split].
  - intros [H | H]; [discriminate H|contradiction].
  - reflexivity.
  - right. reflexivity.
Qed.

(** C8: when no device is found, or the first one cannot be opened, [main]
    prints the troubleshooting text and returns; when the device is open but
    the first read brings no data, [main] logs the error, closes the device
    and returns.  Neither run starts the listener or produces an effect of
    the polling loop, whatever the passes that would have followed. *)
Theorem main_startup_failure (w : world) :
  (enumerated (hid w) = [] \/ open_raises (hid w) <> None ->
     exists record,
       main w = ([log_debug record; print error_message], returned)) /\
  (enumerated (hid w) <> [] -> open_raises (hid w) = None ->
   initial_read w = read_data [] ->
     main w = ([log_info (opened (manufacturer_string (hid w)));
                log_error initial_read_failed;
                close_stream; log_info stream_closed; print EmptyString],
               returned)) /\
  ((enumerated (hid w) = [] \/ open_raises (hid w) <> None) \/
   initial_read w = read_data [] ->
     existsb loop_effect (fst (main w)) = false /\
     snd (main w) = returned /\
     forall other : list tick,
       main {| hid := hid w; initial_read := initial_read w; ticks := other |}
         = main w).
Proof.
  destruct (connect_scale_cases (hid w)) as (Hnone & Hsome & Hfst).
  split; [|split].
  - intros H. destruct (Hnone H) as (record & Hc & _).
    exists record. unfold main. rewrite Hc. reflexivity.
  - intros He Ho Hr. unfold main. rewrite (Hsome He Ho), Hr. reflexivity.
  - intros [H | Hr].
    + destruct (Hnone H) as (record & Hc & Hrec).
      unfold main. cbn [hid initial_read ticks]. rewrite Hc.
      destruct Hrec as [-> | (e & ->)]; repeat split; reflexivity.
    + unfold main. cbn [hid initial_read ticks].
      destruct Hfst as [(record & Hc & Hrec) | Hc]; rewrite Hc.
      * destruct Hrec as [-> | (e & ->)]; repeat split; reflexivity.
      * rewrite Hr. repeat split; reflexivity.
Qed.

Lemma main_startup_failure_witness :
  exists record,
    main {| hid := {| enumerate_raises := None; enumerated := [];
                      open_path_raises := None;
                      get_manufacturer_string_raises := None;
                      manufacturer_string := EmptyString |};
            initial_read := read_data [];
            ticks := [] |}
    = ([log_debug record; print error_message], returned).
Proof.
  apply (main_startup_failure
           {| hid := {| enumerate_raises := None; enumerated := [];
                        open_path_raises := None;
                        get_manufacturer_string_raises := None;
                        manufacturer_string := EmptyString |};
              initial_read := read_data [];
              ticks := [] |}).
  left. reflexivity.
Defined.

(** A pass that fetches [toggle_units] while the device has no report
    waiting writes nothing: the status line is not rendered again. *)
Lemma toggle_without_frame_writes_nothing :
  let s := {| absolute_zero := 100; current_offset := 100;
              current_raw := 400; is_metric := false |} in
  session_step s {| interrupted := false; fetched := Some toggle_units;
                    device_read := read_data [] |}
  = continue {| absolute_zero := 100; current_offset := 100;
                current_raw := 400; is_metric := true |} [sleep].
Proof. reflexivity. Qed.

Lemma get_raw_weight_spec_witness :
  get_raw_weight
    [Byte.x00; Byte.x00; Byte.x00; Byte.x00; Byte.x00; Byte.x00;
     Byte.x01; Byte.x2c] = Ok 300.
Proof.
  apply (get_raw_weight_spec
           [Byte.x00; Byte.x00; Byte.x00; Byte.x00; Byte.x00; Byte.x00;
            Byte.x01; Byte.x2c]).
  - simpl. lia.
  - reflexivity.
  - reflexivity.
Defined.

Lemma py_float_of_int_small (n : Z) :
  Z.abs n < 2 ^ 53 ->
  py_float_of_int n = Ok (float_of_Z n) /\ finite64 (float_of_Z n) = true.
Proof.
  intros Hn.
  destruct (Z.eq_dec n 0) as [->|Hnz]; [split; reflexivity|].
  destruct (float_of_Z_small n Hnz Hn) as (m & e & E & B & _).
  unfold py_float_of_int. rewrite E. split; [reflexivity|exact B].
Qed.

(** C2: for raw values and offsets (unsigned 16-bit integers) the calibrated
    weight is the difference, converted to a float without rounding,
    times the constant 0.01286 (the float nearest to 1286 / 100000).
    Nothing is clamped: the result is a finite float that is negative exactly
    when the raw value is below the offset and positive exactly when it is
    above.  Equal arguments give zero, for every integer. *)
Theorem get_calibrated_weight_spec (r o : Z) :
  is_uint16 r -> is_uint16 o ->
  (exists d,
     py_float_of_int (r - o) = Ok d /\
     py_int_of_float d = Ok (r - o) /\
     get_calibrated_weight r o = Ok (fmul d WEIGHT_CALIBRATION_MULTIPLIER) /\
     finite64 (fmul d WEIGHT_CALIBRATION_MULTIPLIER) = true /\
     flt (fmul d WEIGHT_CALIBRATION_MULTIPLIER) (S754_zero false) = (r <? o) /\
     flt (S754_zero false) (fmul d WEIGHT_CALIBRATION_MULTIPLIER) = (o <? r)) /\
  (WEIGHT_CALIBRATION_MULTIPLIER = decimal 1286 5 /\
   WEIGHT_CALIBRATION_MULTIPLIER = S754_finite false 7413285274622026 (-59) /\
   2 * Z.abs (7413285274622026 * 10 ^ 5 - 1286 * 2 ^ 59) <= 10 ^ 5) /\
  (forall x : Z, get_calibrated_weight x x = Ok (S754_zero false)) /\
  SFeqb (S754_zero false) (float_of_Z 0) = true.
Proof.
  intros Hr Ho. unfold is_uint16 in *.
  split; [|split; [|split]].
  - assert (Hn : Z.abs (r - o) < 2 ^ 53).
    { change (2 ^ 53) with 9007199254740992. lia. }
    destruct (py_float_of_int_small (r - o) Hn) as [Hc Hf].
    exists (float_of_Z (r - o)).
    split; [exact Hc|].
    split; [apply py_int_of_float_of_Z; exact Hn|].
    split; [unfold get_calibrated_weight; rewrite Hc; reflexivity|].
    destruct (fmul_calibration (float_of_Z (r - o)) Hf) as (F & S & N).
    split; [exact F|].
    destruct (Z.eq_dec (r - o) 0) as [Hz|Hnz].
    + rewrite Hz. replace o with r by lia.
      rewrite !Z.ltb_irrefl. split; reflexivity.
    + destruct (float_of_Z_small (r - o) Hnz Hn)
        as (m & e & E & B & D & He & _).
      destruct (N _ _ _ E) as (m' & e' & E'); [lia|].
      rewrite E'. unfold flt, SFltb. cbn [SFcompare].
      destruct (Z.ltb_spec (r - o) 0) as [Hlt|Hge].
      * destruct (Z.ltb_spec r o); [|lia].
        destruct (Z.ltb_spec o r); [lia|]. split; reflexivity.
      * destruct (Z.ltb_spec r o); [lia|].
        destruct (Z.ltb_spec o r); [|lia]. split; reflexivity.
  - repeat split. vm_compute. discriminate.
  - exact get_calibrated_weight_diag.
  - reflexivity.
Qed.

Lemma get_calibrated_weight_spec_witness :
  exists d,
    py_float_of_int (300 - 100) = Ok d /\
    py_int_of_float d = Ok (300 - 100) /\
    get_calibrated_weight 300 100
      = Ok (fmul d WEIGHT_CALIBRATION_MULTIPLIER) /\
    finite64 (fmul d WEIGHT_CALIBRATION_MULTIPLIER) = true /\
    flt (fmul d WEIGHT_CALIBRATION_MULTIPLIER) (S754_zero false)
      = (300 <? 100) /\
    flt (S754_zero false) (fmul d WEIGHT_CALIBRATION_MULTIPLIER)
      = (100 <? 300).
Proof.
  apply (get_calibrated_weight_spec 300 100); unfold is_uint16; lia.
Defined.

(** * Signs and texts *)

Lemma binary_round_aux_sign (s : bool) (m e : Z) (l : location) :
  binary_round_aux prec emax s m e l = S754_nan \/
  sign_bit (binary_round_aux prec emax s m e l) = s.
Proof.
  unfold binary_round_aux.
  destruct (shr_fexp prec emax m e l) as [mrs' e'].
  destruct (shr_fexp prec emax _ e' loc_Exact) as [mrs'' e''].
  destruct (shr_m mrs''); [right; reflexivity| |left; reflexivity].
  destruct (e'' <=? emax - prec); right; reflexivity.
Qed.

Lemma binary_round_aux_abs (s : bool) (m e : Z) (l : location) :
  SFabs (binary_round_aux prec emax s m e l)
  = binary_round_aux prec emax false m e l.
Proof.
  unfold binary_round_aux.
  destruct (shr_fexp prec emax m e l) as [mrs' e'].
  destruct (shr_fexp prec emax _ e' loc_Exact) as [mrs'' e''].
  destruct (shr_m mrs''); try reflexivity.
  destruct (e'' <=? emax - prec); reflexivity.
Qed.

Lemma binary_normalize_unsigned (n e : Z) :
  0 <= n -> sign_bit (binary_normalize prec emax n e false) = false.
Proof.
  intros Hn. destruct n as [|p|p]; [reflexivity| |lia].
  cbn [binary_normalize]. unfold binary_round.
  destruct (shl_align p e _) as [mz ez].
  destruct (binary_round_aux_sign false (Z.pos mz) ez loc_Exact) as [E|E];
    rewrite E; reflexivity.
Qed.

(** The absolute value of a product by a positive float is the product of
    the absolute value. *)
Lemma SFabs_fmul_positive (x : float) (m : positive) (e : Z) :
  SFabs (fmul x (S754_finite false m e))
  = fmul (SFabs x) (S754_finite false m e).
Proof.
  destruct x as [s|s| |s mx ex]; try reflexivity.
  unfold fmul. cbn [SFmul SFabs].
  rewrite binary_round_aux_abs. reflexivity.
Qed.

Lemma fmul_unsigned (x y : float) :
  sign_bit x = false -> sign_bit y = false -> sign_bit (fmul x y) = false.
Proof.
  destruct x as [sx|sx| |sx mx ex], y as [sy|sy| |sy my ey];
    cbn [sign_bit]; intros Hx Hy; subst; try reflexivity.
  unfold fmul. cbn [SFmul xorb].
  destruct (binary_round_aux_sign false (Z.pos (mx * my)) (ex + ey) loc_Exact)
    as [E|E]; rewrite E; reflexivity.
Qed.

Lemma fdiv_unsigned (x y : float) :
  sign_bit x = false -> sign_bit y = false -> sign_bit (fdiv x y) = false.
Proof.
  destruct x as [sx|sx| |sx mx ex], y as [sy|sy| |sy my ey];
    cbn [sign_bit]; intros Hx Hy; subst; try reflexivity.
  unfold fdiv. cbn [SFdiv xorb].
  destruct (SFdiv_core_binary prec emax (Z.pos mx) ex (Z.pos my) ey)
    as [[mz ez] lz].
  destruct (binary_round_aux_sign false mz ez lz) as [E|E];
    rewrite E; reflexivity.
Qed.

Lemma SFabs_unsigned (x : float) : sign_bit (SFabs x) = false.
Proof. destruct x; reflexivity. Qed.

Lemma SFabs_finite64 (x : float) : finite64 (SFabs x) = finite64 x.
Proof. destruct x; reflexivity. Qed.

Lemma occurs_app (c : ascii) (a b : string) :
  occurs c (a ++ b) = occurs c a || occurs c b.
Proof.
  induction a as [|x a IH]; simpl; [reflexivity|].
  rewrite IH, orb_assoc. reflexivity.
Qed.

Lemma digit_char_not_minus (n : Z) :
  Ascii.eqb (digit_char (n mod 10)) "-" = false.
Proof.
  pose proof (Z.mod_pos_bound n 10 ltac:(lia)) as H.
  assert (Hk : n mod 10 = 0 \/ n mod 10 = 1 \/ n mod 10 = 2 \/ n mod 10 = 3 \/
               n mod 10 = 4 \/ n mod 10 = 5 \/ n mod 10 = 6 \/ n mod 10 = 7 \/
               n mod 10 = 8 \/ n mod 10 = 9) by lia.
  repeat (destruct Hk as [-> | Hk]; [reflexivity|]).
  rewrite Hk. reflexivity.
Qed.

Lemma str_digits_minus (fuel : nat) : forall n acc,
  occurs "-" (str_digits fuel n acc) = occurs "-" acc.
Proof.
  induction fuel as [|k IH]; intros n acc; cbn [str_digits];
    [reflexivity|].
  destruct (n / 10 =? 0).
  - cbn [occurs]. rewrite digit_char_not_minus. reflexivity.
  - rewrite IH. cbn [occurs]. rewrite digit_char_not_minus. reflexivity.
Qed.

Lemma str_nat_minus (n : Z) : occurs "-" (str_nat n) = false.
Proof. unfold str_nat. rewrite str_digits_minus. reflexivity. Qed.

Lemma fixed_width_minus (width : nat) : forall n acc,
  occurs "-" (fixed_width width n acc) = occurs "-" acc.
Proof.
  induction width as [|k IH]; intros n acc; cbn [fixed_width];
    [reflexivity|].
  rewrite IH. cbn [occurs]. rewrite digit_char_not_minus. reflexivity.
Qed.

Lemma fixed_point_minus (places : nat) (q : Z) :
  occurs "-" (fixed_point places q) = false.
Proof.
  unfold fixed_point. rewrite occurs_app, str_nat_minus.
  destruct places; [reflexivity|].
  cbn [occurs]. rewrite fixed_width_minus. reflexivity.
Qed.

Lemma py_format_f_minus (places : nat) (x : float) :
  sign_bit x = false -> occurs "-" (py_format_f places x) = false.
Proof.
  destruct x as [s|s| |s m e]; cbn [sign_bit]; intros Hs; subst;
    cbn [py_format_f sign_string]; try reflexivity;
    rewrite occurs_app, fixed_point_minus; reflexivity.
Qed.

Lemma py_str_int_minus (n : Z) :
  0 <= n -> occurs "-" (py_str_int n) = false.
Proof.
  intros Hn. unfold py_str_int.
  destruct (Z.ltb_spec n 0); [lia|]. apply str_nat_minus.
Qed.

Lemma leading_minus_occurs (s : string) :
  occurs "-" s = false -> leading_minus s = false.
Proof.
  destruct s as [|c s]; simpl; [reflexivity|].
  intros H. apply orb_false_elim in H as [H _]. exact H.
Qed.

(** * Properties of the display *)

Lemma py_int_of_float_unsigned (x : float) :
  finite64 x = true -> sign_bit x = false ->
  exists z, py_int_of_float x = Ok z /\ 0 <= z.
Proof.
  destruct x as [s|s| |s m e]; try discriminate; cbn [sign_bit finite64].
  - intros _ _. exists 0. split; [reflexivity|lia].
  - intros _ ->. eexists. split; [reflexivity|].
    cbn [cond_Zopp].
    destruct (Z.leb_spec 0 e).
    + apply Z.mul_nonneg_nonneg; [lia|]. apply Z.pow_nonneg. lia.
    + apply Z.div_pos; [lia|]. apply Z.pow_pos_nonneg; lia.
Qed.

Lemma sixteen_fields :
  py_float_of_int OUNCES_PER_POUND
  = Ok (S754_finite false 4503599627370496 (-48)) /\
  float_of_Z OUNCES_PER_POUND = S754_finite false 4503599627370496 (-48).
Proof. split; reflexivity. Qed.

Lemma thousand_fields :
  py_float_of_int GRAMS_PER_KILOGRAM
  = Ok (S754_finite false 8796093022208000 (-43)).
Proof. reflexivity. Qed.

(** Whole pounds of a finite, unsigned weight: the floor division does not
    overflow and its integer is not negative. *)
Lemma pounds_total (a : float) :
  finite64 a = true -> sign_bit a = false ->
  exists q lbs,
    py_float_floordiv_int a OUNCES_PER_POUND = Ok q /\
    py_int_of_float q = Ok lbs /\ 0 <= lbs.
Proof.
  intros Hf Hs.
  destruct sixteen_fields as [E16 _].
  unfold py_float_floordiv_int. rewrite E16. cbn [bind].
  eexists. 
  assert (Hq : finite64 (float_floordiv a
                 (S754_finite false 4503599627370496 (-48))) = true /\
               sign_bit (float_floordiv a
                 (S754_finite false 4503599627370496 (-48))) = false).
  { destruct a as [s|s| |s m e]; try discriminate Hf;
      cbn [sign_bit] in Hs; subst s.
    - split; reflexivity.
    - cbn [finite64] in Hf.
      pose proof (bounded_facts m e Hf) as (Dm & Em & _).
      unfold float_floordiv.
      cbn [exponent scaled cond_Zopp xorb].
      set (ez := Z.min e (-48)).
      set (X := Z.pos m * 2 ^ (e - ez)).
      set (Y := 4503599627370496 * 2 ^ (-48 - ez)).
      assert (Hez : ez <= e /\ ez <= -48) by (unfold ez; lia).
      assert (HX : 0 <= X).
      { unfold X. apply Z.mul_nonneg_nonneg; [lia|].
        apply Z.pow_nonneg. lia. }
      assert (HY : 0 < Y).
      { unfold Y. apply Z.mul_pos_pos; [lia|].
        apply Z.pow_pos_nonneg; lia. }
      assert (Hq0 : 0 <= X / Y) by (apply Z.div_pos; lia).
      assert (Hm : Z.pos m < 2 ^ 53).
      { pose proof (Zdigits2_bounds (Z.pos m) ltac:(lia)) as [_ Hhi].
        cbn [Zdigits2] in Hhi.
        eapply Z.lt_le_trans; [exact Hhi|].
        apply Z.pow_le_mono_r; lia. }
      assert (Hq1 : X / Y < 2 ^ 1020).
      { apply Z.div_lt_upper_bound; [exact HY|].
        unfold X, Y.
        change 4503599627370496 with (2 ^ 52).
        rewrite <- !Z.pow_add_r by lia.
        apply Z.lt_le_trans with (2 ^ 53 * 2 ^ (e - ez)).
        - apply Z.mul_lt_mono_pos_r; [apply Z.pow_pos_nonneg; lia|exact Hm].
        - rewrite <- Z.pow_add_r by lia.
          apply Z.pow_le_mono_r; lia. }
      assert (Hd : Zdigits2 (X / Y) + 0 < emax).
      { pose proof (Zdigits2_le (X / Y) 1020 ltac:(lia)
                      ltac:(rewrite Z.abs_eq; lia)).
        unfold emax. lia. }
      destruct (binary_normalize_finite (X / Y) 0 false Hd) as (F & _).
      split; [exact F|].
      apply binary_normalize_unsigned. exact Hq0. }
  destruct Hq as [Fq Sq].
  destruct (py_int_of_float_unsigned _ Fq Sq) as (lbs & El & Hl).
  exists lbs. split; [reflexivity|]. split; [exact El|exact Hl].
Qed.

(** The ounces left over carry no sign. *)
Lemma remaining_ounces_total (a : float) :
  sign_bit a = false ->
  exists rem_oz,
    py_float_mod_int a OUNCES_PER_POUND = Ok rem_oz /\
    sign_bit rem_oz = false.
Proof.
  intros Hs.
  destruct sixteen_fields as [E16 _].
  unfold py_float_mod_int. rewrite E16. cbn [bind].
  eexists. split; [reflexivity|].
  destruct a as [s|s| |s m e]; try reflexivity.
  unfold float_mod.
  apply binary_normalize_unsigned.
  apply Z.mod_pos_bound.
  cbn [scaled cond_Zopp].
  apply Z.mul_pos_pos; [lia|].
  apply Z.pow_pos_nonneg; [lia|].
  cbn [exponent]. lia.
Qed.

(** The rendered magnitude of a finite weight exists and holds no minus
    sign: neither the pounds nor the kilograms are signed. *)
Lemma display_magnitude_total (a : float) (is_metric : bool) :
  finite64 a = true -> sign_bit a = false ->
  exists body,
    display_magnitude a is_metric = Ok body /\ occurs "-" body = false.
Proof.
  intros Hf Hs. unfold display_magnitude.
  destruct is_metric.
  - assert (Hg : sign_bit (fmul a GRAMS_PER_OUNCE) = false)
      by (apply fmul_unsigned; [exact Hs|reflexivity]).
    destruct (py_float_ge_int (fmul a GRAMS_PER_OUNCE) GRAMS_PER_KILOGRAM).
    + unfold py_float_div_int. rewrite thousand_fields. cbn [bind].
      eexists. split; [reflexivity|].
      rewrite occurs_app, py_format_f_minus; [reflexivity|].
      apply fdiv_unsigned; [exact Hg|reflexivity].
    + eexists. split; [reflexivity|].
      rewrite occurs_app, py_format_f_minus; [reflexivity|exact Hg].
  - destruct (py_float_ge_int a OUNCES_PER_POUND).
    + destruct (pounds_total a Hf Hs) as (q & lbs & Eq & El & Hl).
      destruct (remaining_ounces_total a Hs) as (rem_oz & Er & Sr).
      rewrite Eq. cbn [bind]. rewrite El. cbn [bind]. rewrite Er. cbn [bind].
      eexists. split; [reflexivity|].
      rewrite !occurs_app, py_str_int_minus, py_format_f_minus by assumption.
      reflexivity.
    + eexists. split; [reflexivity|].
      rewrite occurs_app, py_format_f_minus; [reflexivity|exact Hs].
Qed.

(** The source computes the grams from the signed weight and takes the
    absolute value afterwards; the result is the same. *)
Lemma format_weight_display_refines (weight_oz : float) (is_metric : bool) :
  format_weight_display weight_oz is_metric
  = format_display weight_oz is_metric.
Proof.
  unfold format_weight_display, format_display, display_magnitude,
    display_sign.
  destruct is_metric.
  - change GRAMS_PER_OUNCE with (S754_finite false 7979674852258742 (-48)).
    rewrite SFabs_fmul_positive.
    destruct (py_float_ge_int _ GRAMS_PER_KILOGRAM).
    + destruct (py_float_div_int _ GRAMS_PER_KILOGRAM); reflexivity.
    + reflexivity.
  - destruct (py_float_ge_int (SFabs weight_oz) OUNCES_PER_POUND);
      [|reflexivity].
    destruct (py_float_floordiv_int _ OUNCES_PER_POUND) as [q|]; [|reflexivity].
    cbn [bind].
    destruct (py_int_of_float q); [|reflexivity]. cbn [bind].
    destruct (py_float_mod_int _ OUNCES_PER_POUND); reflexivity.
Qed.

Lemma format_weight_display_total (weight_oz : float) (is_metric : bool) :
  finite64 weight_oz = true ->
  exists body,
    display_magnitude (SFabs weight_oz) is_metric = Ok body /\
    format_weight_display weight_oz is_metric
      = Ok (display_sign weight_oz ++ body) /\
    occurs "-" body = false.
Proof.
  intros Hf.
  destruct (display_magnitude_total (SFabs weight_oz) is_metric)
    as (body & Eb & Hb).
  - rewrite SFabs_finite64. exact Hf.
  - apply SFabs_unsigned.
  - exists body. split; [exact Eb|]. split; [|exact Hb].
    rewrite format_weight_display_refines. unfold format_display.
    rewrite Eb. reflexivity.
Qed.

(** C3: [format_weight_display] is the sign, computed once from the
    unrounded ounces, followed by the magnitude rendered from the absolute
    value as the specification words it.  For every finite weight and both
    unit modes the magnitude exists and holds no minus sign, so neither the
    pounds nor the kilograms are signed and the text starts with a minus
    exactly when the weight is below -0.01; the four documented displays are
    as stated. *)
Theorem format_weight_display_spec (weight_oz : float) (is_metric : bool) :
  format_weight_display weight_oz is_metric
    = format_display weight_oz is_metric /\
  (finite64 weight_oz = true ->
   exists body,
     display_magnitude (SFabs weight_oz) is_metric = Ok body /\
     format_weight_display weight_oz is_metric
       = Ok (display_sign weight_oz ++ body) /\
     occurs "-" body = false /\
     leading_minus (display_sign weight_oz ++ body)
       = flt weight_oz NEGATIVE_DISPLAY_THRESHOLD) /\
  (NEGATIVE_DISPLAY_THRESHOLD = SFopp (decimal 1 2) /\
   GRAMS_PER_OUNCE = decimal 283495 4) /\
  (format_weight_display (S754_zero false) false = Ok "0.00 oz" /\
   format_weight_display (float_of_Z 20) false = Ok "1 lb 4.00 oz" /\
   format_weight_display (float_of_Z 40) true = Ok "1.134 kg" /\
   exists out,
     format_weight_display (SFopp (decimal 5 3)) false = Ok out /\
     leading_minus out = false).
Proof.
  split; [apply format_weight_display_refines|].
  split; [|split].
  - intros Hf.
    destruct (format_weight_display_total weight_oz is_metric Hf)
      as (body & Eb & Ef & Hb).
    exists body. repeat split; try assumption.
    unfold display_sign.
    destruct (flt weight_oz NEGATIVE_DISPLAY_THRESHOLD).
    + reflexivity.
    + apply leading_minus_occurs. exact Hb.
  - split; reflexivity.
  - split; [vm_compute; reflexivity|].
    split; [vm_compute; reflexivity|].
    split; [vm_compute; reflexivity|].
    eexists. split; vm_compute; reflexivity.
Qed.

Lemma format_weight_display_spec_witness :
  exists body,
    display_magnitude (SFabs (SFopp (float_of_Z 20))) false = Ok body /\
    format_weight_display (SFopp (float_of_Z 20)) false
      = Ok (display_sign (SFopp (float_of_Z 20)) ++ body) /\
    occurs "-" body = false /\
    leading_minus (display_sign (SFopp (float_of_Z 20)) ++ body)
      = flt (SFopp (float_of_Z 20)) NEGATIVE_DISPLAY_THRESHOLD.
Proof.
  apply (format_weight_display_spec (SFopp (float_of_Z 20)) false).
  reflexivity.
Defined.

(** * The status line and the debounce window *)

Lemma get_calibrated_weight_finite (r o : Z) :
  is_uint16 r -> is_uint16 o ->
  exists w, get_calibrated_weight r o = Ok w /\ finite64 w = true.
Proof.
  unfold is_uint16. intros Hr Ho.
  assert (Hn : Z.abs (r - o) < 2 ^ 53).
  { change (2 ^ 53) with 9007199254740992. lia. }
  destruct (py_float_of_int_small (r - o) Hn) as [Hc Hf].
  destruct (fmul_calibration (float_of_Z (r - o)) Hf) as (F & _).
  eexists. split; [|exact F].
  unfold get_calibrated_weight. rewrite Hc. reflexivity.
Qed.

Lemma apply_action_offset (s s1 : session) (a : option action) :
  apply_action s a = Some s1 ->
  current_raw s1 = current_raw s /\
  (current_offset s1 = current_offset s \/
   current_offset s1 = current_raw s \/
   current_offset s1 = absolute_zero s).
Proof.
  destruct a as [[]|]; simpl; intros H; inversion H; simpl; auto.
Qed.

Lemma status_line_total (s : session) :
  is_uint16 (current_raw s) -> is_uint16 (current_offset s) ->
  exists weight_oz display,
    get_calibrated_weight (current_raw s) (current_offset s) = Ok weight_oz /\
    format_weight_display weight_oz (is_metric s) = Ok display /\
    status_line s
      = Ok (status_text display (current_raw s - current_offset s)).
Proof.
  intros Hr Ho.
  destruct (get_calibrated_weight_finite _ _ Hr Ho) as (w & Ew & Fw).
  destruct (format_weight_display_total w (is_metric s) Fw)
    as (body & _ & Ef & _).
  exists w. eexists. split; [exact Ew|]. split; [exact Ef|].
  unfold status_line. rewrite Ew. cbn [bind]. rewrite Ef. reflexivity.
Qed.

(** C7 (amended): the status line is written only in a pass whose device
    read brings a frame.  When it brings one of at least 8 bytes, the raw
    value is decoded, the displayed weight is computed from it, the current
    offset and the unit flag as the fetched action left them, and the line
    with that text and the raw delta is written over the previous one.  In
    a pass whose read fails or brings nothing, nothing is written. *)
Theorem status_line_rendered (s s1 : session) (t : tick) :
  is_uint16 (current_raw s) ->
  is_uint16 (current_offset s) ->
  is_uint16 (absolute_zero s) ->
  interrupted t = false ->
  apply_action s (fetched t) = Some s1 ->
  (forall data,
     device_read t = read_data data -> (8 <= List.length data)%nat ->
     exists raw weight_oz display,
       get_raw_weight data = Ok raw /\
       get_calibrated_weight raw (current_offset s1) = Ok weight_oz /\
       format_weight_display weight_oz (is_metric s1) = Ok display /\
       session_step s t
         = continue (set_current_raw s1 raw)
             [stdout_write (status_text display (raw - current_offset s1));
              sleep]) /\
  (failed_read (device_read t) = true ->
     exists out,
       session_step s t = continue s1 out /\
       existsb writes_status out = false).
Proof.
  intros Hr Ho Hz Hi Ha.
  destruct (apply_action_offset s s1 _ Ha) as [Hraw Hoff].
  assert (Ho1 : is_uint16 (current_offset s1))
    by (destruct Hoff as [->|[->| ->]]; assumption).
  split.
  - intros data Hd Hlen.
    destruct (get_raw_weight_frames data) as (_ & Hlong).
    destruct (Hlong Hlen) as (high & low & _ & _ & Eraw & Hu).
    set (raw := byte_value high * 256 + byte_value low) in *.
    destruct (status_line_total (set_current_raw s1 raw))
      as (w & display & Ew & Ef & El); [exact Hu|exact Ho1|].
    exists raw, w, display.
    split; [exact Eraw|]. split; [exact Ew|]. split; [exact Ef|].
    unfold session_step. rewrite Hi, Ha, Hd.
    unfold poll_device.
    destruct data as [|b data]; [simpl in Hlen; lia|].
    rewrite Eraw, El. reflexivity.
  - intros Hf. eexists. split.
    + unfold session_step. rewrite Hi, Ha.
      rewrite (poll_device_failed s1 _ Hf). reflexivity.
    + destruct (device_read t) as [[|b data]|e]; reflexivity.
Qed.

Lemma status_line_rendered_witness :
  let s := {| absolute_zero := 100; current_offset := 100;
              current_raw := 400; is_metric := false |} in
  let t := {| interrupted := false; fetched := Some toggle_units;
              device_read := read_data [] |} in
  exists out,
    session_step s t
      = continue {| absolute_zero := 100; current_offset := 100;
                    current_raw := 400; is_metric := true |} out /\
    existsb writes_status out = false.
Proof.
  intros s t.
  apply (status_line_rendered s
           {| absolute_zero := 100; current_offset := 100;
              current_raw := 400; is_metric := true |} t);
    try (unfold is_uint16; simpl; lia); reflexivity.
Defined.

Lemma on_key_debounced (st : listener) (key : ascii) (now : float) :
  within_debounce (last_action_time st) now = true ->
  on_key st key now = st.
Proof.
  unfold within_debounce, on_key. intros ->. reflexivity.
Qed.

Lemma on_key_accepted (st : listener) (key : ascii) (now : float) :
  within_debounce (last_action_time st) now = false ->
  action_key key = true ->
  last_action_time (on_key st key now) = now /\
  listening (on_key st key now) = true /\
  exists a, pending (on_key st key now) = Some a /\
            (a = tare \/ a = reset \/ a = toggle_units).
Proof.
  unfold within_debounce, on_key, action_key. intros -> Hk.
  destruct (Ascii.eqb (upper key) "T").
  - repeat split. exists tare. auto.
  - destruct (Ascii.eqb (upper key) "R").
    + repeat split. exists reset. auto.
    + destruct (Ascii.eqb (upper key) "M"); [|discriminate Hk].
      repeat split. exists toggle_units. auto.
Qed.

Lemma listener_step_not_accepted (st : listener) (ev : listener_event) :
  accepted st ev = false ->
  last_action_time (listener_step st ev) = last_action_time st.
Proof.
  destruct ev as [| | |e|key now|]; try reflexivity.
  cbn [accepted listener_step].
  destruct (listening st); [|reflexivity].
  cbn [andb]. intros H.
  destruct (within_debounce (last_action_time st) now) eqn:Hd.
  - rewrite on_key_debounced by exact Hd. reflexivity.
  - rewrite andb_true_r in H.
    unfold on_key. unfold within_debounce in Hd. rewrite Hd.
    unfold action_key in H.
    apply orb_false_elim in H as [H HM].
    apply orb_false_elim in H as [HT HR].
    rewrite HT, HR, HM.
    destruct (Ascii.eqb key ESC); [reflexivity|].
    destruct (Ascii.eqb key CTRL_C); reflexivity.
Qed.

Lemma accepted_times_spaced (events : list listener_event) : forall st,
  spaced (last_action_time st :: accepted_times st events) = true.
Proof.
  induction events as [|ev rest IH]; intros st; [reflexivity|].
  cbn [accepted_times].
  destruct (accepted st ev) eqn:Hacc.
  - destruct ev as [| | |e|key now|]; try discriminate Hacc.
    cbn [accepted] in Hacc.
    apply andb_prop in Hacc as [Hacc Hd].
    apply andb_prop in Hacc as [Hl Hk].
    apply negb_true_iff in Hd.
    specialize (IH (listener_step st (key_pressed key now))).
    cbn [listener_step] in IH |- *. rewrite Hl in IH |- *.
    destruct (on_key_accepted st key now Hd Hk) as (Ht & _).
    rewrite Ht in IH.
    change (spaced (last_action_time st :: now :: ?l))
      with (negb (within_debounce (last_action_time st) now)
            && spaced (now :: l)).
    rewrite Hd, IH. reflexivity.
  - specialize (IH (listener_step st ev)).
    rewrite (listener_step_not_accepted st ev Hacc) in IH.
    destruct ev; exact IH.
Qed.

Lemma last_cons {A : Type} (l : list A) : forall x d : A,
  last (x :: l) d = last l x.
Proof.
  induction l as [|y l IH]; intros x d; [reflexivity|].
  change (last (x :: y :: l) d) with (last (y :: l) d).
  rewrite !IH. reflexivity.
Qed.


(** * Rounding, exactly *)

Lemma shr_1_fields (mrs : shr_record) :
  0 <= shr_m mrs ->
  shr_1 mrs = {| shr_m := shr_m mrs / 2;
                 shr_r := Z.odd (shr_m mrs);
                 shr_s := shr_r mrs || shr_s mrs |}.
Proof.
  destruct mrs as [m r s]. cbn [shr_m shr_r shr_s]. intros Hm.
  destruct m as [|[q|q|]|q]; cbn [shr_1]; try lia; f_equal.
  - apply (Z.div_unique _ _ _ 1); lia.
  - apply (Z.div_unique _ _ _ 0); lia.
Qed.

Lemma shifted_step (mrs : shr_record) (M n : Z) :
  0 <= M -> 0 <= n ->
  shifted mrs M n -> shifted (shr_1 mrs) M (n + 1).
Proof.
  intros HM Hn (Em & Er & Es).
  assert (Hp : 0 < 2 ^ n) by (apply Z.pow_pos_nonneg; lia).
  assert (Hm : 0 <= shr_m mrs) by (rewrite Em; apply Z.div_pos; lia).
  rewrite (shr_1_fields mrs Hm). unfold shifted. cbn [shr_m shr_r shr_s].
  rewrite Z.pow_add_r by lia. change (2 ^ 1) with 2.
  split; [|split].
  - rewrite Em. rewrite Z.div_div by lia. reflexivity.
  - rewrite Em. f_equal.
    rewrite (Z.mul_comm (2 ^ n) 2).
    rewrite Z.div_mul_cancel_l by lia. reflexivity.
  - rewrite Er, Es.
    rewrite Z.rem_mul_r by lia.
    pose proof (Z.mod_pos_bound (2 * M) (2 ^ n) Hp) as Hb.
    pose proof (Zmod_odd (2 * M / 2 ^ n)) as Ho.
    destruct (Z.odd (2 * M / 2 ^ n));
      destruct (Z.eqb_spec (2 * M mod 2 ^ n) 0) as [H0|H0]; cbn [negb orb];
      symmetry;
      first [ apply negb_true_iff; apply Z.eqb_neq; nia
            | apply negb_false_iff; apply Z.eqb_eq; nia ].
Qed.

Lemma shifted_iter (p : positive) : forall mrs M n,
  0 <= M -> 0 <= n ->
  shifted mrs M n -> shifted (iter_pos shr_1 p mrs) M (n + Z.pos p).
Proof.
  induction p as [p IH|p IH|]; intros mrs M n HM Hn H; cbn [iter_pos].
  - replace (n + Z.pos p~1) with (n + 1 + Z.pos p + Z.pos p) by lia.
    apply IH; [lia|lia|]. apply IH; [lia|lia|].
    apply shifted_step; assumption.
  - replace (n + Z.pos p~0) with (n + Z.pos p + Z.pos p) by lia.
    apply IH; [lia|lia|]. apply IH; assumption.
  - apply shifted_step; assumption.
Qed.

Lemma shifted_start (M : Z) : shifted (shr_record_of_loc M loc_Exact) M 0.
Proof.
  unfold shifted. cbn [shr_record_of_loc shr_m shr_r shr_s].
  rewrite Z.pow_0_r, Z.div_1_r, Z.div_1_r, Z.mod_1_r.
  rewrite Z.odd_mul. repeat split.
Qed.

(** Rounding the shifted record is rounding the quotient to nearest,
    ties to even. *)
Lemma round_shifted (mrs : shr_record) (M n : Z) :
  0 <= M -> 0 <= n -> shifted mrs M n ->
  round_nearest_even (shr_m mrs) (loc_of_shr_record mrs)
  = round_half_even M (2 ^ n).
Proof.
  intros HM Hn (Em & Er & Es).
  assert (Hp : 0 < 2 ^ n) by (apply Z.pow_pos_nonneg; lia).
  unfold round_half_even.
  assert (H2 : 2 * (M mod 2 ^ n)
               = 2 * M mod 2 ^ n + 2 ^ n * ((2 * M / 2 ^ n) mod 2)).
  { rewrite <- Z.rem_mul_r by lia.
    rewrite (Z.mul_comm (2 ^ n) 2).
    rewrite Z.mul_mod_distr_l by lia. reflexivity. }
  pose proof (Z.mod_pos_bound (2 * M) (2 ^ n) Hp) as Hb.
  pose proof (Zmod_odd (2 * M / 2 ^ n)) as Ho.
  destruct mrs as [m r s]. cbn [shr_m shr_r shr_s] in *.
  subst m r s.
  destruct (Z.odd (2 * M / 2 ^ n));
    destruct (Z.eqb_spec (2 * M mod 2 ^ n) 0) as [H0|H0];
    cbn [negb loc_of_shr_record round_nearest_even].
  - replace (2 * (M mod 2 ^ n) ?= 2 ^ n) with Eq
      by (symmetry; apply Z.compare_eq_iff; nia).
    reflexivity.
  - replace (2 * (M mod 2 ^ n) ?= 2 ^ n) with Gt
      by (symmetry; apply Z.compare_gt_iff; nia).
    reflexivity.
  - replace (2 * (M mod 2 ^ n) ?= 2 ^ n) with Lt
      by (symmetry; apply Z.compare_lt_iff; nia).
    reflexivity.
  - replace (2 * (M mod 2 ^ n) ?= 2 ^ n) with Lt
      by (symmetry; apply Z.compare_lt_iff; nia).
    reflexivity.
Qed.

Lemma round_half_even_bounds (M d : Z) :
  M / d <= round_half_even M d <= M / d + 1.
Proof.
  unfold round_half_even.
  destruct (2 * (M mod d) ?= d); [destruct (Z.even (M / d))| |]; lia.
Qed.

Lemma shr_fexp_shifted (m e : Z) :
  0 <= m -> e <= fexp64 (Zdigits2 m + e) ->
  exists mrs,
    shr_fexp prec emax m e loc_Exact = (mrs, fexp64 (Zdigits2 m + e)) /\
    shifted mrs m (fexp64 (Zdigits2 m + e) - e).
Proof.
  intros Hm He. unfold shr_fexp, shr. fold (fexp64 (Zdigits2 m + e)).
  destruct (fexp64 (Zdigits2 m + e) - e) as [|p|p] eqn:En.
  - exists (shr_record_of_loc m loc_Exact). split.
    + f_equal. lia.
    + apply shifted_start.
  - exists (iter_pos shr_1 p (shr_record_of_loc m loc_Exact)). split.
    + f_equal. lia.
    + apply (shifted_iter p _ m 0); [lia|lia|apply shifted_start].
  - lia.
Qed.

Lemma rounded_exponent (m e N : Z) :
  0 < m -> e <= fexp64 (Zdigits2 m + e) ->
  m / 2 ^ (fexp64 (Zdigits2 m + e) - e) <= N
    <= m / 2 ^ (fexp64 (Zdigits2 m + e) - e) + 1 ->
  fexp64 (Zdigits2 m + e) <= fexp64 (Zdigits2 N + fexp64 (Zdigits2 m + e)).
Proof.
  intros Hm He HN.
  remember (fexp64 (Zdigits2 m + e)) as f eqn:Df.
  remember (Zdigits2 m) as d eqn:Dd.
  rewrite fexp_unfold, emin_value in Df. unfold prec in Df.
  assert (Hd : 0 < d) by (subst d; apply Zdigits2_pos; exact Hm).
  assert (Hp : 0 < 2 ^ (f - e)) by (apply Z.pow_pos_nonneg; lia).
  assert (Hq : 0 <= m / 2 ^ (f - e)) by (apply Z.div_pos; lia).
  pose proof (Zdigits2_mono (m / 2 ^ (f - e)) N ltac:(lia)) as Hmono.
  pose proof (Zdigits2_nonneg N).
  rewrite fexp_unfold, emin_value. unfold prec.
  destruct (Z_lt_dec (f - e) d) as [Hlt|Hge].
  - assert (Hdd : Zdigits2 (m / 2 ^ (f - e)) = d - (f - e)).
    { subst d. apply Zdigits2_div_pow; lia. }
    lia.
  - lia.
Qed.

Lemma binary_round_aux_canon (s : bool) (m e : Z) :
  0 < m -> e <= fexp64 (Zdigits2 m + e) ->
  binary_round_aux prec emax s m e loc_Exact
  = canon s (round_half_even m (2 ^ (fexp64 (Zdigits2 m + e) - e)))
      (fexp64 (Zdigits2 m + e)).
Proof.
  intros Hm He. unfold binary_round_aux.
  destruct (shr_fexp_shifted m e) as (mrs1 & E1 & S1); [lia|exact He|].
  rewrite E1.
  rewrite (round_shifted mrs1 m (fexp64 (Zdigits2 m + e) - e)
             ltac:(lia) ltac:(lia) S1).
  set (f := fexp64 (Zdigits2 m + e)) in *.
  set (N := round_half_even m (2 ^ (f - e))).
  pose proof (round_half_even_bounds m (2 ^ (f - e))) as HN. fold N in HN.
  assert (Hp : 0 < 2 ^ (f - e)) by (apply Z.pow_pos_nonneg; lia).
  assert (Hq : 0 <= m / 2 ^ (f - e)) by (apply Z.div_pos; lia).
  pose proof (rounded_exponent m e N Hm He HN) as He2. fold f in He2.
  destruct (shr_fexp_spec N f loc_Exact) as (mrs2 & E2 & M2); [lia|exact He2|].
  rewrite E2. unfold canon. rewrite M2. reflexivity.
Qed.

(** Rounding to nearest-even stays below an even bound exactly when the
    quotient is below the midpoint under it. *)
Lemma round_half_even_below (M d K : Z) :
  0 < d -> Z.even K = true ->
  (round_half_even M d <? K) = (2 * M <? (2 * K - 1) * d).
Proof.
  intros Hd HK.
  apply Z.even_spec in HK. destruct HK as [k HK].
  unfold round_half_even.
  pose proof (Z.div_mod M d ltac:(lia)) as Hdm.
  pose proof (Z.mod_pos_bound M d Hd) as Hb.
  set (q := M / d) in *. set (r := M mod d) in *.
  destruct (Z.compare_spec (2 * r) d) as [Heq|Hlt|Hgt].
  - destruct (Z.even q) eqn:Hq.
    + apply Z.even_spec in Hq. destruct Hq as [j Hq].
      destruct (Z.ltb_spec q K); destruct (Z.ltb_spec (2 * M) ((2 * K - 1) * d));
        try reflexivity; exfalso; nia.
    + assert (Ho : Z.odd q = true) by (rewrite <- Z.negb_even, Hq; reflexivity).
      apply Z.odd_spec in Ho. destruct Ho as [j Ho].
      destruct (Z.ltb_spec (q + 1) K);
        destruct (Z.ltb_spec (2 * M) ((2 * K - 1) * d));
        try reflexivity; exfalso; nia.
  - destruct (Z.ltb_spec q K); destruct (Z.ltb_spec (2 * M) ((2 * K - 1) * d));
      try reflexivity; exfalso; nia.
  - destruct (Z.ltb_spec (q + 1) K);
      destruct (Z.ltb_spec (2 * M) ((2 * K - 1) * d));
      try reflexivity; exfalso; nia.
Qed.

Lemma debounce_fields :
  DEBOUNCE_SECONDS = S754_finite false 7205759403792794 (-55).
Proof. reflexivity. Qed.

Lemma canon_threshold (s : bool) (mz ez : Z) :
  0 < mz -> -1074 <= ez -> ez <= fexp64 (Zdigits2 mz + ez) ->
  flt (canon s (round_half_even mz (2 ^ (fexp64 (Zdigits2 mz + ez) - ez)))
         (fexp64 (Zdigits2 mz + ez))) DEBOUNCE_SECONDS
  = s || (mz * 2 ^ (ez + 1074) <? DEBOUNCE_UNITS).
Proof.
  intros Hm Hez He.
  pose proof (Zdigits2_bounds mz Hm) as [Hlo Hhi].
  pose proof (Zdigits2_pos mz Hm) as Hd.
  pose proof (rounded_exponent mz ez _ Hm He
                (round_half_even_bounds mz _)) as Hexp.
  remember (Zdigits2 mz) as d eqn:Dd in *.
  remember (fexp64 (d + ez)) as f eqn:Df in *.
  rewrite fexp_unfold, emin_value in Df. unfold prec in Df.
  remember (round_half_even mz (2 ^ (f - ez))) as N eqn:DN in *.
  pose proof (round_half_even_bounds mz (2 ^ (f - ez))) as HN.
  rewrite <- DN in HN.
  assert (Hp : 0 < 2 ^ (f - ez)) by (apply Z.pow_pos_nonneg; lia).
  assert (Hq0 : 0 <= mz / 2 ^ (f - ez)) by (apply Z.div_pos; lia).
  assert (Hq1 : mz / 2 ^ (f - ez) < 2 ^ 53).
  { apply Z.div_lt_upper_bound; [lia|].
    rewrite <- Z.pow_add_r by lia.
    eapply Z.lt_le_trans; [exact Hhi|]. apply Z.pow_le_mono_r; lia. }
  assert (HN53 : 0 <= N <= 2 ^ 53) by lia.
  assert (HdN : Zdigits2 N <= 54).
  { apply Zdigits2_le; [lia|]. rewrite Z.abs_eq by lia.
    change (2 ^ 54) with (2 * 2 ^ 53). lia. }
  pose proof (Zdigits2_nonneg N) as HdN0.
  assert (Hpu : 0 < 2 ^ (ez + 1074)) by (apply Z.pow_pos_nonneg; lia).
  rewrite debounce_fields.
  unfold canon.
  remember (fexp64 (Zdigits2 N + f)) as e2 eqn:De2 in *.
  rewrite fexp_unfold, emin_value in De2. unfold prec in De2.
  assert (Hp2 : 0 < 2 ^ (e2 - f)) by (apply Z.pow_pos_nonneg; lia).
  assert (Hm2 : 0 <= N / 2 ^ (e2 - f)) by (apply Z.div_pos; lia).
  destruct (Z_le_gt_dec (d + ez) (-3)) as [Hsmall|Hnot].
  - (* below the binade of 0.2 *)
    assert (HV : mz * 2 ^ (ez + 1074) < DEBOUNCE_UNITS).
    { apply Z.lt_le_trans with (2 ^ d * 2 ^ (ez + 1074)).
      - apply Z.mul_lt_mono_pos_r; lia.
      - rewrite <- Z.pow_add_r by lia.
        apply Z.le_trans with (2 ^ 1071); [apply Z.pow_le_mono_r; lia|].
        unfold DEBOUNCE_UNITS. change (2 ^ 1071) with (2 ^ 53 * 2 ^ 1018).
        apply Z.mul_le_mono_nonneg_r; [apply Z.pow_nonneg|]; lia. }
    apply Z.ltb_lt in HV. rewrite HV, orb_true_r.
    destruct (N / 2 ^ (e2 - f)) as [|m2|m2] eqn:Em2; [| |lia].
    + destruct s; reflexivity.
    + assert (Hle : (e2 <=? emax - prec) = true)
        by (apply Z.leb_le; unfold emax, prec; lia).
      rewrite Hle. destruct s; [reflexivity|].
      unfold flt, SFltb. cbn [SFcompare].
      destruct (Z.compare_spec e2 (-55)) as [Heq|Hlt|Hgt];
        [|reflexivity|lia].
      assert (Hs1 : e2 - f = 1) by lia.
      rewrite Hs1 in Em2.
      assert (Hm52 : Z.pos m2 <= 4503599627370496).
      { rewrite <- Em2. apply Z.div_le_upper_bound; [lia|].
        change (2 ^ 1 * 4503599627370496) with (2 ^ 53). lia. }
      rewrite Pos.compare_cont_spec. cbn [Pos.switch_Eq].
      replace (m2 ?= 7205759403792794)%positive with Lt; [reflexivity|].
      symmetry. rewrite Pos2Z.inj_compare. apply Z.compare_lt_iff. lia.
  - destruct (Z_le_gt_dec (d + ez) (-2)) as [Heq2|Hbig].
    + (* the binade of 0.2 *)
      assert (HD : d + ez = -2) by lia.
      assert (Hf : f = -55) by lia.
      assert (Hq2 : 2 ^ 52 <= mz / 2 ^ (f - ez)).
      { apply Z.div_le_lower_bound; [lia|].
        rewrite <- Z.pow_add_r by lia.
        replace (f - ez + 52) with (d - 1) by lia. exact Hlo. }
      assert (Hflt :
        flt match N / 2 ^ (e2 - f) with
            | 0 => S754_zero s
            | Z.pos m => if e2 <=? emax - prec then S754_finite s m e2
                         else S754_infinity s
            | Z.neg _ => S754_nan
            end (S754_finite false 7205759403792794 (-55))
        = s || (N <? 7205759403792794)).
      { destruct (Z_lt_dec N (2 ^ 53)) as [Hlt53|Hge53].
        - assert (HdN53 : Zdigits2 N = 53).
          { apply Zdigits2_unique; [|lia]. change (53 - 1) with 52. lia. }
          assert (He2 : e2 = -55) by lia.
          rewrite He2, Hf. change (-55 - -55) with 0.
          rewrite Z.pow_0_r, Z.div_1_r.
          destruct N as [|n|n]; [|clear Hm2|lia].
          + change (2 ^ 52) with 4503599627370496 in *. lia.
          + change (-55 <=? emax - prec) with true. cbn iota.
            destruct s; [reflexivity|].
            unfold flt, SFltb. cbn [SFcompare orb].
            change (-55 ?= -55) with Eq. cbn iota.
            rewrite Pos.compare_cont_spec. cbn [Pos.switch_Eq].
            rewrite Pos2Z.inj_compare.
            destruct (Z.compare_spec (Z.pos n) 7205759403792794);
              destruct (Z.ltb_spec (Z.pos n) 7205759403792794);
              try reflexivity; lia.
        - assert (HNeq : N = 2 ^ 53) by lia.
          assert (HdN54 : Zdigits2 N = 54) by (rewrite HNeq; reflexivity).
          assert (He2 : e2 = -54) by lia.
          rewrite He2, Hf, HNeq. change (-54 - -55) with 1.
          change (2 ^ 53 / 2 ^ 1) with (Z.pos 4503599627370496).
          change (-54 <=? emax - prec) with true. cbn iota.
          destruct s; reflexivity. }
      rewrite Hflt. f_equal.
      rewrite DN.
      rewrite (round_half_even_below mz (2 ^ (f - ez)) 7205759403792794)
        by (try reflexivity; lia).
      unfold DEBOUNCE_UNITS.
      replace 1018 with (f - ez + (ez + 1074) - 1) by lia.
      assert (Hsplit : 2 ^ (f - ez + (ez + 1074) - 1) * 2
                       = 2 ^ (f - ez) * 2 ^ (ez + 1074)).
      { remember (f - ez + (ez + 1074) - 1) as a eqn:Da.
        rewrite <- Z.pow_add_r by lia.
        replace (f - ez + (ez + 1074)) with (Z.succ a) by lia.
        rewrite Z.pow_succ_r by lia. ring. }
      set (P := 2 ^ (f - ez + (ez + 1074) - 1)) in *.
      set (A := 2 ^ (f - ez)) in *. set (B := 2 ^ (ez + 1074)) in *.
      set (K := 2 * 7205759403792794 - 1).
      destruct (Z.ltb_spec (2 * mz) (K * A));
        destruct (Z.ltb_spec (mz * B) (K * P)); try reflexivity; exfalso; nia.
    + (* above the binade of 0.2 *)
      assert (Hf : f = d + ez - 53) by lia.
      assert (Hq2 : 2 ^ 52 <= mz / 2 ^ (f - ez)).
      { apply Z.div_le_lower_bound; [lia|].
        rewrite <- Z.pow_add_r by lia.
        replace (f - ez + 52) with (d - 1) by lia. exact Hlo. }
      assert (HV : DEBOUNCE_UNITS <= mz * 2 ^ (ez + 1074)).
      { apply Z.le_trans with (2 ^ (d - 1) * 2 ^ (ez + 1074)).
        - rewrite <- Z.pow_add_r by lia.
          apply Z.le_trans with (2 ^ 1072); [|apply Z.pow_le_mono_r; lia].
          unfold DEBOUNCE_UNITS. change (2 ^ 1072) with (2 ^ 54 * 2 ^ 1018).
          apply Z.mul_le_mono_nonneg_r; [apply Z.pow_nonneg|]; lia.
        - apply Z.mul_le_mono_nonneg_r; lia. }
      destruct (Z.ltb_spec (mz * 2 ^ (ez + 1074)) DEBOUNCE_UNITS) as [Hc|_];
        [lia|].
      rewrite orb_false_r.
      assert (HdN53 : 53 <= Zdigits2 N).
      { change 53 with (52 + 1). apply Zdigits2_ge; lia. }
      assert (He2 : e2 = Zdigits2 N + f - 53) by lia.
      assert (Hpos : 0 < N / 2 ^ (e2 - f)).
      { apply Z.div_str_pos. split; [lia|].
        apply Z.le_trans with (2 ^ 52); [|lia].
        destruct (Z.eq_dec (Zdigits2 N) 53) as [E|E].
        - replace (e2 - f) with 0 by lia. simpl. lia.
        - replace (e2 - f) with 1 by lia. simpl. lia. }
      destruct (N / 2 ^ (e2 - f)) as [|m2|m2] eqn:Em2; [lia| |lia].
      destruct (e2 <=? emax - prec).
      * destruct s; [reflexivity|].
        unfold flt, SFltb. cbn [SFcompare].
        destruct (Z.compare_spec e2 (-55)); [lia|lia|reflexivity].
      * destruct s; reflexivity.
Qed.

Lemma debounce_units_pos : 0 < DEBOUNCE_UNITS.
Proof. reflexivity. Qed.

Lemma shl_align_value (m : positive) (e e' : Z) :
  let '(mz, ez) := shl_align m e e' in
  ez = Z.min e e' /\ Z.pos mz = Z.pos m * 2 ^ (e - ez).
Proof.
  unfold shl_align.
  destruct (e' - e) as [|k|k] eqn:Ek.
  - split; [lia|]. replace (e - e) with 0 by lia. simpl. lia.
  - split; [lia|]. replace (e - e) with 0 by lia. simpl. lia.
  - split; [lia|]. rewrite pos_iter_xO. f_equal. f_equal. lia.
Qed.

(** Rounding an integer multiple of [2 ^ e] and comparing the result with
    0.2 is comparing the exact value with the midpoint under 0.2. *)
Lemma normalize_threshold (M e : Z) :
  -1074 <= e ->
  flt (binary_normalize prec emax M e false) DEBOUNCE_SECONDS
  = (M * 2 ^ (e + 1074) <? DEBOUNCE_UNITS).
Proof.
  intros He.
  assert (Hpu : 0 < 2 ^ (e + 1074)) by (apply Z.pow_pos_nonneg; lia).
  pose proof debounce_units_pos as HU.
  assert (Hround : forall (s : bool) (p : positive),
    flt (binary_round prec emax s p e) DEBOUNCE_SECONDS
    = s || (Z.pos p * 2 ^ (e + 1074) <? DEBOUNCE_UNITS)).
  { intros s p. unfold binary_round.
    pose proof (shl_align_value p e (fexp64 (Z.pos (digits2_pos p) + e)))
      as Hal.
    fold (fexp64 (Z.pos (digits2_pos p) + e)).
    destruct (shl_align p e (fexp64 (Z.pos (digits2_pos p) + e)))
      as [mz ez].
    destruct Hal as [Hez Hmz].
    assert (Hf : -1074 <= fexp64 (Z.pos (digits2_pos p) + e))
      by (rewrite fexp_unfold, emin_value; lia).
    assert (Hdig : Zdigits2 (Z.pos mz) + ez = Z.pos (digits2_pos p) + e).
    { rewrite Hmz.
      rewrite Zdigits2_mul_pow by lia. cbn [Zdigits2]. lia. }
    assert (Hle : ez <= fexp64 (Zdigits2 (Z.pos mz) + ez))
      by (rewrite Hdig; lia).
    rewrite (binary_round_aux_canon s (Z.pos mz) ez ltac:(lia) Hle).
    rewrite (canon_threshold s (Z.pos mz) ez ltac:(lia) ltac:(lia) Hle).
    f_equal. f_equal. rewrite Hmz.
    rewrite <- Z.mul_assoc, <- Z.pow_add_r by lia.
    f_equal. f_equal. lia. }
  destruct M as [|p|p]; cbn [binary_normalize].
  - reflexivity.
  - rewrite Hround. reflexivity.
  - rewrite Hround. cbn [orb]. symmetry. apply Z.ltb_lt.
    assert (Z.neg p * 2 ^ (e + 1074) < 0); [|lia].
    apply Z.mul_neg_pos; lia.
Qed.

Lemma binary_normalize_canonical (s : bool) (m : positive) (e : Z) :
  bounded prec emax m e = true ->
  binary_normalize prec emax (cond_Zopp s (Z.pos m)) e false
  = S754_finite s m e.
Proof.
  intros Hb.
  assert (Hc : fexp64 (Z.pos (digits2_pos m) + e) = e /\ e <= emax - prec).
  { unfold bounded, canonical_mantissa in Hb.
    apply andb_prop in Hb as [Hc Hle].
    apply Z.eqb_eq in Hc. apply Z.leb_le in Hle. split; assumption. }
  destruct Hc as [Hc Hle].
  assert (Hr : forall s', binary_round prec emax s' m e = S754_finite s' m e).
  { intros s'. unfold binary_round, shl_align.
    fold (fexp64 (Z.pos (digits2_pos m) + e)). rewrite Hc, Z.sub_diag.
    apply binary_round_aux_exact; assumption. }
  destruct s; cbn [cond_Zopp Z.opp binary_normalize]; apply Hr.
Qed.

Lemma exact_units_finite (s : bool) (m : positive) (e : Z) :
  exact_units (S754_finite s m e) = cond_Zopp s (Z.pos m) * 2 ^ (e + 1074).
Proof.
  unfold exact_units, scaled.
  replace (e - -1074) with (e + 1074) by lia.
  destruct s; cbn [cond_Zopp]; lia.
Qed.

Lemma flt_finite_threshold (x : float) :
  finite64 x = true ->
  flt x DEBOUNCE_SECONDS = (exact_units x <? DEBOUNCE_UNITS).
Proof.
  destruct x as [s|s| |s m e]; try discriminate.
  - intros _. reflexivity.
  - cbn [finite64]. intros Hb.
    pose proof (bounded_facts m e Hb) as (_ & He & _).
    rewrite exact_units_finite.
    rewrite <- (binary_normalize_canonical s m e Hb).
    apply normalize_threshold. lia.
Qed.

(** The debounce test on finite time stamps, in exact arithmetic. *)
Lemma within_debounce_exact (last now : float) :
  finite64 last = true -> finite64 now = true ->
  within_debounce last now
  = (exact_units now - exact_units last <? DEBOUNCE_UNITS).
Proof.
  intros Hl Hn. unfold within_debounce.
  destruct now as [sx|sx| |sx mx ex]; try discriminate Hn;
    destruct last as [sy|sy| |sy my ey]; try discriminate Hl.
  - destruct sx, sy; reflexivity.
  - cbn [finite64] in Hl.
    unfold fsub. cbn [SFsub].
    rewrite (flt_finite_threshold (S754_finite (negb sy) my ey) Hl).
    rewrite !exact_units_finite.
    change (exact_units (S754_zero sx)) with 0.
    f_equal. destruct sy; cbn [negb cond_Zopp]; lia.
  - unfold fsub. cbn [SFsub].
    rewrite (flt_finite_threshold (S754_finite sx mx ex) Hn).
    change (exact_units (S754_zero sy)) with 0.
    f_equal. lia.
  - cbn [finite64] in Hl, Hn.
    pose proof (bounded_facts mx ex Hn) as (_ & Hex & _).
    pose proof (bounded_facts my ey Hl) as (_ & Hey & _).
    unfold fsub. cbn [SFsub].
    rewrite normalize_threshold by lia.
    rewrite !exact_units_finite.
    pose proof (shl_align_value mx ex (Z.min ex ey)) as Hx.
    pose proof (shl_align_value my ey (Z.min ex ey)) as Hy.
    destruct (shl_align mx ex (Z.min ex ey)) as [mzx ezx].
    destruct (shl_align my ey (Z.min ex ey)) as [mzy ezy].
    destruct Hx as [Hezx Hmx]. destruct Hy as [Hezy Hmy].
    cbn [fst].
    f_equal.
    assert (Hzx : ezx = Z.min ex ey) by lia.
    assert (Hzy : ezy = Z.min ex ey) by lia.
    rewrite Hzx in Hmx. rewrite Hzy in Hmy.
    remember (Z.min ex ey) as ez eqn:Dez in *.
    assert (Hsx : cond_Zopp sx (Z.pos mzx) * 2 ^ (ez + 1074)
                  = cond_Zopp sx (Z.pos mx) * 2 ^ (ex + 1074)).
    { replace (ex + 1074) with (ex - ez + (ez + 1074)) by lia.
      rewrite (Z.pow_add_r 2 (ex - ez) (ez + 1074)) by lia.
      destruct sx; cbn [cond_Zopp]; rewrite Hmx; ring. }
    assert (Hsy : cond_Zopp sy (Z.pos mzy) * 2 ^ (ez + 1074)
                  = cond_Zopp sy (Z.pos my) * 2 ^ (ey + 1074)).
    { replace (ey + 1074) with (ey - ez + (ez + 1074)) by lia.
      rewrite (Z.pow_add_r 2 (ey - ez) (ez + 1074)) by lia.
      destruct sy; cbn [cond_Zopp]; rewrite Hmy; ring. }
    rewrite Z.mul_sub_distr_r, Hsx, Hsy. reflexivity.
Qed.

Lemma accepted_times_finite (events : list listener_event) : forall st,
  finite_times events = true ->
  Forall (fun t => finite64 t = true) (accepted_times st events).
Proof.
  induction events as [|ev rest IH]; intros st Hf; [constructor|].
  cbn [finite_times forallb] in Hf. apply andb_prop in Hf as [Hev Hrest].
  cbn [accepted_times].
  destruct (accepted st ev).
  - destruct ev; try (apply IH; exact Hrest).
    constructor; [exact Hev|apply IH; exact Hrest].
  - apply IH. exact Hrest.
Qed.

Lemma spaced_outside (times : list float) :
  Forall (fun t => finite64 t = true) times ->
  spaced times = true ->
  ForallOrdPairs outside_window times.
Proof.
  induction times as [|x rest IH]; intros Hfin Hsp; [constructor|].
  inversion Hfin as [|? ? Hx Hrest]; subst.
  destruct rest as [|y rest'].
  - constructor; constructor.
  - cbn [spaced] in Hsp. apply andb_prop in Hsp as [Hxy Hsp].
    apply negb_true_iff in Hxy.
    specialize (IH Hrest Hsp).
    inversion IH as [|? ? Hy IHrest]; subst.
    inversion Hrest as [|? ? Hyf Hrest']; subst.
    assert (Gxy : DEBOUNCE_UNITS <= exact_units y - exact_units x).
    { rewrite (within_debounce_exact x y Hx Hyf) in Hxy.
      apply Z.ltb_ge in Hxy. exact Hxy. }
    constructor; [|exact IH].
    constructor; [split; assumption|].
    rewrite Forall_forall in Hy, Hrest' |- *.
    intros z Hz. destruct (Hy z Hz) as [_ Gyz].
    pose proof debounce_units_pos as HU.
    assert (Gxz : DEBOUNCE_UNITS <= exact_units z - exact_units x) by lia.
    split; [|exact Gxz].
    rewrite (within_debounce_exact x z Hx (Hrest' z Hz)).
    apply Z.ltb_ge. exact Gxz.
Qed.

Lemma accepted_times_app (a : list listener_event) : forall st b,
  accepted_times st (a ++ b)%list
  = (accepted_times st a ++ accepted_times (keyboard_listener st a) b)%list.
Proof.
  induction a as [|ev rest IH]; intros st b; [reflexivity|].
  cbn [app accepted_times keyboard_listener fold_left].
  fold (keyboard_listener (listener_step st ev) rest).
  rewrite IH.
  destruct (accepted st ev); [|reflexivity].
  destruct ev; reflexivity.
Qed.

(** X1: on finite time stamps the debounce test [current_time -
    last_action_time < 0.2], computed in floats, is the exact comparison of
    the difference with the midpoint under the float 0.2; that midpoint is
    below 0.2 s by less than [2 ^ -56] s.  In particular a key stamped no
    later than the last accepted action is always dropped. *)
Theorem debounce_test_exact (last now : float) :
  finite64 last = true -> finite64 now = true ->
  within_debounce last now
    = (exact_units now - exact_units last <? DEBOUNCE_UNITS) /\
  (5 * DEBOUNCE_UNITS < 2 ^ 1074 < 5 * (DEBOUNCE_UNITS + 2 ^ 1018)) /\
  (exact_units now <= exact_units last -> within_debounce last now = true).
Proof.
  intros Hl Hn.
  pose proof (within_debounce_exact last now Hl Hn) as E.
  split; [exact E|]. split.
  - split; reflexivity.
  - intros Hle. rewrite E. apply Z.ltb_lt.
    pose proof debounce_units_pos. lia.
Qed.

Lemma debounce_test_exact_witness :
  within_debounce (float_of_Z 1000) (decimal 10001 1)
  = (exact_units (decimal 10001 1) - exact_units (float_of_Z 1000)
     <? DEBOUNCE_UNITS).
Proof.
  apply (proj1 (debounce_test_exact (float_of_Z 1000) (decimal 10001 1)
                  eq_refl eq_refl)).
Defined.

(** X2: over every sequence of events with finite time stamps, any two
    accepted action keys, adjacent or not, lie outside each other's debounce
    window, and the first lies outside the window of the time stamp the
    listener started with; so of two action keys whose times are within the
    window, the later is never accepted once the earlier was. *)
Theorem accepted_keys_pairwise_spaced
  (st : listener) (events : list listener_event) :
  finite64 (last_action_time st) = true ->
  finite_times events = true ->
  ForallOrdPairs outside_window
    (last_action_time st :: accepted_times st events) /\
  forall before key1 t1 between key2 t2 after,
    events = (before ++ key_pressed key1 t1 :: between
                ++ key_pressed key2 t2 :: after)%list ->
    within_debounce t1 t2 = true ->
    accepted (keyboard_listener st before) (key_pressed key1 t1) = true ->
    accepted (keyboard_listener st
                (before ++ key_pressed key1 t1 :: between)%list)
      (key_pressed key2 t2) = false.
Proof.
  intros Hst Hev.
  assert (Hall : ForallOrdPairs outside_window
            (last_action_time st :: accepted_times st events)).
  { apply spaced_outside.
    - constructor; [exact Hst|]. apply accepted_times_finite. exact Hev.
    - apply accepted_times_spaced. }
  split; [exact Hall|].
  intros before key1 t1 between key2 t2 after Hsplit Hwin Hacc1.
  destruct (accepted _ (key_pressed key2 t2)) eqn:Hacc2; [exfalso|reflexivity].
  inversion Hall as [|? ? _ Hpairs]; subst l a.
  rewrite Hsplit in Hpairs.
  rewrite accepted_times_app in Hpairs.
  cbn [accepted_times] in Hpairs. rewrite Hacc1 in Hpairs.
  rewrite accepted_times_app in Hpairs.
  cbn [accepted_times] in Hpairs.
  change (keyboard_listener
            (listener_step (keyboard_listener st before)
               (key_pressed key1 t1)) between)
    with (keyboard_listener (keyboard_listener st before)
            (key_pressed key1 t1 :: between)) in Hpairs.
  unfold keyboard_listener in Hpairs at 2 3.
  rewrite <- fold_left_app in Hpairs.
  fold (keyboard_listener st (before ++ key_pressed key1 t1 :: between))
    in Hpairs.
  rewrite Hacc2 in Hpairs.
  assert (Hord : forall (pre : list float) x mid y post,
            ForallOrdPairs outside_window
              (pre ++ x :: mid ++ y :: post)%list ->
            outside_window x y).
  { clear. induction pre as [|p pre IH]; intros x mid y post H.
    - inversion H as [|? ? Hx _]; subst.
      rewrite Forall_forall in Hx. apply Hx.
      apply in_or_app. right. left. reflexivity.
    - inversion H; subst. eapply IH; eassumption. }
  destruct (Hord _ _ _ _ _ Hpairs) as [Hout _].
  congruence.
Qed.


Lemma accepted_keys_pairwise_spaced_witness :
  accepted
    (keyboard_listener listener_start
       ([] ++ key_pressed "t" (float_of_Z 1000) :: [])%list)
    (key_pressed "m" (decimal 10001 1)) = false.
Proof.
  apply (proj2 (accepted_keys_pairwise_spaced listener_start
                  [key_pressed "t" (float_of_Z 1000);
                   key_pressed "m" (decimal 10001 1)] eq_refl eq_refl)
           [] "t"%char (float_of_Z 1000) [] "m"%char (decimal 10001 1) []);
    reflexivity.
Defined.

(** A relation that holds of every ordered pair of a list holds of any two
    elements picked in order. *)
Lemma ForallOrdPairs_pick {A : Type} (R : A -> A -> Prop)
  (pre : list A) (x : A) (mid : list A) (y : A) (post : list A) :
  ForallOrdPairs R (pre ++ x :: mid ++ y :: post)%list -> R x y.
Proof.
  induction pre as [|p pre IH]; intros H.
  - inversion H as [|? ? Hx _]; subst.
    rewrite Forall_forall in Hx. apply Hx.
    apply in_or_app. right. left. reflexivity.
  - inversion H; subst. apply IH. assumption.
Qed.

(** Two accepted keys of a sequence have their time stamps, in that order,
    among the accepted times. *)
Lemma accepted_pair_times (st : listener)
  (before : list listener_event) (key1 : ascii) (t1 : float)
  (between : list listener_event) (key2 : ascii) (t2 : float)
  (after : list listener_event) :
  accepted (keyboard_listener st before) (key_pressed key1 t1) = true ->
  accepted (keyboard_listener st
              (before ++ key_pressed key1 t1 :: between)%list)
    (key_pressed key2 t2) = true ->
  exists pre mid post,
    accepted_times st (before ++ key_pressed key1 t1 :: between
                         ++ key_pressed key2 t2 :: after)%list
    = (pre ++ t1 :: mid ++ t2 :: post)%list.
Proof.
  intros Hacc1 Hacc2.
  rewrite accepted_times_app.
  cbn [accepted_times]. rewrite Hacc1.
  rewrite accepted_times_app.
  cbn [accepted_times].
  change (keyboard_listener
            (listener_step (keyboard_listener st before)
               (key_pressed key1 t1)) between)
    with (keyboard_listener (keyboard_listener st before)
            (key_pressed key1 t1 :: between)).
  unfold keyboard_listener at 2 3.
  rewrite <- fold_left_app.
  fold (keyboard_listener st (before ++ key_pressed key1 t1 :: between)).
  rewrite Hacc2.
  eexists _, _, _. reflexivity.
Qed.

(** A finite time stamp that is not below the debounce threshold is a
    multiple of [2 ^ -55] s: floats from 0.125 on are that coarse. *)
Lemma exact_units_granular (t : float) :
  finite64 t = true -> DEBOUNCE_UNITS <= exact_units t ->
  exists k, exact_units t = k * 2 ^ 1019.
Proof.
  intros Hf Hd. pose proof debounce_units_pos as Hpos.
  destruct t as [s|s| |s m e]; try discriminate Hf.
  - unfold exact_units in Hd. cbn [scaled] in Hd. lia.
  - cbn [finite64] in Hf.
    pose proof (bounded_facts m e Hf) as (Dm & Em & _).
    rewrite exact_units_finite in *.
    assert (Hm : Z.pos m < 2 ^ 53).
    { pose proof (Zdigits2_bounds (Z.pos m) ltac:(lia)) as [_ Hhi].
      cbn [Zdigits2] in Hhi.
      eapply Z.lt_le_trans; [exact Hhi|].
      apply Z.pow_le_mono_r; lia. }
    assert (Hp : 0 < 2 ^ (e + 1074)) by (apply Z.pow_pos_nonneg; lia).
    destruct s; cbn [cond_Zopp] in *; [nia|].
    assert (He : -55 <= e).
    { destruct (Z.le_gt_cases (-55) e) as [H|H]; [exact H|exfalso].
      assert (Hle : 2 ^ (e + 1074) <= 2 ^ 1018)
        by (apply Z.pow_le_mono_r; lia).
      unfold DEBOUNCE_UNITS in Hd.
      change (2 ^ 53) with 9007199254740992 in Hm.
      remember (2 ^ 1018) as P eqn:EP in *.
      remember (2 ^ (e + 1074)) as Q eqn:EQ in *.
      nia. }
    exists (Z.pos m * 2 ^ (e + 55)).
    rewrite <- Z.mul_assoc, <- (Z.pow_add_r 2 (e + 55) 1019) by lia.
    do 2 f_equal. lia.
Qed.

(** Between multiples of [2 ^ -55] s, a difference of at least the
    threshold is a difference of at least 0.2 s. *)
Lemma granular_apart (a b : float) :
  (exists k, exact_units a = k * 2 ^ 1019) ->
  (exists k, exact_units b = k * 2 ^ 1019) ->
  DEBOUNCE_UNITS <= exact_units b - exact_units a ->
  at_least_200ms_apart a b.
Proof.
  intros (ka & Ea) (kb & Eb) Hd. unfold at_least_200ms_apart.
  rewrite Ea, Eb in *. unfold DEBOUNCE_UNITS in Hd.
  replace (2 ^ 1019) with (2 * 2 ^ 1018) in * by reflexivity.
  replace (2 ^ 1074) with (72057594037927936 * 2 ^ 1018) by reflexivity.
  assert (HP : 0 < 2 ^ 1018) by (apply Z.pow_pos_nonneg; lia).
  remember (2 ^ 1018) as P eqn:EP in *. clear EP.
  assert (Hk : 7205759403792794 <= kb - ka) by nia.
  nia.
Qed.

Lemma pairwise_apart (times : list float) :
  Forall (fun t => finite64 t = true /\ DEBOUNCE_UNITS <= exact_units t)
    times ->
  ForallOrdPairs outside_window times ->
  ForallOrdPairs at_least_200ms_apart times.
Proof.
  intros Hall Hpairs.
  induction Hpairs as [|t rest Ht Hrest IH]; [constructor|].
  inversion Hall as [|? ? [Hft Hdt] Hall']; subst.
  constructor; [|apply IH; exact Hall'].
  rewrite Forall_forall in *. intros t' Hin.
  destruct (Hall' t' Hin) as [Hft' Hdt'].
  destruct (Ht t' Hin) as [_ Hd].
  apply granular_apart; try assumption;
    apply exact_units_granular; assumption.
Qed.

(** The accepted action keys of the listener from its start, on finite
    time stamps, are pairwise at least 200 ms apart. *)
Lemma accepted_times_apart (events : list listener_event) :
  finite_times events = true ->
  ForallOrdPairs at_least_200ms_apart (accepted_times listener_start events).
Proof.
  intros Hev.
  pose proof (accepted_times_finite events listener_start Hev) as Hfin.
  assert (Hall : ForallOrdPairs outside_window
            (last_action_time listener_start
               :: accepted_times listener_start events)).
  { apply spaced_outside.
    - constructor; [reflexivity|exact Hfin].
    - apply accepted_times_spaced. }
  inversion Hall as [|? ? Hhead Hpairs]; subst.
  apply pairwise_apart; [|exact Hpairs].
  rewrite Forall_forall in *. intros t Hin.
  split; [apply Hfin; exact Hin|].
  destruct (Hhead t Hin) as [_ Hd].
  unfold exact_units at 2 in Hd. cbn [listener_start last_action_time scaled]
    in Hd. lia.
Qed.

(** C6: a key read inside the debounce window of the last accepted action
    changes nothing, so an action-producing key that arrives less than 200 ms
    after the last accepted one is dropped; over every sequence of events,
    each accepted action key lies outside the window of the accepted one
    before it, and the time stamp the listener keeps is always the arrival
    time of the last accepted one.  On finite time stamps, as the clock
    gives them, this holds of any two accepted action keys, adjacent or not:
    they lie outside each other's window by the listener's own float test,
    and for the listener as the program starts it they are at least 200 ms
    apart in exact arithmetic; so of two action keys less than 200 ms apart
    the later is never accepted once the earlier was, and the slot is never
    written twice within 200 ms by action keys. *)
Theorem debounce_spec (st : listener) (events : list listener_event) :
  (forall key now,
     within_debounce (last_action_time st) now = true ->
     listener_step st (key_pressed key now) = st /\
     accepted st (key_pressed key now) = false) /\
  spaced (last_action_time st :: accepted_times st events) = true /\
  last_action_time (keyboard_listener st events)
    = last (accepted_times st events) (last_action_time st) /\
  (finite64 (last_action_time st) = true -> finite_times events = true ->
   ForallOrdPairs outside_window
     (last_action_time st :: accepted_times st events) /\
   forall before key1 t1 between key2 t2 after,
     events = (before ++ key_pressed key1 t1 :: between
                 ++ key_pressed key2 t2 :: after)%list ->
     within_debounce t1 t2 = true ->
     accepted (keyboard_listener st before) (key_pressed key1 t1) = true ->
     accepted (keyboard_listener st
                 (before ++ key_pressed key1 t1 :: between)%list)
       (key_pressed key2 t2) = false) /\
  (finite_times events = true ->
   ForallOrdPairs at_least_200ms_apart
     (accepted_times listener_start events) /\
   forall before key1 t1 between key2 t2 after,
     events = (before ++ key_pressed key1 t1 :: between
                 ++ key_pressed key2 t2 :: after)%list ->
     5 * (exact_units t2 - exact_units t1) < 2 ^ 1074 ->
     accepted (keyboard_listener listener_start before)
       (key_pressed key1 t1) = true ->
     accepted (keyboard_listener listener_start
                 (before ++ key_pressed key1 t1 :: between)%list)
       (key_pressed key2 t2) = false).
Proof.
  split; [|split; [|split; [|split]]].
  - intros key now Hd. split.
    + cbn [listener_step]. destruct (listening st); [|reflexivity].
      apply on_key_debounced. exact Hd.
    + cbn [accepted]. rewrite Hd. cbn [negb]. apply andb_false_r.
  - apply accepted_times_spaced.
  - revert st. induction events as [|ev rest IH]; intros st; [reflexivity|].
    cbn [keyboard_listener fold_left accepted_times].
    fold (keyboard_listener (listener_step st ev) rest).
    rewrite IH.
    destruct (accepted st ev) eqn:Hacc.
    + destruct ev as [| | |e|key now|]; try discriminate Hacc.
      cbn [accepted] in Hacc.
      apply andb_prop in Hacc as [Hacc Hd].
      apply andb_prop in Hacc as [Hl Hk].
      apply negb_true_iff in Hd.
      cbn [listener_step]. rewrite Hl.
      destruct (on_key_accepted st key now Hd Hk) as (Ht & _).
      rewrite Ht. symmetry. apply last_cons.
    + rewrite (listener_step_not_accepted st ev Hacc).
      destruct ev; reflexivity.
  - intros Hst Hev.
    assert (Hall : ForallOrdPairs outside_window
              (last_action_time st :: accepted_times st events)).
    { apply spaced_outside.
      - constructor; [exact Hst|]. apply accepted_times_finite. exact Hev.
      - apply accepted_times_spaced. }
    split; [exact Hall|].
    intros before key1 t1 between key2 t2 after Hsplit Hwin Hacc1.
    destruct (accepted _ (key_pressed key2 t2)) eqn:Hacc2;
      [exfalso|reflexivity].
    destruct (accepted_pair_times st before key1 t1 between key2 t2 after
                Hacc1 Hacc2) as (pre & mid & post & Et).
    inversion Hall as [|? ? _ Hpairs]; subst l a.
    rewrite Hsplit, Et in Hpairs.
    destruct (ForallOrdPairs_pick _ _ _ _ _ _ Hpairs) as [Hout _].
    congruence.
  - intros Hev.
    pose proof (accepted_times_apart events Hev) as Hall.
    split; [exact Hall|].
    intros before key1 t1 between key2 t2 after Hsplit Hnear Hacc1.
    destruct (accepted _ (key_pressed key2 t2)) eqn:Hacc2;
      [exfalso|reflexivity].
    destruct (accepted_pair_times listener_start before key1 t1 between
                key2 t2 after Hacc1 Hacc2) as (pre & mid & post & Et).
    rewrite Hsplit, Et in Hall.
    pose proof (ForallOrdPairs_pick _ _ _ _ _ _ Hall) as Hfar.
    unfold at_least_200ms_apart in Hfar. lia.
Qed.

Lemma debounce_spec_witness :
  accepted
    (keyboard_listener listener_start
       ([] ++ key_pressed "T" (float_of_Z 1000) :: [])%list)
    (key_pressed "r" (decimal 10001 1)) = false.
Proof.
  apply (proj2 (proj2 (proj2 (proj2 (proj2
           (debounce_spec listener_start
              [key_pressed "T" (float_of_Z 1000);
               key_pressed "r" (decimal 10001 1)])))) eq_refl)
           [] "T"%char (float_of_Z 1000) [] "r"%char (decimal 10001 1) []);
    reflexivity.
Defined.

(** * Further properties of the listener and the session *)

Lemma upper_facts (key : ascii) :
  upper (upper key) = upper key /\
  Ascii.eqb (upper key) ESC = Ascii.eqb key ESC /\
  Ascii.eqb (upper key) CTRL_C = Ascii.eqb key CTRL_C.
Proof.
  destruct key as [[] [] [] [] [] [] [] []]; repeat split.
Qed.

(** X3: the listener treats a key and its upper case alike: the step and
    the decision to accept are the same for [t] and [T], [r] and [R], [m]
    and [M], and for every other character. *)
Theorem keys_are_case_insensitive
  (st : listener) (key : ascii) (now : float) :
  listener_step st (key_pressed (upper key) now)
    = listener_step st (key_pressed key now) /\
  accepted st (key_pressed (upper key) now)
    = accepted st (key_pressed key now).
Proof.
  destruct (upper_facts key) as (Hu & He & Hc).
  split.
  - cbn [listener_step]. destruct (listening st); [|reflexivity].
    unfold on_key. rewrite Hu, He, Hc. reflexivity.
  - cbn [accepted]. unfold action_key. rewrite Hu. reflexivity.
Qed.

Lemma listener_step_stopped (st : listener) (ev : listener_event) :
  listening st = false -> ev <> action_fetched ->
  listener_step st ev = st.
Proof.
  intros Hl Hev. destruct st as [p t l]. cbn [listening] in Hl. subst l.
  destruct ev; try reflexivity. contradiction.
Qed.

(** Once [listening] is off, no event but the session's fetch changes
    anything. *)
Lemma stopped_listener_silent
  (st : listener) (events : list listener_event) :
  listening st = false ->
  accepted_times st events = [] /\
  listening (keyboard_listener st events) = false /\
  last_action_time (keyboard_listener st events) = last_action_time st /\
  (Forall (fun ev => ev <> action_fetched) events ->
   keyboard_listener st events = st) /\
  (In action_fetched events \/ pending (keyboard_listener st events)
                               = pending st).
Proof.
  revert st. induction events as [|ev rest IH]; intros st Hl.
  - split; [reflexivity|]. split; [exact Hl|]. split; [reflexivity|].
    split; [intros _; reflexivity|right; reflexivity].
  - assert (Hstep : listening (listener_step st ev) = false /\
                    last_action_time (listener_step st ev)
                      = last_action_time st /\
                    accepted st ev = false).
    { destruct ev; cbn [listener_step accepted listening last_action_time];
        rewrite ?Hl; repeat split. }
    destruct Hstep as (Hl' & Ht' & Ha').
    destruct (IH _ Hl') as (A & L & T & F & P).
    cbn [accepted_times keyboard_listener fold_left].
    fold (keyboard_listener (listener_step st ev) rest).
    rewrite Ha'.
    split; [destruct ev; exact A|]. split; [exact L|].
    split; [congruence|]. split.
    + intros Hall. inversion Hall as [|? ? Hev Hrest]; subst.
      rewrite (listener_step_stopped st ev Hl Hev) in *.
      apply F. exact Hrest.
    + destruct ev; try (destruct P as [P|P]; [left; right; exact P|];
                        right; rewrite P; cbn [listener_step];
                        rewrite ?Hl; reflexivity).
      left. left. reflexivity.
Qed.

(** X4: the four ways out of the listener's loop, and what follows.  A
    stop request, the end of the input, and an ESC or a Ctrl-C read outside
    the debounce window each end the thread: an exit key publishes its
    action first, without touching the time stamp.  Whatever is typed
    afterwards, T, R and M included, is never accepted and changes neither
    the slot nor the time stamp; the action in the slot stays there until
    the session fetches it. *)
Theorem listener_ends_and_stays_silent
  (st : listener) (ev : listener_event) (later : list listener_event) :
  listening st = true ->
  (ev = stop_requested \/ ev = end_of_input \/
   exists key now,
     ev = key_pressed key now /\ exit_key key = true /\
     within_debounce (last_action_time st) now = false) ->
  let st1 := listener_step st ev in
  listening st1 = false /\
  last_action_time st1 = last_action_time st /\
  pending st1
  = match ev with
    | key_pressed key _ =>
        Some (if Ascii.eqb key ESC then exit_esc else exit_ctrl_c)
    | _ => pending st
    end /\
  accepted_times st (ev :: later) = [] /\
  last_action_time (keyboard_listener st (ev :: later))
    = last_action_time st /\
  (Forall (fun e => e <> action_fetched) later ->
   keyboard_listener st (ev :: later) = st1) /\
  (In action_fetched later \/
   pending (keyboard_listener st (ev :: later)) = pending st1).
Proof.
  intros Hl Hev st1.
  assert (Hstep : listening st1 = false /\
                  last_action_time st1 = last_action_time st /\
                  pending st1
                  = match ev with
                    | key_pressed key _ =>
                        Some (if Ascii.eqb key ESC then exit_esc
                              else exit_ctrl_c)
                    | _ => pending st
                    end /\
                  accepted st ev = false).
  { subst st1.
    destruct Hev as [-> | [-> | (key & now & -> & Hk & Hd)]];
      [repeat split|repeat split|].
    cbn [listener_step accepted]. rewrite Hl, Hd.
    unfold on_key. unfold within_debounce in Hd. rewrite Hd.
    unfold exit_key in Hk. apply orb_prop in Hk as [Hk | Hk];
      apply Ascii.eqb_eq in Hk; subst key; repeat split. }
  destruct Hstep as (Hl1 & Ht1 & Hp1 & Ha).
  destruct (stopped_listener_silent st1 later Hl1) as (A & _ & T & F & P).
  cbn [accepted_times keyboard_listener fold_left].
  fold (keyboard_listener (listener_step st ev) later). fold st1.
  rewrite Ha.
  split; [exact Hl1|]. split; [exact Ht1|]. split; [exact Hp1|].
  split; [destruct ev; exact A|].
  split; [congruence|]. split; [exact F|exact P].
Qed.

Lemma listener_ends_and_stays_silent_witness :
  keyboard_listener listener_start
    [key_pressed ESC (float_of_Z 1000); key_pressed "t" (float_of_Z 2000);
     select_timeout]
  = {| pending := Some exit_esc; last_action_time := S754_zero false;
       listening := false |}.
Proof.
  refine (proj1 (proj2 (proj2 (proj2 (proj2 (proj2
            (listener_ends_and_stays_silent listener_start
               (key_pressed ESC (float_of_Z 1000))
               [key_pressed "t" (float_of_Z 2000); select_timeout]
               eq_refl _)))))) _).
  - right. right. exists ESC, (float_of_Z 1000).
    split; [reflexivity|]. split; reflexivity.
  - repeat constructor; discriminate.
Defined.

Lemma apply_action_ok (s s1 : session) (a : option action) :
  session_ok s -> apply_action s a = Some s1 -> session_ok s1.
Proof.
  intros (Hz & Ho & Hr) Ha.
  destruct a as [[]|]; simpl in Ha; inversion Ha; subst;
    unfold session_ok; cbn [absolute_zero current_offset current_raw]; auto.
Qed.


Lemma byte_value_of (v : Z) : 0 <= v < 256 -> byte_value (byte_of v) = v.
Proof.
  intros Hv. unfold byte_value, byte_of.
  destruct (Byte.of_N (Z.to_N v)) as [b|] eqn:E.
  - apply Byte.to_of_N in E. rewrite E. lia.
  - apply Byte.of_N_None_iff in E. lia.
Qed.

(** X14: decoding is the inverse of writing a raw value big-endian at
    offsets 6 and 7: every unsigned 16-bit value is read back from a frame
    that carries it there, whatever the six bytes before and the bytes
    after; so two frames of at least 8 bytes that agree at offsets 6 and 7
    decode alike. *)
Theorem get_raw_weight_round_trip (header trailer : bytes) (raw : Z) :
  List.length header = 6%nat -> is_uint16 raw ->
  get_raw_weight (frame_of header raw trailer) = Ok raw /\
  forall other : bytes,
    (8 <= List.length other)%nat ->
    nth_error other 6 = Some (byte_of (raw / 256)) ->
    nth_error other 7 = Some (byte_of (raw mod 256)) ->
    get_raw_weight other = Ok raw.
Proof.
  intros Hlen Hraw. unfold is_uint16 in Hraw.
  assert (Hhi : 0 <= raw / 256 < 256).
  { split; [apply Z.div_pos; lia|apply Z.div_lt_upper_bound; lia]. }
  assert (Hlo : 0 <= raw mod 256 < 256) by (apply Z.mod_pos_bound; lia).
  assert (Hgen : forall other : bytes,
    (8 <= List.length other)%nat ->
    nth_error other 6 = Some (byte_of (raw / 256)) ->
    nth_error other 7 = Some (byte_of (raw mod 256)) ->
    get_raw_weight other = Ok raw).
  { intros other Hl H6 H7.
    destruct (get_raw_weight_frames other) as (_ & Hlong).
    destruct (Hlong Hl) as (high & low & Eh & El & Ev & _).
    rewrite H6 in Eh. rewrite H7 in El.
    injection Eh as <-. injection El as <-.
    rewrite Ev, !byte_value_of by assumption.
    f_equal. pose proof (Z.div_mod raw 256). lia. }
  split; [|exact Hgen].
  apply Hgen; unfold frame_of.
  - rewrite !length_app. cbn [List.length]. lia.
  - rewrite nth_error_app2 by lia. rewrite Hlen. reflexivity.
  - rewrite nth_error_app2 by lia. rewrite Hlen. reflexivity.
Qed.

Lemma get_raw_weight_round_trip_witness :
  get_raw_weight
    (frame_of [Byte.x03; Byte.x00; Byte.x00; Byte.x00; Byte.x00; Byte.x00]
       300 [Byte.xff]) = Ok 300.
Proof.
  refine (proj1 (get_raw_weight_round_trip
                   [Byte.x03; Byte.x00; Byte.x00; Byte.x00; Byte.x00; Byte.x00]
                   [Byte.xff] 300 eq_refl _)).
  unfold is_uint16. lia.
Defined.

Lemma run_loop_pass_effects (ticks : list tick) : forall s,
  forallb pass_effect (fst (fst (run_loop s ticks))) = true.
Proof.
  induction ticks as [|t rest IH]; intros s; [reflexivity|].
  cbn [run_loop]. unfold session_step.
  destruct (interrupted t); [reflexivity|].
  destruct (apply_action s (fetched t)) as [s1|]; [|reflexivity].
  assert (Hp : forallb pass_effect (snd (poll_device s1 (device_read t)))
               = true).
  { unfold poll_device.
    destruct (device_read t) as [[|b d]|e]; try reflexivity.
    destruct (get_raw_weight (b :: d)); [|reflexivity].
    destruct (status_line _); reflexivity. }
  destruct (poll_device s1 (device_read t)) as [s2 o]. cbn [snd] in Hp.
  specialize (IH s2).
  destruct (run_loop s2 rest) as [[out' final] has_left].
  cbn [fst] in *. rewrite !forallb_app, Hp, IH. reflexivity.
Qed.

Lemma pass_effects_only (l : list effect) :
  forallb pass_effect l = true ->
  existsb closes_device l = false /\
  existsb stops_listener l = false /\
  existsb starts_listener l = false.
Proof.
  induction l as [|e l IH]; [repeat split|].
  cbn [forallb existsb]. intros H. apply andb_prop in H as [He Hl].
  destruct (IH Hl) as (A & B & C). rewrite A, B, C.
  destruct e as [| |r|r|r| | | | |]; try discriminate He; repeat split.
Qed.

Lemma existsb_app_false {A : Type} (p : A -> bool) (a b : list A) :
  existsb p a = false -> existsb p b = false ->
  existsb p (a ++ b)%list = false.
Proof. intros Ha Hb. rewrite existsb_app, Ha, Hb. reflexivity. Qed.

Lemma connect_scale_log (h : hid_world) :
  existsb closes_device (snd (connect_scale h)) = false /\
  existsb stops_listener (snd (connect_scale h)) = false /\
  existsb starts_listener (snd (connect_scale h)) = false.
Proof.
  unfold connect_scale.
  destruct (enumerate_raises h); [repeat split|].
  destruct (enumerated h); [repeat split|].
  destruct (open_path_raises h); [repeat split|].
  destruct (get_manufacturer_string_raises h); repeat split.
Qed.

(** The order of the teardown: what [main] closes and stops, by what
    [connect_scale] returned. *)
Lemma main_teardown (w : world) :
  (snd (main w) = running ->
     existsb closes_device (fst (main w)) = false /\
     existsb stops_listener (fst (main w)) = false) /\
  (fst (connect_scale (hid w)) = None ->
     snd (main w) = returned /\
     existsb closes_device (fst (main w)) = false /\
     existsb starts_listener (fst (main w)) = false) /\
  (fst (connect_scale (hid w)) <> None -> snd (main w) <> running ->
     exists before,
       fst (main w) = (before ++ close_device)%list /\
       existsb closes_device before = false /\
       (existsb starts_listener before = true ->
        exists earlier,
          before = (earlier ++ [stop_listener])%list /\
          existsb stops_listener earlier = false)).
Proof.
  unfold main.
  destruct (connect_scale_log (hid w)) as (Lc & Ls & Lt).
  destruct (connect_scale (hid w)) as [[[]|] log]; cbn [fst snd] in *.
  - (* the device is open *)
    pose proof (run_loop_pass_effects (ticks w)) as Hloop.
    destruct (initial_read w) as [[|b data]|e].
    + split; [discriminate|]. split; [discriminate|].
      intros _ _. exists (log ++ [log_error initial_read_failed])%list.
      cbn [fst snd]. split; [rewrite <- app_assoc; reflexivity|].
      split; [apply existsb_app_false; [exact Lc|reflexivity]|].
      rewrite existsb_app, Lt. discriminate.
    + destruct (get_raw_weight (b :: data)) as [zero|e].
      * specialize (Hloop {| absolute_zero := zero; current_offset := zero;
                             current_raw := zero; is_metric := false |}).
        destruct (run_loop _ (ticks w)) as [[out final] has_left].
        cbn [fst] in Hloop.
        destruct (pass_effects_only out Hloop) as (Oc & Os & Ot).
        destruct has_left; cbn [fst snd].
        -- split; [discriminate|]. split; [discriminate|].
           intros _ _.
           exists ((log ++ show_help_message
                      ++ [start_listener; set_nonblocking])
                     ++ out ++ [stop_listener])%list.
           split; [rewrite <- !app_assoc; reflexivity|].
           split.
           ++ rewrite !existsb_app, Lc, Oc. reflexivity.
           ++ intros _.
              exists ((log ++ show_help_message
                         ++ [start_listener; set_nonblocking]) ++ out)%list.
              split; [rewrite <- !app_assoc; reflexivity|].
              rewrite !existsb_app, Ls, Os. reflexivity.
        -- split.
           ++ intros _. split.
              ** rewrite !existsb_app, Lc, Oc. reflexivity.
              ** rewrite !existsb_app, Ls, Os. reflexivity.
           ++ split; [discriminate|]. intros _ H. contradiction.
      * split; [discriminate|]. split; [discriminate|].
        intros _ _. exists log. cbn [fst snd].
        split; [reflexivity|]. split; [exact Lc|].
        rewrite Lt. discriminate.
    + split; [discriminate|]. split; [discriminate|].
      intros _ _. exists log. cbn [fst snd].
      split; [reflexivity|]. split; [exact Lc|].
      rewrite Lt. discriminate.
  - split; [discriminate|]. split.
    + intros _. split; [reflexivity|].
      split; apply existsb_app_false; try assumption; reflexivity.
    + intros H. contradiction.
Qed.

(** X11: [main] closes the stream on every path on which [connect_scale]
    returned it and [main] has ended, exactly once and as the last thing but
    the log line and the final newline; when the listener was started it is
    stopped first.  While the loop runs nothing is closed or stopped.  When
    [connect_scale] returns [None], [main] returns without closing anything.
    So a device that [open_path] opened is closed when [main] ends, except on
    one path: when [get_manufacturer_string] raises on the opened device,
    [connect_scale] returns [None] and the open device is never closed. *)
Theorem stream_closed_unless_connect_fails_after_open (w : world) :
  (snd (main w) = running ->
     existsb closes_device (fst (main w)) = false /\
     existsb stops_listener (fst (main w)) = false) /\
  (fst (connect_scale (hid w)) = None ->
     snd (main w) = returned /\
     existsb closes_device (fst (main w)) = false /\
     existsb starts_listener (fst (main w)) = false) /\
  (fst (connect_scale (hid w)) <> None -> snd (main w) <> running ->
     exists before,
       fst (main w) = (before ++ close_device)%list /\
       existsb closes_device before = false /\
       (existsb starts_listener before = true ->
        exists earlier,
          before = (earlier ++ [stop_listener])%list /\
          existsb stops_listener earlier = false)) /\
  (device_opened (hid w) = true -> snd (main w) <> running ->
     existsb closes_device (fst (main w))
     = match get_manufacturer_string_raises (hid w) with
       | Some _ => false
       | None => true
       end) /\
  (device_opened (hid w) = true ->
   get_manufacturer_string_raises (hid w) <> None ->
     fst (connect_scale (hid w)) = None /\ snd (main w) = returned) /\
  (device_opened (hid w) = false ->
     existsb closes_device (fst (main w)) = false).
Proof.
  destruct (main_teardown w) as (H1 & H2 & H3).
  split; [exact H1|]. split; [exact H2|]. split; [exact H3|].
  unfold device_opened.
  destruct (enumerate_raises (hid w)) as [e0|] eqn:E0;
    [|destruct (enumerated (hid w)) as [|path paths] eqn:E1;
      [|destruct (open_path_raises (hid w)) as [e1|] eqn:E2]];
    try (split; [discriminate|]; split; [discriminate|];
         intros _; apply H2; unfold connect_scale;
         rewrite ?E0, ?E1, ?E2; reflexivity).
  destruct (get_manufacturer_string_raises (hid w)) as [e2|] eqn:E3.
  - assert (Hc : fst (connect_scale (hid w)) = None)
      by (unfold connect_scale; rewrite E0, E1, E2, E3; reflexivity).
    split; [intros _ _; apply (H2 Hc)|].
    split; [|discriminate].
    intros _ _. split; [exact Hc|apply (H2 Hc)].
  - assert (Hc : fst (connect_scale (hid w)) <> None)
      by (unfold connect_scale; rewrite E0, E1, E2, E3; discriminate).
    split; [|split; [|discriminate]].
    + intros _ Hend. destruct (H3 Hc Hend) as (before & Eb & _).
      rewrite Eb, existsb_app. apply orb_true_r.
    + intros _ H. contradiction.
Qed.

Lemma stream_closed_unless_connect_fails_after_open_witness :
  let w := {| hid := {| enumerate_raises := None;
                        enumerated := ["usb-1"%string];
                        open_path_raises := None;
                        get_manufacturer_string_raises := Some OSError;
                        manufacturer_string := EmptyString |};
              initial_read := read_data [];
              ticks := [] |} in
  device_opened (hid w) = true /\
  main w = ([log_debug (open_failed OSError); print error_message],
            returned) /\
  existsb closes_device (fst (main w)) = false.
Proof.
  split; [reflexivity|]. split; [reflexivity|].
  apply (proj1 (proj2 (proj2 (proj2
           (stream_closed_unless_connect_fails_after_open
              {| hid := {| enumerate_raises := None;
                           enumerated := ["usb-1"%string];
                           open_path_raises := None;
                           get_manufacturer_string_raises := Some OSError;
                           manufacturer_string := EmptyString |};
                 initial_read := read_data [];
                 ticks := [] |}))))
           eq_refl ltac:(discriminate)).
Defined.

(** X12: at start-up an unusable first read is not skipped as it is in the
    loop: when the first read raises, or brings between 1 and 7 bytes so that
    decoding raises [ValueError], [main] closes the device and the exception
    escapes; the help text is not printed and the listener is not started. *)
Theorem unusable_first_read_is_fatal (w : world) :
  enumerated (hid w) <> [] -> open_raises (hid w) = None ->
  (forall e,
     initial_read w = read_raises e ->
     main w = ((log_info (opened (manufacturer_string (hid w)))
                :: close_device)%list, raised e)) /\
  (forall data,
     initial_read w = read_data data ->
     data <> [] -> (List.length data < 8)%nat ->
     main w = ((log_info (opened (manufacturer_string (hid w)))
                :: close_device)%list, raised ValueError)).
Proof.
  intros He Ho.
  assert (Hc : connect_scale (hid w)
               = (Some tt, [log_info (opened (manufacturer_string (hid w)))])).
  { apply connect_scale_cases; assumption. }
  split.
  - intros e Hr. unfold main. rewrite Hc, Hr. reflexivity.
  - intros data Hr Hne Hlen. unfold main. rewrite Hc, Hr.
    destruct data as [|b data]; [contradiction|].
    destruct (get_raw_weight_frames (b :: data)) as (Hshort & _).
    rewrite (Hshort Hlen). reflexivity.
Qed.

Lemma unusable_first_read_is_fatal_witness :
  main {| hid := {| enumerate_raises := None; enumerated := ["path"];
                    open_path_raises := None;
                    get_manufacturer_string_raises := None;
                    manufacturer_string := "RadioShack" |};
          initial_read := read_data [Byte.x01; Byte.x02];
          ticks := [] |}
  = ((log_info (opened "RadioShack") :: close_device)%list,
     raised ValueError).
Proof.
  refine (proj2 (unusable_first_read_is_fatal
                   {| hid := {| enumerate_raises := None; enumerated := ["path"];
                                open_path_raises := None;
                                get_manufacturer_string_raises := None;
                                manufacturer_string := "RadioShack" |};
                      initial_read := read_data [Byte.x01; Byte.x02];
                      ticks := [] |} _ eq_refl)
            [Byte.x01; Byte.x02] eq_refl _ _).
  - discriminate.
  - discriminate.
  - simpl. lia.
Defined.

(** X9: after a tare, a frame that carries the raw value tared at shows a
    zero weight and a zero delta: the pass sets the offset to the raw value
    and writes the status line of 0.00 oz, or of 0.0 g in metric mode,
    with raw delta 0. *)
Theorem tare_zeroes_the_display (s : session) (data : bytes) :
  get_raw_weight data = Ok (current_raw s) ->
  session_step s {| interrupted := false; fetched := Some tare;
                    device_read := read_data data |}
  = continue
      {| absolute_zero := absolute_zero s;
         current_offset := current_raw s;
         current_raw := current_raw s;
         is_metric := is_metric s |}
      [stdout_write
         (status_text (if is_metric s then "0.0 g" else "0.00 oz") 0);
       sleep].
Proof.
  intros Hraw. unfold session_step.
  cbn [interrupted fetched device_read apply_action].
  unfold poll_device.
  destruct data as [|b data]; [discriminate Hraw|].
  rewrite Hraw. unfold status_line, set_current_raw.
  cbn [current_raw current_offset is_metric absolute_zero].
  rewrite get_calibrated_weight_diag, Z.sub_diag. cbn [bind].
  destruct (is_metric s); reflexivity.
Qed.

Lemma tare_zeroes_the_display_witness :
  session_step
    {| absolute_zero := 100; current_offset := 100; current_raw := 300;
       is_metric := false |}
    {| interrupted := false; fetched := Some tare;
       device_read :=
         read_data [Byte.x00; Byte.x00; Byte.x00; Byte.x00; Byte.x00;
                    Byte.x00; Byte.x01; Byte.x2c] |}
  = continue
      {| absolute_zero := 100; current_offset := 300; current_raw := 300;
         is_metric := false |}
      [stdout_write (status_text "0.00 oz" 0); sleep].
Proof.
  apply (tare_zeroes_the_display
           {| absolute_zero := 100; current_offset := 100;
              current_raw := 300; is_metric := false |}).
  reflexivity.
Defined.

(** * Display arithmetic, exactly, and the shape of a run *)

Lemma display_sign_of_negated (w : float) :
  flt (SFopp w) NEGATIVE_DISPLAY_THRESHOLD = true ->
  display_sign (SFopp w) = "-" /\ display_sign w = EmptyString.
Proof.
  unfold display_sign. intros H. rewrite H. split; [reflexivity|].
  destruct w as [s|s| |s m e]; try discriminate H; destruct s;
    try discriminate H; reflexivity.
Qed.

(** X7: a weight and its negation show the same magnitude: when the
    negated weight is below -0.01, its display is the display of the weight
    itself with a minus sign in front (and it raises when that raises). *)
Theorem negated_weight_shows_same_magnitude
  (weight_oz : float) (is_metric : bool) :
  flt (SFopp weight_oz) NEGATIVE_DISPLAY_THRESHOLD = true ->
  format_weight_display (SFopp weight_oz) is_metric
  = text <- format_weight_display weight_oz is_metric ;;
    Ok (String "-" text).
Proof.
  intros H. destruct (display_sign_of_negated weight_oz H) as [Hn Hp].
  rewrite !format_weight_display_refines. unfold format_display.
  rewrite Hn, Hp.
  replace (SFabs (SFopp weight_oz)) with (SFabs weight_oz)
    by (destruct weight_oz; reflexivity).
  destruct (display_magnitude (SFabs weight_oz) is_metric); reflexivity.
Qed.

Lemma negated_weight_shows_same_magnitude_witness :
  format_weight_display (SFopp (float_of_Z 20)) false
  = text <- format_weight_display (float_of_Z 20) false ;;
    Ok (String "-" text).
Proof.
  apply (negated_weight_shows_same_magnitude (float_of_Z 20) false).
  reflexivity.
Defined.

(** X6: which weights [format_weight_display] can render.  In metric mode
    it returns a text for every float.  In imperial mode it returns a text
    for every finite weight and for NaN, and raises [ValueError] for the
    two infinities, whose whole pounds are not a number. *)
Theorem format_weight_display_errors (weight_oz : float) :
  (exists text, format_weight_display weight_oz true = Ok text) /\
  match weight_oz with
  | S754_infinity _ =>
      format_weight_display weight_oz false = Raise ValueError
  | S754_nan => format_weight_display weight_oz false = Ok "nan oz"
  | _ =>
      finite64 weight_oz = true ->
      exists text, format_weight_display weight_oz false = Ok text
  end.
Proof.
  split.
  - unfold format_weight_display.
    destruct (py_float_ge_int _ GRAMS_PER_KILOGRAM).
    + unfold py_float_div_int. rewrite thousand_fields. cbn [bind].
      eexists. reflexivity.
    + eexists. reflexivity.
  - destruct weight_oz as [s|s| |s m e].
    + intros _. destruct s; eexists; reflexivity.
    + destruct s; reflexivity.
    + reflexivity.
    + intros Hf.
      destruct (format_weight_display_total (S754_finite s m e) false Hf)
        as (body & _ & E & _).
      eexists. exact E.
Qed.

Lemma format_weight_display_errors_witness :
  exists text, format_weight_display (float_of_Z 20) false = Ok text.
Proof.
  apply (proj2 (format_weight_display_errors (float_of_Z 20))).
  reflexivity.
Defined.

Lemma binary_round_aux_opp (s : bool) (m e : Z) (l : location) :
  SFopp (binary_round_aux prec emax s m e l)
  = binary_round_aux prec emax (negb s) m e l.
Proof.
  unfold binary_round_aux.
  destruct (shr_fexp prec emax m e l) as [mrs' e'].
  destruct (shr_fexp prec emax _ e' loc_Exact) as [mrs'' e''].
  destruct (shr_m mrs''); try reflexivity.
  destruct (e'' <=? emax - prec); reflexivity.
Qed.

Lemma float_of_Z_opp (n : Z) :
  n <> 0 -> float_of_Z (- n) = SFopp (float_of_Z n).
Proof.
  intros Hn. unfold float_of_Z.
  destruct n as [|p|p]; [contradiction| |];
    cbn [Z.opp binary_normalize]; unfold binary_round;
    destruct (shl_align p 0 _) as [mz ez];
    rewrite binary_round_aux_opp; reflexivity.
Qed.

Lemma fmul_opp_positive (x : float) (m : positive) (e : Z) :
  fmul (SFopp x) (S754_finite false m e)
  = SFopp (fmul x (S754_finite false m e)).
Proof.
  destruct x as [s|s| |s mx ex]; try (destruct s; reflexivity);
    try reflexivity.
  unfold fmul. cbn [SFopp SFmul]. rewrite binary_round_aux_opp.
  destruct s; reflexivity.
Qed.

(** X15: exchanging the raw value and the offset negates the calibrated
    weight, exactly: for distinct integers [get_calibrated_weight o r] is
    the negation of [get_calibrated_weight r o], and raises when that
    raises. *)
Theorem get_calibrated_weight_antisymmetric (r o : Z) :
  r <> o ->
  get_calibrated_weight o r
  = w <- get_calibrated_weight r o ;; Ok (SFopp w).
Proof.
  intros Hne. unfold get_calibrated_weight, py_float_of_int.
  replace (o - r) with (- (r - o)) by lia.
  rewrite float_of_Z_opp by lia.
  change WEIGHT_CALIBRATION_MULTIPLIER
    with (S754_finite false 7413285274622026 (-59)).
  destruct (float_of_Z (r - o)) as [s|s| |s m e] eqn:E;
    cbn [SFopp bind]; try reflexivity;
    rewrite <- fmul_opp_positive; reflexivity.
Qed.

Lemma get_calibrated_weight_antisymmetric_witness :
  get_calibrated_weight 100 300
  = w <- get_calibrated_weight 300 100 ;; Ok (SFopp w).
Proof.
  apply (get_calibrated_weight_antisymmetric 300 100). lia.
Defined.

Lemma calibrated_sign (d : Z) :
  Z.abs d < 2 ^ 53 ->
  flt (fmul (float_of_Z d) WEIGHT_CALIBRATION_MULTIPLIER)
      NEGATIVE_DISPLAY_THRESHOLD
  = (d <? 0).
Proof.
  intros Hd.
  destruct (Z.eq_dec d 0) as [->|Hnz]; [reflexivity|].
  destruct (Z.eq_dec d (-1)) as [->|Hn1]; [reflexivity|].
  destruct (float_of_Z_small d Hnz Hd) as (m & e & E & Hb & Dm & He & Hm).
  rewrite E.
  destruct (Z.ltb_spec d 0) as [Hneg|Hpos].
  - (* at least two counts below the offset: the product keeps an exponent
       above that of the threshold *)
    assert (He' : -51 <= e).
    { pose proof (Zdigits2_bounds (Z.pos m) ltac:(lia)) as [_ Hhi].
      cbn [Zdigits2] in Hhi. rewrite Dm in Hhi.
      destruct (Z.eq_dec e (-52)) as [->|]; [|lia].
      exfalso. change (- -52) with 52 in Hm.
      assert (2 * 2 ^ 52 <= Z.abs d * 2 ^ 52)
        by (apply Z.mul_le_mono_nonneg_r; lia).
      change (2 ^ 53) with (2 * 2 ^ 52) in Hhi. lia. }
    change WEIGHT_CALIBRATION_MULTIPLIER
      with (S754_finite false 7413285274622026 (-59)).
    unfold fmul. cbn [SFmul xorb].
    pose proof (Zdigits2_mul (Z.pos m) 7413285274622026
                  ltac:(lia) ltac:(lia)) as [Hlo Hhi].
    change (Zdigits2 7413285274622026) with 53 in Hlo, Hhi.
    change (Z.pos m * 7413285274622026)
      with (Z.pos (m * 7413285274622026)) in Hlo, Hhi.
    cbn [Zdigits2] in Hlo, Hhi. rewrite Dm in Hlo, Hhi.
    assert (H1 : 0 < Z.pos (m * 7413285274622026)) by lia.
    assert (H2 : e + -59
                 <= fexp64 (Zdigits2 (Z.pos (m * 7413285274622026))
                            + (e + -59))).
    { rewrite fexp_unfold, emin_value. cbn [Zdigits2]. unfold prec. lia. }
    assert (H3 : Zdigits2 (Z.pos (m * 7413285274622026)) + (e + -59) < emax).
    { cbn [Zdigits2]. unfold emax. lia. }
    destruct (binary_round_aux_finite true _ _ loc_Exact H1 H2 H3)
      as [[_ Hz]|(m' & e' & E' & _ & Hf)].
    + exfalso. cbn [Zdigits2] in Hz. rewrite emin_value in Hz.
      unfold prec in Hz. lia.
    + rewrite E'.
      rewrite fexp_unfold, emin_value in Hf. cbn [Zdigits2] in Hf.
      unfold prec in Hf.
      assert (He2 : -59 < e') by lia.
      unfold flt, SFltb, NEGATIVE_DISPLAY_THRESHOLD. cbn [SFcompare].
      apply Z.compare_gt_iff in He2. rewrite He2. reflexivity.
  - destruct (fmul_calibration (S754_finite (d <? 0) m e) Hb)
      as (Hfin & Hsign & _).
    replace (d <? 0) with false in * by (symmetry; apply Z.ltb_ge; lia).
    cbn [sign_bit] in Hsign.
    destruct (fmul _ WEIGHT_CALIBRATION_MULTIPLIER) as [s|s| |s m' e'];
      try discriminate Hfin; cbn [sign_bit] in Hsign; subst s; reflexivity.
Qed.

Lemma leading_minus_py_str_int (n : Z) :
  leading_minus (py_str_int n) = (n <? 0).
Proof.
  unfold py_str_int.
  destruct (Z.ltb_spec n 0) as [Hn|Hn].
  - reflexivity.
  - apply leading_minus_occurs.
    pose proof (py_str_int_minus n Hn) as H.
    unfold py_str_int in H.
    replace (n <? 0) with false in H by (symmetry; apply Z.ltb_ge; lia).
    exact H.
Qed.

(** X8: the sign on the status line.  For 16-bit raw value and offset the
    displayed weight starts with a minus sign exactly when the raw value is
    below the offset, and so exactly when the raw difference printed beside
    it does: one count is already more than 0.01 oz. *)
Theorem status_line_sign_follows_raw_difference (s : session) :
  is_uint16 (current_raw s) -> is_uint16 (current_offset s) ->
  exists display,
    status_line s
      = Ok (status_text display (current_raw s - current_offset s)) /\
    leading_minus display = (current_raw s <? current_offset s) /\
    leading_minus (py_str_int (current_raw s - current_offset s))
      = leading_minus display.
Proof.
  intros Hr Ho.
  destruct (status_line_total s Hr Ho) as (w & display & Ew & Ed & Es).
  exists display. split; [exact Es|].
  assert (Hw : flt w NEGATIVE_DISPLAY_THRESHOLD
               = (current_raw s - current_offset s <? 0)).
  { unfold get_calibrated_weight, py_float_of_int in Ew.
    unfold is_uint16 in Hr, Ho.
    rewrite <- (calibrated_sign (current_raw s - current_offset s))
      by (change (2 ^ 53) with 9007199254740992; lia).
    destruct (float_of_Z (current_raw s - current_offset s));
      cbn [bind] in Ew; try discriminate Ew;
      injection Ew as <-; reflexivity. }
  assert (Hfin : finite64 w = true).
  { destruct (get_calibrated_weight_finite _ _ Hr Ho) as (w' & Ew' & Hf).
    rewrite Ew in Ew'. injection Ew' as <-. exact Hf. }
  destruct (format_weight_display_total w (is_metric s) Hfin)
    as (body & _ & Ef & Hb).
  rewrite Ed in Ef. injection Ef as ->.
  assert (Hlead : leading_minus (display_sign w ++ body)
                  = (current_raw s <? current_offset s)).
  { unfold display_sign. rewrite Hw.
    replace (current_raw s - current_offset s <? 0)
      with (current_raw s <? current_offset s)
      by (destruct (Z.ltb_spec (current_raw s) (current_offset s));
          symmetry; [apply Z.ltb_lt|apply Z.ltb_ge]; lia).
    destruct (current_raw s <? current_offset s).
    - reflexivity.
    - apply leading_minus_occurs. exact Hb. }
  split; [exact Hlead|].
  rewrite Hlead, leading_minus_py_str_int.
  destruct (Z.ltb_spec (current_raw s) (current_offset s));
    [apply Z.ltb_lt|apply Z.ltb_ge]; lia.
Qed.

Lemma status_line_sign_follows_raw_difference_witness :
  exists display,
    status_line {| absolute_zero := 0; current_offset := 300;
                   current_raw := 100; is_metric := false |}
      = Ok (status_text display (100 - 300)) /\
    leading_minus display = (100 <? 300) /\
    leading_minus (py_str_int (100 - 300)) = leading_minus display.
Proof.
  apply (status_line_sign_follows_raw_difference
           {| absolute_zero := 0; current_offset := 300;
              current_raw := 100; is_metric := false |});
    unfold is_uint16; cbn; lia.
Defined.

Lemma round_half_even_exact (q d : Z) :
  0 < d -> round_half_even (q * d) d = q.
Proof.
  intros Hd. unfold round_half_even.
  rewrite Z.mod_mul, Z.div_mul by lia.
  replace (2 * 0 ?= d) with Lt by (symmetry; apply Z.compare_lt_iff; lia).
  reflexivity.
Qed.

Lemma bounded_canonical (m : positive) (e : Z) :
  bounded prec emax m e = true ->
  fexp64 (Z.pos (digits2_pos m) + e) = e /\ e <= emax - prec.
Proof.
  intros Hb. unfold bounded, canonical_mantissa in Hb.
  apply andb_prop in Hb as [Hc Hle].
  apply Z.eqb_eq in Hc. apply Z.leb_le in Hle. split; assumption.
Qed.

Lemma bounded_intro (m : positive) (e : Z) :
  Z.pos (digits2_pos m) = 53 -> -1074 <= e <= 971 ->
  bounded prec emax m e = true.
Proof.
  intros Hd He. unfold bounded, canonical_mantissa.
  fold (fexp64 (Z.pos (digits2_pos m) + e)).
  rewrite fexp_unfold, emin_value, Hd.
  apply andb_true_intro. split.
  - apply Z.eqb_eq. unfold prec. lia.
  - apply Z.leb_le. unfold emax, prec. lia.
Qed.

Lemma canon_exact (s : bool) (m : positive) (e : Z) :
  bounded prec emax m e = true -> canon s (Z.pos m) e = S754_finite s m e.
Proof.
  intros Hb. destruct (bounded_canonical m e Hb) as [Hc Hle].
  unfold canon. cbn [Zdigits2]. rewrite Hc, Z.sub_diag.
  change (2 ^ 0) with 1. rewrite Z.div_1_r.
  replace (e <=? emax - prec) with true by (symmetry; apply Z.leb_le; lia).
  reflexivity.
Qed.

(** Rounding is exact on a value that a float holds: if [p * 2 ^ e] is the
    value of the canonical pair [m', e'], rounding it gives that pair. *)
Lemma binary_round_exact (s : bool) (p m' : positive) (e e' : Z) :
  bounded prec emax m' e' = true ->
  Z.pos p * 2 ^ (e - Z.min e e') = Z.pos m' * 2 ^ (e' - Z.min e e') ->
  binary_round prec emax s p e = S754_finite s m' e'.
Proof.
  intros Hb Hv.
  destruct (bounded_canonical m' e' Hb) as [Hc Hle].
  assert (Hd : Z.pos (digits2_pos p) + e = Z.pos (digits2_pos m') + e').
  { pose proof (Zdigits2_mul_pow (Z.pos p) (e - Z.min e e')
                  ltac:(lia) ltac:(lia)) as H1.
    pose proof (Zdigits2_mul_pow (Z.pos m') (e' - Z.min e e')
                  ltac:(lia) ltac:(lia)) as H2.
    rewrite Hv in H1. rewrite H1 in H2. cbn [Zdigits2] in H2. lia. }
  unfold binary_round.
  fold (fexp64 (Z.pos (digits2_pos p) + e)). rewrite Hd, Hc.
  pose proof (shl_align_value p e e') as Hs.
  destruct (shl_align p e e') as [mz ez]. destruct Hs as [Hez Hmz].
  subst ez.
  destruct (Z.le_gt_cases e' e) as [Hle'|Hgt].
  - replace (Z.min e e') with e' in * by lia.
    rewrite Z.sub_diag in Hv. change (2 ^ 0) with 1 in Hv.
    rewrite Z.mul_1_r in Hv. rewrite Hv in Hmz.
    injection Hmz as ->.
    apply binary_round_aux_exact; assumption.
  - replace (Z.min e e') with e in * by lia.
    rewrite Z.sub_diag in Hv, Hmz. change (2 ^ 0) with 1 in Hv, Hmz.
    rewrite Z.mul_1_r in Hv, Hmz. injection Hmz as ->.
    assert (Hf : fexp64 (Zdigits2 (Z.pos p) + e) = e')
      by (cbn [Zdigits2]; rewrite Hd; exact Hc).
    rewrite binary_round_aux_canon by (rewrite ?Hf; lia).
    rewrite Hf, Hv, round_half_even_exact
      by (apply Z.pow_pos_nonneg; lia).
    apply canon_exact. exact Hb.
Qed.

Lemma at_least_sixteen (a : float) :
  finite64 a = true -> sign_bit a = false ->
  py_float_ge_int a OUNCES_PER_POUND = true ->
  exists m e,
    a = S754_finite false m e /\ bounded prec emax m e = true /\ -48 <= e.
Proof.
  intros Hf Hs Hge.
  unfold py_float_ge_int in Hge. rewrite (proj2 sixteen_fields) in Hge.
  destruct a as [s|s| |s m e]; try discriminate Hf; try discriminate Hge.
  cbn [sign_bit] in Hs. subst s.
  exists m, e. split; [reflexivity|]. split; [exact Hf|].
  unfold fle, SFleb in Hge. cbn [SFcompare] in Hge.
  destruct (Z.compare_spec (-48) e); [lia|lia|discriminate Hge].
Qed.

Lemma whole_pounds_exact (m : positive) (e : Z) :
  bounded prec emax m e = true -> -48 <= e ->
  py_int_of_float
    (float_floordiv (S754_finite false m e)
       (S754_finite false 4503599627370496 (-48)))
  = Ok (Z.pos m * 2 ^ (e + 48) / 2 ^ 52).
Proof.
  intros Hb He.
  pose proof (bounded_facts m e Hb) as (Dm & Em & Hn).
  assert (Dm53 : Z.pos (digits2_pos m) = 53) by lia.
  unfold float_floordiv. cbn [exponent xorb].
  replace (Z.min e (-48)) with (-48) by lia.
  cbn [scaled cond_Zopp].
  replace (e - -48) with (e + 48) by lia.
  change (4503599627370496 * 2 ^ (-48 - -48)) with (2 ^ 52).
  pose proof (Zdigits2_bounds (Z.pos m) ltac:(lia)) as [Hlo Hhi].
  cbn [Zdigits2] in Hlo, Hhi. rewrite Dm53 in Hlo, Hhi.
  change (53 - 1) with 52 in Hlo.
  destruct (Z.le_gt_cases 4 e) as [Hbig|Hsmall].
  - replace (Z.pos m * 2 ^ (e + 48))
      with (Z.pos m * 2 ^ (e - 4) * 2 ^ 52)
      by (rewrite <- Z.mul_assoc, <- (Z.pow_add_r 2 (e - 4) 52) by lia;
          do 2 f_equal; lia).
    rewrite Z.div_mul by (apply Z.pow_nonzero; lia).
    assert (Hp : 0 < Z.pos m * 2 ^ (e - 4))
      by (apply Z.mul_pos_pos; [lia|apply Z.pow_pos_nonneg; lia]).
    destruct (Z.pos m * 2 ^ (e - 4)) as [|pl|pl] eqn:El; try lia.
    cbn [binary_normalize].
    rewrite (binary_round_exact false pl m 0 (e - 4)).
    + cbn [py_int_of_float cond_Zopp].
      replace (0 <=? e - 4) with true by (symmetry; apply Z.leb_le; lia).
      rewrite El. reflexivity.
    + apply bounded_intro; [exact Dm53|lia].
    + replace (Z.min 0 (e - 4)) with 0 by lia.
      rewrite !Z.sub_0_r. change (2 ^ 0) with 1. rewrite Z.mul_1_r.
      symmetry. exact El.
  - apply py_int_of_float_of_Z.
    assert (Hx : 0 <= Z.pos m * 2 ^ (e + 48))
      by (apply Z.mul_nonneg_nonneg; [lia|apply Z.pow_nonneg; lia]).
    assert (Hq : 0 <= Z.pos m * 2 ^ (e + 48) / 2 ^ 52)
      by (apply Z.div_pos; [exact Hx|apply Z.pow_pos_nonneg; lia]).
    rewrite Z.abs_eq by exact Hq.
    apply Z.div_lt_upper_bound; [apply Z.pow_pos_nonneg; lia|].
    rewrite <- (Z.pow_add_r 2 52 53) by lia.
    apply Z.lt_le_trans with (2 ^ 53 * 2 ^ (e + 48)).
    + apply Z.mul_lt_mono_pos_r; [apply Z.pow_pos_nonneg; lia|exact Hhi].
    + rewrite <- (Z.pow_add_r 2 53 (e + 48)) by lia.
      apply Z.pow_le_mono_r; lia.
Qed.

Lemma remaining_ounces_exact (m : positive) (e : Z) :
  bounded prec emax m e = true -> -48 <= e ->
  finite64 (float_mod (S754_finite false m e)
              (S754_finite false 4503599627370496 (-48))) = true /\
  exact_units (float_mod (S754_finite false m e)
                 (S754_finite false 4503599627370496 (-48)))
  = (Z.pos m * 2 ^ (e + 48)) mod 2 ^ 52 * 2 ^ 1026.
Proof.
  intros Hb He.
  unfold float_mod. cbn [exponent].
  replace (Z.min e (-48)) with (-48) by lia.
  cbn [scaled cond_Zopp].
  replace (e - -48) with (e + 48) by lia.
  change (4503599627370496 * 2 ^ (-48 - -48)) with (2 ^ 52).
  pose proof (Z.mod_pos_bound (Z.pos m * 2 ^ (e + 48)) (2 ^ 52)
                ltac:(apply Z.pow_pos_nonneg; lia)) as [Hr0 Hr1].
  destruct ((Z.pos m * 2 ^ (e + 48)) mod 2 ^ 52) as [|pr|pr] eqn:Er;
    [split; reflexivity| |lia].
  cbn [binary_normalize].
  pose proof (Zdigits2_le (Z.pos pr) 52 ltac:(lia)
                ltac:(rewrite Z.abs_eq; lia)) as Hd.
  pose proof (Zdigits2_pos (Z.pos pr) ltac:(lia)) as Hd0.
  cbn [Zdigits2] in Hd, Hd0.
  set (k := 53 - Z.pos (digits2_pos pr)).
  assert (Hk : 1 <= k <= 52) by (unfold k; lia).
  assert (Hp : 0 < Z.pos pr * 2 ^ k)
    by (apply Z.mul_pos_pos; [lia|apply Z.pow_pos_nonneg; lia]).
  destruct (Z.pos pr * 2 ^ k) as [|m'|m'] eqn:Em; try lia.
  assert (Dm' : Z.pos (digits2_pos m') = 53).
  { change (Z.pos (digits2_pos m')) with (Zdigits2 (Z.pos m')).
    rewrite <- Em, Zdigits2_mul_pow by lia. cbn [Zdigits2]. unfold k. lia. }
  assert (Hb' : bounded prec emax m' (-48 - k) = true)
    by (apply bounded_intro; [exact Dm'|lia]).
  rewrite (binary_round_exact false pr m' (-48) (-48 - k) Hb').
  - split; [exact Hb'|].
    rewrite exact_units_finite. cbn [cond_Zopp]. rewrite <- Em.
    rewrite <- Z.mul_assoc, <- (Z.pow_add_r 2 k (-48 - k + 1074)) by lia.
    do 2 f_equal. lia.
  - replace (Z.min (-48) (-48 - k)) with (-48 - k) by lia.
    rewrite Z.sub_diag. change (2 ^ 0) with 1. rewrite Z.mul_1_r.
    rewrite <- Em. do 2 f_equal. lia.
Qed.

(** X5: pounds and ounces add up.  For a finite weight of at least 16 oz
    in absolute value the imperial display shows whole pounds [lbs >= 1]
    and remaining ounces [rem_oz], and these are exact: in units of
    [2 ^ -1074] oz, sixteen times [lbs] plus [rem_oz] is the absolute
    weight, with [0 <= rem_oz < 16].  No rounding happens before the two
    decimals of [rem_oz] are printed. *)
Theorem pounds_and_ounces_add_up (weight_oz : float) :
  finite64 weight_oz = true ->
  py_float_ge_int (SFabs weight_oz) OUNCES_PER_POUND = true ->
  exists lbs rem_oz,
    format_weight_display weight_oz false
      = Ok (display_sign weight_oz ++ py_str_int lbs ++ " lb "
            ++ py_format_f 2 rem_oz ++ " oz") /\
    finite64 rem_oz = true /\
    1 <= lbs /\
    0 <= exact_units rem_oz < OUNCES_PER_POUND * 2 ^ 1074 /\
    lbs * (OUNCES_PER_POUND * 2 ^ 1074) + exact_units rem_oz
      = exact_units (SFabs weight_oz).
Proof.
  intros Hf Hge.
  assert (Hfa : finite64 (SFabs weight_oz) = true)
    by (rewrite SFabs_finite64; exact Hf).
  destruct (at_least_sixteen (SFabs weight_oz) Hfa (SFabs_unsigned _) Hge)
    as (m & e & Ea & Hb & He).
  pose proof (whole_pounds_exact m e Hb He) as Hq.
  destruct (remaining_ounces_exact m e Hb He) as [Hrf Hru].
  pose proof (bounded_facts m e Hb) as (Dm & Em & Hn).
  assert (Dm53 : Z.pos (digits2_pos m) = 53) by lia.
  pose proof (Zdigits2_bounds (Z.pos m) ltac:(lia)) as [Hlo _].
  cbn [Zdigits2] in Hlo. rewrite Dm53 in Hlo. change (53 - 1) with 52 in Hlo.
  set (X := Z.pos m * 2 ^ (e + 48)) in *.
  assert (H52 : 0 < 2 ^ 52) by (apply Z.pow_pos_nonneg; lia).
  assert (HX : 2 ^ 52 <= X).
  { unfold X.
    assert (1 <= 2 ^ (e + 48)) by (apply (Z.pow_le_mono_r 2 0); lia).
    nia. }
  exists (X / 2 ^ 52),
    (float_mod (S754_finite false m e)
       (S754_finite false 4503599627370496 (-48))).
  split; [|split; [exact Hrf|]].
  - rewrite format_weight_display_refines.
    unfold format_display, display_magnitude. rewrite Hge, Ea.
    unfold py_float_floordiv_int, py_float_mod_int.
    rewrite (proj1 sixteen_fields). cbn [bind].
    rewrite Hq. reflexivity.
  - rewrite Ea, Hru, exact_units_finite. cbn [cond_Zopp].
    pose proof (Z.mod_pos_bound X (2 ^ 52) H52) as [Hr0 Hr1].
    pose proof (Z.div_mod X (2 ^ 52) ltac:(lia)) as Hdm.
    assert (Hl : 1 <= X / 2 ^ 52)
      by (apply Z.div_le_lower_bound; lia).
    assert (H16 : OUNCES_PER_POUND * 2 ^ 1074 = 2 ^ 52 * 2 ^ 1026)
      by reflexivity.
    assert (Hw : Z.pos m * 2 ^ (e + 1074) = X * 2 ^ 1026).
    { unfold X. rewrite <- Z.mul_assoc, <- (Z.pow_add_r 2 (e + 48) 1026)
        by lia. do 2 f_equal. lia. }
    rewrite H16, Hw.
    assert (HP : 0 < 2 ^ 1026) by (apply Z.pow_pos_nonneg; lia).
    generalize dependent (2 ^ 1026). intros P _ _ HP.
    generalize dependent (2 ^ 52). intros Q _ _ HQ _ Hr0 Hr1 Hdm Hl.
    split; [exact Hl|]. split; nia.
Qed.

Lemma pounds_and_ounces_add_up_witness :
  exists lbs rem_oz,
    format_weight_display (SFopp (float_of_Z 20)) false
      = Ok (display_sign (SFopp (float_of_Z 20)) ++ py_str_int lbs ++ " lb "
            ++ py_format_f 2 rem_oz ++ " oz") /\
    finite64 rem_oz = true /\
    1 <= lbs /\
    0 <= exact_units rem_oz < OUNCES_PER_POUND * 2 ^ 1074 /\
    lbs * (OUNCES_PER_POUND * 2 ^ 1074) + exact_units rem_oz
      = exact_units (SFabs (SFopp (float_of_Z 20))).
Proof.
  apply (pounds_and_ounces_add_up (SFopp (float_of_Z 20))); reflexivity.
Defined.

Lemma session_step_leave (s : session) (t : tick) :
  ends_loop t = true -> session_step s t = leave.
Proof.
  unfold ends_loop, session_step.
  destruct (interrupted t); [reflexivity|].
  destruct (fetched t) as [[]|]; try discriminate; reflexivity.
Qed.

Lemma session_step_continue (s : session) (t : tick) :
  ends_loop t = false ->
  exists s1,
    apply_action s (fetched t) = Some s1 /\
    session_step s t
    = continue (fst (poll_device s1 (device_read t)))
        (snd (poll_device s1 (device_read t)) ++ [sleep])%list.
Proof.
  unfold ends_loop, session_step.
  destruct (interrupted t); [discriminate|].
  destruct (fetched t) as [[]|]; try discriminate; intros _;
    cbn [apply_action]; eexists; (split; [reflexivity|]);
    destruct (poll_device _ (device_read t)); reflexivity.
Qed.

Lemma poll_device_no_sleep (s : session) (r : read_result) :
  filter is_sleep (snd (poll_device s r)) = [] /\
  is_metric (fst (poll_device s r)) = is_metric s /\
  current_offset (fst (poll_device s r)) = current_offset s.
Proof.
  unfold poll_device.
  destruct r as [[|b data]|e]; try (repeat split; reflexivity).
  destruct (get_raw_weight (b :: data)) as [raw|e];
    [|repeat split; reflexivity].
  destruct (status_line (set_current_raw s raw)); repeat split; reflexivity.
Qed.

(** X18: the loop is left only on request.  It ends exactly at the first
    pass that finds [should_exit] set or fetches an exit action, whatever
    the device reads brought before: no failed, empty or malformed read ends
    it.  Every pass before that one runs to its end and sleeps exactly once,
    and the pass that leaves does nothing. *)
Theorem loop_leaves_only_on_request (ticks : list tick) (s : session) :
  let '(out, final, has_left) := run_loop s ticks in
  has_left = existsb ends_loop ticks /\
  run_loop s (completed ticks) = (out, final, false) /\
  List.length (filter is_sleep out) = List.length (completed ticks).
Proof.
  revert s. induction ticks as [|t rest IH]; intros s.
  - repeat split.
  - cbn [run_loop existsb completed].
    destruct (ends_loop t) eqn:Et.
    + rewrite (session_step_leave s t Et). repeat split.
    + destruct (session_step_continue s t Et) as (s1 & _ & E).
      cbn [run_loop]. rewrite !E.
      specialize (IH (fst (poll_device s1 (device_read t)))).
      destruct (run_loop _ rest) as [[out' final] has_left].
      destruct IH as (Hl & Hc & Hn).
      rewrite Hc. split; [exact Hl|]. split; [reflexivity|].
      rewrite !filter_app, (proj1 (poll_device_no_sleep s1 (device_read t))).
      cbn [filter is_sleep app List.length]. rewrite Hn. reflexivity.
Qed.

Lemma apply_action_is_metric (s s1 : session) (t : tick) :
  apply_action s (fetched t) = Some s1 ->
  is_metric s1 = xorb (is_metric s) (is_toggle t).
Proof.
  unfold is_toggle.
  destruct (fetched t) as [[]|]; cbn [apply_action]; intros H;
    inversion H; subst; cbn [is_metric];
    try (destruct (is_metric s); reflexivity);
    destruct (is_metric s1); reflexivity.
Qed.

(** X17: the unit shown follows the parity of the toggles.  After any
    run of passes the display is metric exactly when the number of
    [toggle_units] actions fetched by the passes that ran to their end is
    odd, if it started imperial as [main] starts it; nothing else, no read
    and no other action, changes the unit. *)
Theorem units_follow_toggle_parity (ticks : list tick) (s : session) :
  is_metric (snd (fst (run_loop s ticks)))
  = xorb (is_metric s)
      (Nat.odd (List.length (filter is_toggle (completed ticks)))).
Proof.
  revert s. induction ticks as [|t rest IH]; intros s.
  - cbn. destruct (is_metric s); reflexivity.
  - cbn [run_loop completed].
    destruct (ends_loop t) eqn:Et.
    + rewrite (session_step_leave s t Et). cbn.
      destruct (is_metric s); reflexivity.
    + destruct (session_step_continue s t Et) as (s1 & Ha & E).
      rewrite E.
      specialize (IH (fst (poll_device s1 (device_read t)))).
      destruct (run_loop _ rest) as [[out' final] has_left].
      cbn [fst snd] in IH |- *. rewrite IH.
      destruct (poll_device_no_sleep s1 (device_read t)) as (_ & -> & _).
      rewrite (apply_action_is_metric s s1 t Ha).
      cbn [filter]. destruct (is_toggle t).
      * cbn [List.length]. rewrite Nat.odd_succ, <- Nat.negb_odd.
        destruct (is_metric s), (Nat.odd _); reflexivity.
      * destruct (is_metric s), (Nat.odd _); reflexivity.
Qed.

(** X16: a reset returns to the first reading, whatever happened before.
    The absolute zero read at start-up is never changed by the loop, so
    after any run of passes a reset followed by a frame that carries the
    start-up raw value shows a zero weight and a zero delta. *)
Theorem reset_returns_to_startup_zero
  (ticks : list tick) (s : session) (data : bytes) :
  get_raw_weight data = Ok (absolute_zero s) ->
  let final := snd (fst (run_loop s ticks)) in
  absolute_zero final = absolute_zero s /\
  session_step final {| interrupted := false; fetched := Some reset;
                        device_read := read_data data |}
  = continue
      {| absolute_zero := absolute_zero s;
         current_offset := absolute_zero s;
         current_raw := absolute_zero s;
         is_metric := is_metric final |}
      [stdout_write
         (status_text (if is_metric final then "0.0 g" else "0.00 oz") 0);
       sleep].
Proof.
  intros Hraw final.
  assert (Hz : absolute_zero final = absolute_zero s)
    by apply run_loop_absolute_zero.
  split; [exact Hz|].
  unfold session_step.
  cbn [interrupted fetched device_read apply_action].
  unfold poll_device.
  destruct data as [|b data]; [discriminate Hraw|].
  rewrite Hraw. unfold status_line, set_current_raw.
  cbn [current_raw current_offset is_metric absolute_zero].
  rewrite Hz, get_calibrated_weight_diag, Z.sub_diag. cbn [bind].
  destruct (is_metric final); reflexivity.
Qed.

Lemma reset_returns_to_startup_zero_witness :
  let s := {| absolute_zero := 100; current_offset := 100;
              current_raw := 100; is_metric := false |} in
  let data := [Byte.x00; Byte.x00; Byte.x00; Byte.x00; Byte.x00;
               Byte.x00; Byte.x00; Byte.x64] in
  let ticks := [ {| interrupted := false; fetched := Some tare;
                    device_read :=
                      read_data [Byte.x00; Byte.x00; Byte.x00; Byte.x00;
                                 Byte.x00; Byte.x00; Byte.x01; Byte.x2c] |};
                 {| interrupted := false; fetched := Some toggle_units;
                    device_read := read_raises OSError |} ] in
  get_raw_weight data = Ok 100 /\
  session_step (snd (fst (run_loop s ticks)))
    {| interrupted := false; fetched := Some reset;
       device_read := read_data data |}
  = continue
      {| absolute_zero := 100; current_offset := 100; current_raw := 100;
         is_metric := true |}
      [stdout_write (status_text "0.0 g" 0); sleep].
Proof.
  split; [reflexivity|].
  apply (proj2 (reset_returns_to_startup_zero
                  [ {| interrupted := false; fetched := Some tare;
                       device_read :=
                         read_data [Byte.x00; Byte.x00; Byte.x00; Byte.x00;
                                    Byte.x00; Byte.x00; Byte.x01; Byte.x2c] |};
                    {| interrupted := false; fetched := Some toggle_units;
                       device_read := read_raises OSError |} ]
                  {| absolute_zero := 100; current_offset := 100;
                     current_raw := 100; is_metric := false |}
                  [Byte.x00; Byte.x00; Byte.x00; Byte.x00; Byte.x00;
                   Byte.x00; Byte.x00; Byte.x64]
                  eq_refl)).
Defined.

(** A read that brings a full frame is rendered, for 16-bit session
    values: the frame decodes to a 16-bit value and the status line of that
    value is written. *)
Lemma poll_device_renders (s : session) (r : read_result) :
  session_ok s -> failed_read r = false ->
  exists raw w display,
    (forall previous, latest_raw previous r = raw) /\
    is_uint16 raw /\
    get_calibrated_weight raw (current_offset s) = Ok w /\
    format_weight_display w (is_metric s) = Ok display /\
    poll_device s r
    = (set_current_raw s raw,
       [stdout_write (status_text display (raw - current_offset s))]).
Proof.
  intros (Hz & Ho & Hr) Hf.
  destruct r as [data|e]; [|discriminate Hf].
  cbn [failed_read] in Hf. apply Nat.ltb_ge in Hf.
  destruct (get_raw_weight_frames data) as (_ & Hlong).
  destruct (Hlong Hf) as (high & low & _ & _ & Eraw & Hu).
  set (raw := byte_value high * 256 + byte_value low) in *.
  destruct (status_line_total (set_current_raw s raw))
    as (w & display & Ew & Ed & El); [exact Hu|exact Ho|].
  exists raw, w, display.
  destruct data as [|b data]; [simpl in Hf; lia|].
  split; [intros previous; unfold latest_raw; rewrite Eraw; reflexivity|].
  split; [exact Hu|]. split; [exact Ew|]. split; [exact Ed|].
  unfold poll_device. rewrite Eraw, El. reflexivity.
Qed.

(** X10: the raw value, the offset and the absolute zero stay unsigned
    16-bit integers through every pass of the loop, and so rendering never
    fails.  The output of the loop is, pass by pass over the passes that
    run to their end: for a failed read (one that raises, brings nothing or
    brings fewer than 8 bytes) its debug record, if any, and the sleep; for
    every other read exactly one status line, that of the value decoded from
    the frame against a 16-bit offset, and the sleep. *)
Theorem loop_renders_every_full_frame (ticks : list tick) (s : session) :
  session_ok s ->
  let '(out, final, _) := run_loop s ticks in
  session_ok final /\
  exists outs : list (list effect),
    out = List.concat outs /\ Forall2 pass_writes (completed ticks) outs.
Proof.
  revert s. induction ticks as [|t rest IH]; intros s Hs.
  - cbn [run_loop completed]. split; [exact Hs|].
    exists []. split; [reflexivity|constructor].
  - cbn [run_loop completed].
    destruct (ends_loop t) eqn:Et.
    { rewrite (session_step_leave s t Et). split; [exact Hs|].
      exists []. split; [reflexivity|constructor]. }
    destruct (session_step_continue s t Et) as (s1 & Ha & E). rewrite E.
    pose proof (apply_action_ok s s1 _ Hs Ha) as Hs1.
    assert (Hpass : session_ok (fst (poll_device s1 (device_read t))) /\
                    pass_writes t
                      (snd (poll_device s1 (device_read t)) ++ [sleep])%list).
    { unfold pass_writes.
      destruct (failed_read (device_read t)) eqn:Hf.
      - rewrite (poll_device_failed s1 (device_read t) Hf). cbn [fst snd].
        split; [exact Hs1|reflexivity].
      - destruct (poll_device_renders s1 (device_read t) Hs1 Hf)
          as (raw & w & display & Hraw & Hu & Ew & Ed & ->).
        cbn [fst snd]. split.
        + destruct Hs1 as (Hz & Ho & _).
          unfold session_ok, set_current_raw.
          cbn [absolute_zero current_offset current_raw]. auto.
        + exists raw, (current_offset s1), (is_metric s1), w, display.
          destruct Hs1 as (_ & Ho & _).
          split; [exact Hraw|]. split; [exact Hu|]. split; [exact Ho|].
          split; [exact Ew|]. split; [exact Ed|reflexivity]. }
    destruct Hpass as (Hs2 & Hw).
    specialize (IH _ Hs2).
    destruct (run_loop _ rest) as [[out' final] has_left].
    destruct IH as (Hf & outs & -> & Hall).
    split; [exact Hf|].
    exists ((snd (poll_device s1 (device_read t)) ++ [sleep])%list :: outs).
    split; [reflexivity|]. constructor; assumption.
Qed.

Lemma loop_renders_every_full_frame_witness :
  let '(out, final, _) :=
    run_loop {| absolute_zero := 100; current_offset := 100;
                current_raw := 400; is_metric := false |}
      [{| interrupted := false; fetched := Some tare;
          device_read :=
            read_data [Byte.x00; Byte.x00; Byte.x00; Byte.x00; Byte.x00;
                       Byte.x00; Byte.x01; Byte.x2c] |};
       {| interrupted := false; fetched := None;
          device_read := read_raises OSError |}] in
  session_ok final /\
  exists outs : list (list effect),
    out = List.concat outs /\
    Forall2 pass_writes
      (completed
         [{| interrupted := false; fetched := Some tare;
             device_read :=
               read_data [Byte.x00; Byte.x00; Byte.x00; Byte.x00; Byte.x00;
                          Byte.x00; Byte.x01; Byte.x2c] |};
          {| interrupted := false; fetched := None;
             device_read := read_raises OSError |}]) outs.
Proof.
  apply (loop_renders_every_full_frame
           [{| interrupted := false; fetched := Some tare;
               device_read :=
                 read_data [Byte.x00; Byte.x00; Byte.x00; Byte.x00; Byte.x00;
                            Byte.x00; Byte.x01; Byte.x2c] |};
            {| interrupted := false; fetched := None;
               device_read := read_raises OSError |}]
           {| absolute_zero := 100; current_offset := 100;
              current_raw := 400; is_metric := false |}).
  unfold session_ok, is_uint16. simpl. lia.
Defined.
